(** * Movie recommender: a shallow embedding of [app.py]

    The development follows [MovieRecommender] in [app.py]: the catalog
    load ([load_data], [_ensure_columns]), the title resolver
    ([find_movie]) and the ranking ([get_recommendations],
    [_movie_to_dict]).

    Conventions.
    - Text is ASCII: a Python [str] is a [string] of 8-bit characters.
    - A pandas cell that is missing (NaN) is [None].
    - A Python float is an IEEE binary64 number: a finite one is the
      rational it denotes ([Q], so the sign of a zero is not kept), and
      there are the two infinities. A product of floats and [round] are
      rounded as the machine rounds them ([fl64]). The cosines that come
      from scikit-learn are finite.
    - Functions of scikit-learn, numpy and the file system are not part of
      the repository; they are the fields of a [World], and [WorldOk]
      states their contracts. *)

From Stdlib Require Import List String Ascii Bool Arith ZArith QArith Qround.
From Stdlib Require Import Qpower Qabs.
From Stdlib Require Import Sorted Permutation Lia Lqa.
Import ListNotations.

Set Implicit Arguments.

(* ------------------------------------------------------------------ *)
(** ** Python strings *)

Module PyStr.

Open Scope string_scope.

(** [str.isspace] on one ASCII character: TAB..CR, FS..US and the blank. *)
Definition is_space (c : ascii) : bool :=
  let n := nat_of_ascii c in
  ((9 <=? n) && (n <=? 13) || (28 <=? n) && (n <=? 31) || (n =? 32))%nat.

Definition is_digit (c : ascii) : bool :=
  let n := nat_of_ascii c in ((48 <=? n) && (n <=? 57))%nat.

Definition digit_value (c : ascii) : Z := Z.of_nat (nat_of_ascii c) - 48.

(** [str.lower] on one ASCII character. *)
Definition lower_char (c : ascii) : ascii :=
  let n := nat_of_ascii c in
  if ((65 <=? n) && (n <=? 90))%nat then ascii_of_nat (n + 32) else c.

Fixpoint lower (s : string) : string :=
  match s with
  | EmptyString => EmptyString
  | String c s' => String (lower_char c) (lower s')
  end.

Fixpoint drop_spaces (l : list ascii) : list ascii :=
  match l with
  | c :: l' => if is_space c then drop_spaces l' else l
  | [] => []
  end.

(** [str.strip()] on the characters of a string. *)
Definition strip_chars (l : list ascii) : list ascii :=
  rev (drop_spaces (rev (drop_spaces l))).

Definition strip (s : string) : string :=
  string_of_list_ascii (strip_chars (list_ascii_of_string s)).

(** [s.split(sep)] for a one-character separator: one more piece than
    there are separators, empty pieces kept. *)
Fixpoint split (sep : ascii) (s : string) : list string :=
  match s with
  | EmptyString => [EmptyString]
  | String c s' =>
      if Ascii.eqb c sep then EmptyString :: split sep s'
      else match split sep s' with
           | [] => [String c EmptyString]
           | piece :: rest => String c piece :: rest
           end
  end.

(** [needle in hay]. *)
Fixpoint contains (needle hay : string) : bool :=
  prefix needle hay ||
  match hay with
  | EmptyString => false
  | String _ hay' => contains needle hay'
  end.

(** [s.replace(old, new)] for a non-empty [old]: [skip] counts the
    characters of the current occurrence still to be passed over. *)
Fixpoint replace_from (old new : string) (skip : nat) (s : string) : string :=
  match s with
  | EmptyString => EmptyString
  | String c s' =>
      match skip with
      | S n => replace_from old new n s'
      | O => if prefix old s
             then new ++ replace_from old new (String.length old - 1) s'
             else String c (replace_from old new 0 s')
      end
  end.

Definition replace (old new s : string) : string := replace_from old new 0 s.

(** Truth value of a Python string: non-empty. *)
Definition truthy (s : string) : bool :=
  match s with EmptyString => false | _ => true end.

(** The double-quote character, for messages that quote a title. *)
Definition dquote : string := String (ascii_of_nat 34) EmptyString.

End PyStr.

(* ------------------------------------------------------------------ *)
(** ** Title and genre helpers of [MovieRecommender] *)

Open Scope string_scope.

Definition NO_GENRES : string := "(no genres listed)".

(** The lambda of [load_data] that builds [genre_list]:
    [[g.strip() for g in str(x).split('|') if g and g != '(no genres listed)']].
    The test is made on the piece as split, the trimming comes after. *)
Definition genre_list_of (x : string) : list string :=
  map PyStr.strip
    (filter (fun g => PyStr.truthy g && negb (String.eqb g NO_GENRES))
            (PyStr.split "|" x)).

(** [genres_processed]: both [str.replace] calls of [load_data]. *)
Definition genres_processed_of (x : string) : string :=
  PyStr.replace NO_GENRES "" (PyStr.replace "|" " " x).

(** A match of [\((\d{4})\)] at the head of [s]. *)
Definition year_at (s : string) : option Z :=
  match s with
  | String "(" (String a (String b (String c (String d (String ")" _))))) =>
      if PyStr.is_digit a && PyStr.is_digit b && PyStr.is_digit c && PyStr.is_digit d
      then Some (PyStr.digit_value a * 1000 + PyStr.digit_value b * 100
                 + PyStr.digit_value c * 10 + PyStr.digit_value d)%Z
      else None
  | _ => None
  end.

(** [_extract_year]: the first parenthesised four-digit group. *)
Fixpoint _extract_year (title : string) : option Z :=
  match year_at title with
  | Some y => Some y
  | None => match title with
            | EmptyString => None
            | String _ rest => _extract_year rest
            end
  end.

(** [re.sub(r'\s*\(\d{4}\)\s*$', '', title)], on the characters of the
    title: a final [(dddd)] goes together with the blanks around it. *)
Definition drop_year_suffix (l : list ascii) : list ascii :=
  match PyStr.drop_spaces (rev l) with
  | ")"%char :: d :: c :: b :: a :: "("%char :: before =>
      if PyStr.is_digit a && PyStr.is_digit b && PyStr.is_digit c && PyStr.is_digit d
      then rev (PyStr.drop_spaces before)
      else l
  | _ => l
  end.

(** [_clean_title]. *)
Definition _clean_title (title : string) : string :=
  string_of_list_ascii
    (PyStr.strip_chars (drop_year_suffix (list_ascii_of_string title))).

(* ------------------------------------------------------------------ *)
(** ** Exceptions and the state-and-exception monad *)

(** The exceptions the code tells apart: [load_data] has one handler for
    [FileNotFoundError] and one for every other [Exception]. *)
Inductive exn : Type :=
| FileNotFoundError (msg : string)
| ValueError (msg : string)
| IndexError (msg : string)
| OtherException (msg : string).

(** [str(e)]. *)
Definition str_exn (e : exn) : string :=
  match e with
  | FileNotFoundError m | ValueError m | IndexError m | OtherException m => m
  end.

(** A call either raises or returns. *)
Definition Exc (A : Type) : Type := (exn + A)%type.

Module ExcMonad.

Definition ret {A} (a : A) : Exc A := inr a.
Definition raise {A} (e : exn) : Exc A := inl e.
Definition bind {A B} (c : Exc A) (k : A -> Exc B) : Exc B :=
  match c with
  | inl e => inl e
  | inr a => k a
  end.

End ExcMonad.

Declare Scope exc_scope.
Delimit Scope exc_scope with exc.
Notation "x <- c ;; k" := (ExcMonad.bind c (fun x => k))
  (at level 61, c at next level, right associativity) : exc_scope.

(* ------------------------------------------------------------------ *)
(** ** The catalog: a pandas DataFrame *)

(** One row. A cell is [None] when it is missing (NaN); the cells of a
    column the frame does not have are never read. *)
Record Row : Type := mkRow {
  movieId : option Z;
  title : option string;
  genres : option string;
  year : option Z;
  clean_title : option string;
  rating : option Q;
  vote_count : option Z;
  popularity : option Q;
  overview : option string;
  genres_processed : option string;
  genre_list : list string
}.

(** A frame: its column names and its rows, each under its index label. *)
Record DataFrame : Type := mkDataFrame {
  columns : list string;
  rows : list (nat * Row)
}.

Definition vector : Type := list Q.
Definition matrix : Type := list vector.

(** What the program takes from outside the repository. *)
Record World : Type := mkWorld {
  (** [os.path.exists] *)
  path_exists : string -> bool;
  (** [pd.read_csv]: the column names and the rows in file order *)
  read_csv : string -> Exc (list string * list Row);
  (** [TfidfVectorizer(stop_words='english', ngram_range=(1, 2)).fit_transform] *)
  fit_transform : list (option string) -> Exc matrix;
  (** [sklearn.metrics.pairwise.cosine_similarity(v, m).flatten()] *)
  cosine_similarity : vector -> matrix -> list Q;
  (** [numpy.ndarray.argsort()] *)
  argsort : list Q -> list nat;
  (** the text of [{'movieId', 'title', 'genres'}] in an f-string: the
      order in which a set prints is not fixed *)
  required_cols_repr : string
}.

(** [str(x)] of a text cell; a missing cell prints as [nan]. *)
Definition py_str (c : option string) : string :=
  match c with Some s => s | None => "nan" end.

Definition set_year (v : option Z) (r : Row) : Row :=
  mkRow (movieId r) (title r) (genres r) v (clean_title r) (rating r)
        (vote_count r) (popularity r) (overview r) (genres_processed r) (genre_list r).
Definition set_clean_title (v : option string) (r : Row) : Row :=
  mkRow (movieId r) (title r) (genres r) (year r) v (rating r)
        (vote_count r) (popularity r) (overview r) (genres_processed r) (genre_list r).
Definition set_rating (v : option Q) (r : Row) : Row :=
  mkRow (movieId r) (title r) (genres r) (year r) (clean_title r) v
        (vote_count r) (popularity r) (overview r) (genres_processed r) (genre_list r).
Definition set_vote_count (v : option Z) (r : Row) : Row :=
  mkRow (movieId r) (title r) (genres r) (year r) (clean_title r) (rating r)
        v (popularity r) (overview r) (genres_processed r) (genre_list r).
Definition set_popularity (v : option Q) (r : Row) : Row :=
  mkRow (movieId r) (title r) (genres r) (year r) (clean_title r) (rating r)
        (vote_count r) v (overview r) (genres_processed r) (genre_list r).
Definition set_overview (v : option string) (r : Row) : Row :=
  mkRow (movieId r) (title r) (genres r) (year r) (clean_title r) (rating r)
        (vote_count r) (popularity r) v (genres_processed r) (genre_list r).
Definition set_genres_processed (v : option string) (r : Row) : Row :=
  mkRow (movieId r) (title r) (genres r) (year r) (clean_title r) (rating r)
        (vote_count r) (popularity r) (overview r) v (genre_list r).
Definition set_genre_list (v : list string) (r : Row) : Row :=
  mkRow (movieId r) (title r) (genres r) (year r) (clean_title r) (rating r)
        (vote_count r) (popularity r) (overview r) (genres_processed r) v.

Module Frame.

(** [c in df.columns]. *)
Definition has_col (d : DataFrame) (c : string) : bool :=
  existsb (String.eqb c) (columns d).

(** [pd.read_csv] gives the rows the labels [0 .. n-1]. *)
Definition of_csv (cols : list string) (rs : list Row) : DataFrame :=
  mkDataFrame cols (combine (seq 0 (List.length rs)) rs).

(** [df[c] = ...]: every row gets its new cell; a new column is added
    after the others. *)
Definition assign (c : string) (f : Row -> Row) (d : DataFrame) : DataFrame :=
  mkDataFrame (if has_col d c then columns d else columns d ++ [c])
              (map (fun ir => (fst ir, f (snd ir))) (rows d)).

Definition is_some {A} (o : option A) : bool :=
  match o with Some _ => true | None => false end.

(** [df.dropna(subset=['title', 'genres'])]. *)
Definition dropna_title_genres (d : DataFrame) : DataFrame :=
  mkDataFrame (columns d)
    (filter (fun ir => is_some (title (snd ir)) && is_some (genres (snd ir)))
            (rows d)).

Definition option_string_eqb (a b : option string) : bool :=
  match a, b with
  | Some x, Some y => String.eqb x y
  | None, None => true
  | _, _ => false
  end.

(** The rows of [drop_duplicates(subset=['title'])], first of each title
    kept: [seen] holds the titles of the rows already passed. *)
Fixpoint dedup_titles (seen : list (option string)) (l : list (nat * Row))
  : list (nat * Row) :=
  match l with
  | [] => []
  | ir :: l' =>
      if existsb (option_string_eqb (title (snd ir))) seen
      then dedup_titles seen l'
      else ir :: dedup_titles (title (snd ir) :: seen) l'
  end.

Definition drop_duplicates_title (d : DataFrame) : DataFrame :=
  mkDataFrame (columns d) (dedup_titles [] (rows d)).

(** [df.reset_index(drop=True)]. *)
Definition reset_index (d : DataFrame) : DataFrame :=
  mkDataFrame (columns d)
    (combine (seq 0 (List.length (rows d))) (map snd (rows d))).

(** [df.iloc[i]]: by position; out of range is an [IndexError]. *)
Definition iloc (d : DataFrame) (i : nat) : Exc Row :=
  match nth_error (rows d) i with
  | Some ir => inr (snd ir)
  | None => inl (IndexError "single positional indexer is out-of-bounds")
  end.

(** [df[mask].index[0]]: the label of the first row that passes, if any. *)
Definition first_label (p : Row -> bool) (d : DataFrame) : option nat :=
  option_map fst (find (fun ir => p (snd ir)) (rows d)).

End Frame.

(* ------------------------------------------------------------------ *)
(** ** Numbers *)

(** [int(x)] of a numeric cell: a missing cell (NaN) is a [ValueError]. *)
Definition py_int (c : option Z) : Exc Z :=
  match c with
  | Some z => inr z
  | None => inl (ValueError "cannot convert float NaN to integer")
  end.

(** Nearest integer, a tie going to the even neighbour. *)
Definition round_half_even (x : Q) : Z :=
  let f := Qfloor x in
  match Qcompare (x - inject_Z f)%Q (1 # 2)%Q with
  | Lt => f
  | Gt => (f + 1)%Z
  | Eq => if Z.even f then f else (f + 1)%Z
  end.

(** Rounding to binary64, the format of a Python float: 53 bits of
    significand, the smallest positive number [2^-1074], and every
    magnitude from [2^1024] on out of range. *)
Module Float64.

Definition pow2 (e : Z) : Q := (2 ^ e)%Q.

(** The exponent [e] with [2^e <= x < 2^(e+1)], for [x > 0]: the
    difference of the bit lengths of numerator and denominator, or one
    less. *)
Definition ilog2 (x : Q) : Z :=
  let e := (Z.log2 (Qnum x) - Z.log2 (Zpos (Qden x)))%Z in
  if Qle_bool (pow2 e) x then e else (e - 1)%Z.

(** The exponent of the unit in the last place of the doubles of the
    magnitude of [x]; it stops at [-1074], where the subnormal numbers
    are. *)
Definition ulp_exponent (x : Q) : Z := Z.max (ilog2 (Qabs x) - 52) (-1074).

(** The multiple of [2^e] nearest to [x], a tie going to the even
    multiple. *)
Definition round_at (e : Z) (x : Q) : Q :=
  (inject_Z (round_half_even (x / pow2 e)) * pow2 e)%Q.

End Float64.

(** A Python float that is not a NaN. *)
Inductive float : Type :=
| Finite (x : Q)
| Infinity (negative : bool).

(** The float for the real number [x]: round to nearest, ties to even;
    a result that does not fit is an infinity. *)
Definition fl64 (x : Q) : float :=
  let r := Qred (Float64.round_at (Float64.ulp_exponent x) x) in
  if Qle_bool (Float64.pow2 1024) (Qabs r)
  then Infinity (negb (Qle_bool 0 r))
  else Finite r.

(** [x * y] on two finite floats. *)
Definition float_mul (x y : Q) : float := fl64 (x * y)%Q.

(** [round(x, 1)]: the decimal with one digit nearest to the value of the
    float, a tie going to the even digit, then the float for that
    decimal; an infinity is returned as it is. *)
Definition py_round1 (x : float) : float :=
  match x with
  | Finite q => fl64 (inject_Z (round_half_even (q * 10)) / 10)%Q
  | Infinity negative => Infinity negative
  end.

(** [a <= b] on floats. *)
Definition float_le (a b : float) : Prop :=
  match a, b with
  | Infinity true, _ => True
  | _, Infinity false => True
  | Finite x, Finite y => (x <= y)%Q
  | _, _ => False
  end.

(** [l[:k]]: a negative [k] counts from the end. *)
Definition slice_to {A} (k : Z) (l : list A) : list A :=
  if (0 <=? k)%Z then firstn (Z.to_nat k) l
  else firstn (List.length l - Z.to_nat (- k)) l.

(** [a[i]] on an array. *)
Definition array_get {A} (a : list A) (i : nat) : Exc A :=
  match nth_error a i with
  | Some x => inr x
  | None => inl (IndexError "index out of bounds")
  end.

(* ------------------------------------------------------------------ *)
(** ** [MovieRecommender] *)

(** The attributes of the object that the claims read ([tfidf_vectorizer]
    and [poster_cache] hold library objects and posters). *)
Record MovieRecommender : Type := mkRecommender {
  df : option DataFrame;
  tfidf_matrix : option matrix;
  is_loaded : bool;
  error_message : option string
}.

Definition set_df (d : DataFrame) (self : MovieRecommender) : MovieRecommender :=
  mkRecommender (Some d) (tfidf_matrix self) (is_loaded self) (error_message self).
Definition set_tfidf_matrix (m : matrix) (self : MovieRecommender) : MovieRecommender :=
  mkRecommender (df self) (Some m) (is_loaded self) (error_message self).
Definition set_is_loaded (b : bool) (self : MovieRecommender) : MovieRecommender :=
  mkRecommender (df self) (tfidf_matrix self) b (error_message self).
Definition set_error_message (e : string) (self : MovieRecommender) : MovieRecommender :=
  mkRecommender (df self) (tfidf_matrix self) (is_loaded self) (Some e).

(** The dictionary of [_movie_to_dict]. The [poster_url] entry is left
    out: it comes from the network, and [_get_poster_url] has no effect on
    the other entries. *)
Record MovieDict : Type := mkMovieDict {
  md_id : Z;
  md_title : option string;
  md_clean_title : option string;
  md_year : option Z;
  md_genres : list string;
  md_rating : option Q;
  md_vote_count : Z;
  md_overview : option string;
  md_rank : option nat;
  md_similarity_score : option float
}.

(** The dictionary [get_recommendations] returns; an error result has no
    [selected_movie]. *)
Record Result : Type := mkResult {
  selected_movie : option MovieDict;
  recommendations : list MovieDict;
  error : option string
}.

Definition error_result (msg : string) : Result := mkResult None [] (Some msg).

(** [a or b] on an optional string: [None] and the empty string are false. *)
Definition py_or (a : option string) (b : string) : string :=
  match a with
  | Some s => if PyStr.truthy s then s else b
  | None => b
  end.

Definition files_to_try (csv_path : string) : list string :=
  ["tmdb_movies_processed.csv"; csv_path; "movies_with_posters.csv";
   "movies_enhanced.csv"; "movies.csv"].

Definition required_cols : list string := ["movieId"; "title"; "genres"].

(** [_ensure_columns]: a display column is filled in only when the frame
    has no column of that name. *)
Definition _ensure_columns (d : DataFrame) : DataFrame :=
  let d := if Frame.has_col d "year" then d
           else Frame.assign "year"
                  (fun r => set_year (_extract_year (py_str (title r))) r) d in
  let d := if Frame.has_col d "clean_title" then d
           else Frame.assign "clean_title"
                  (fun r => set_clean_title (Some (_clean_title (py_str (title r)))) r) d in
  let d := if Frame.has_col d "rating" then d
           else Frame.assign "rating" (set_rating (Some 7%Q)) d in
  let d := if Frame.has_col d "vote_count" then d
           else Frame.assign "vote_count" (set_vote_count (Some 1000%Z)) d in
  let d := if Frame.has_col d "popularity" then d
           else Frame.assign "popularity" (set_popularity (Some 50%Q)) d in
  let d := if Frame.has_col d "overview" then d
           else Frame.assign "overview"
                  (set_overview (Some "A great movie to watch!")) d in
  d.

(** The three cleaning steps of [load_data], lines 65-67. *)
Definition clean_data (d : DataFrame) : DataFrame :=
  Frame.reset_index (Frame.drop_duplicates_title (Frame.dropna_title_genres d)).

(** The frame of a loaded recommender, from the frame that was read:
    cleaning, [_ensure_columns], and the two genre columns. *)
Definition prepare (d : DataFrame) : DataFrame :=
  let d := _ensure_columns (clean_data d) in
  let d := Frame.assign "genres_processed"
             (fun r => set_genres_processed
                         (option_map genres_processed_of (genres r)) r) d in
  Frame.assign "genre_list"
    (fun r => set_genre_list (genre_list_of (py_str (genres r))) r) d.

Section Recommender.

Variable W : World.

(** The body of the [try] of [load_data]: the object as the body leaves
    it, and whether the body raised. *)
Definition load_data_try (self : MovieRecommender) (csv_path : string)
  : MovieRecommender * Exc unit :=
  match find (path_exists W) (files_to_try csv_path) with
  | None => (self, inl (FileNotFoundError "No movie dataset found"))
  | Some file_path =>
      match read_csv W file_path with
      | inl e => (self, inl e)
      | inr (cols, rs) =>
          let raw := Frame.of_csv cols rs in
          let self := set_df raw self in
          if negb (forallb (Frame.has_col raw) required_cols)
          then (self, inl (ValueError ("CSV must contain columns: "
                                        ++ required_cols_repr W)))
          else
            let d := prepare raw in
            let self := set_df d self in
            match fit_transform W (map (fun ir => genres_processed (snd ir)) (rows d)) with
            | inl e => (self, inl e)
            | inr m => (set_is_loaded true (set_tfidf_matrix m self), inr tt)
            end
      end
  end.

(** [load_data]: the [try] with its two handlers. *)
Definition load_data (self : MovieRecommender) (csv_path : string)
  : MovieRecommender :=
  match load_data_try self csv_path with
  | (self', inr _) => self'
  | (self', inl (FileNotFoundError m)) => set_error_message m self'
  | (self', inl e) =>
      set_error_message ("Error loading data: " ++ str_exn e) self'
  end.

(** [__init__]. *)
Definition init (csv_path : string) : MovieRecommender :=
  load_data (mkRecommender None None false None) csv_path.

Open Scope exc_scope.

(** [row.get(c, default)]: the cell when the frame has the column. *)
Definition row_get {A} (d : DataFrame) (c : string) (cell default : A) : A :=
  if Frame.has_col d c then cell else default.

(** [_movie_to_dict(row, rank=rank, similarity=similarity)]; [d] is the
    frame the row comes from. *)
Definition _movie_to_dict (d : DataFrame) (row : Row)
    (rank : option nat) (similarity : option Q) : Exc MovieDict :=
  movie_id <- py_int (movieId row) ;;
  votes <- py_int (row_get d "vote_count" (vote_count row) (Some 1000%Z)) ;;
  inr (mkMovieDict
         movie_id
         (title row)
         (row_get d "clean_title" (clean_title row)
                  (Some (_clean_title (py_str (title row)))))
         (row_get d "year" (year row) (_extract_year (py_str (title row))))
         (row_get d "genre_list" (genre_list row) [])
         (row_get d "rating" (rating row) (Some 7%Q))
         votes
         (row_get d "overview" (overview row) (Some "A great movie to watch!"))
         rank
         (option_map (fun s => py_round1 (float_mul s 100)) similarity)).

Definition cell_lower_is (q : string) (c : option string) : bool :=
  match c with
  | Some s => String.eqb (PyStr.lower s) q
  | None => false
  end.

Definition cell_lower_contains (q : string) (c : option string) : bool :=
  match c with
  | Some s => PyStr.contains q (PyStr.lower s)
  | None => false
  end.

Definition no_frame {A} : Exc A :=
  inl (OtherException "'NoneType' object is not subscriptable").

(** [find_movie]. *)
Definition find_movie (self : MovieRecommender) (query : string)
  : Exc (option nat) :=
  if negb (is_loaded self) then inr None
  else
    match df self with
    | None => no_frame
    | Some d =>
        let query_lower := PyStr.strip (PyStr.lower query) in
        match Frame.first_label (fun r => cell_lower_is query_lower (title r)) d with
        | Some i => inr (Some i)
        | None =>
            match Frame.first_label
                    (fun r => cell_lower_is query_lower (clean_title r)) d with
            | Some i => inr (Some i)
            | None =>
                inr (Frame.first_label
                       (fun r => cell_lower_contains query_lower (clean_title r)) d)
            end
        end
    end.

(** Lines 309-310: the ranking, the query's own position left out, cut to
    [n_recommendations]. *)
Definition similar_indices (similarity_scores : list Q) (idx : nat)
    (n_recommendations : Z) : list nat :=
  slice_to n_recommendations
    (filter (fun i => negb (i =? idx)%nat) (rev (argsort W similarity_scores))).

(** The loop of lines 313-317; [rank] is the rank of the next entry. *)
Fixpoint build_recommendations (d : DataFrame) (similarity_scores : list Q)
    (rank : nat) (indices : list nat) : Exc (list MovieDict) :=
  match indices with
  | [] => inr []
  | sim_idx :: rest =>
      row <- Frame.iloc d sim_idx ;;
      score <- array_get similarity_scores sim_idx ;;
      m <- _movie_to_dict d row (Some rank) (Some score) ;;
      ms <- build_recommendations d similarity_scores (S rank) rest ;;
      inr (m :: ms)
  end.

(** Lines 300-323: the result for the movie at position [idx]; [tfidf] is
    the attribute [self.tfidf_matrix], read after the selected movie has
    been made into a dictionary. *)
Definition recommend_at (d : DataFrame) (tfidf : option matrix) (idx : nat)
    (n_recommendations : Z) : Exc Result :=
  selected_row <- Frame.iloc d idx ;;
  selected <- _movie_to_dict d selected_row None None ;;
  m <- match tfidf with Some m => inr m | None => no_frame end ;;
  movie_vector <- array_get m idx ;;
  let similarity_scores := cosine_similarity W movie_vector m in
  recs <- build_recommendations d similarity_scores 1
            (similar_indices similarity_scores idx n_recommendations) ;;
  inr (mkResult (Some selected) recs None).

Definition id_is (movie_id : Z) (r : Row) : bool :=
  match movieId r with
  | Some z => (z =? movie_id)%Z
  | None => false
  end.

(** The test [elif movie_title:]: a title that is given and not empty. *)
Definition given (movie_title : option string) : option string :=
  match movie_title with
  | Some t => if PyStr.truthy t then Some t else None
  | None => None
  end.

(** [get_recommendations]. *)
Definition get_recommendations (self : MovieRecommender)
    (movie_id : option Z) (movie_title : option string)
    (n_recommendations : Z) : Exc Result :=
  if negb (is_loaded self)
  then inr (error_result (py_or (error_message self) "Data not loaded"))
  else
    match movie_id with
    | Some id =>
        match df self with
        | None => no_frame
        | Some d =>
            match Frame.first_label (id_is id) d with
            | None => inr (error_result "Movie not found")
            | Some idx =>
                recommend_at d (tfidf_matrix self) idx n_recommendations
            end
        end
    | None =>
        match given movie_title with
        | Some t =>
            found <- find_movie self t ;;
            match found with
            | None =>
                inr (error_result ("Could not find movie: " ++ PyStr.dquote
                                     ++ t ++ PyStr.dquote))
            | Some idx =>
                match df self with
                | None => no_frame
                | Some d =>
                    recommend_at d (tfidf_matrix self) idx n_recommendations
                end
            end
        | None => inr (error_result "Please provide a movie ID or title")
        end
    end.

End Recommender.

(* ------------------------------------------------------------------ *)
(** ** An [argsort], and a small world to run the code in *)

(** Insertion of position [i] into positions already in ascending order
    of score; [i] goes before the first position whose score is not
    smaller. *)
Fixpoint insert_index (scores : list Q) (i : nat) (sorted : list nat) : list nat :=
  match sorted with
  | [] => [i]
  | j :: rest =>
      if Qle_bool (nth i scores 0%Q) (nth j scores 0%Q) then i :: sorted
      else j :: insert_index scores i rest
  end.

(** An ascending [argsort] by insertion: the positions are inserted from
    the last to the first, so equal scores stay in ascending order of
    position (a stable sort). *)
Definition stable_argsort (scores : list Q) : list nat :=
  fold_right (insert_index scores) [] (seq 0 (List.length scores)).

Module Demo.

Definition dot (u v : vector) : Q :=
  fold_right Qplus 0%Q (map (fun ab => (fst ab * snd ab)%Q) (combine u v)).

(** Rows over the vocabulary [action, comedy]: a document of one genre has
    the unit vector of that genre. *)
Definition one_genre_row (doc : option string) : vector :=
  match doc with
  | Some "Action" => [1%Q; 0%Q]
  | Some "Comedy" => [0%Q; 1%Q]
  | _ => [0%Q; 0%Q]
  end.

Definition raw_row (id : Z) (t g : string) : Row :=
  mkRow (Some id) (Some t) (Some g) None None None None None None None [].

(** [movies.csv]: the columns [movieId, title, genres]. *)
Definition movies_csv : list string * list Row :=
  (["movieId"; "title"; "genres"],
   [raw_row 1 "Toy Story (1995)" "Comedy";
    raw_row 2 "Jumanji (1995)" "Action";
    raw_row 3 "Heat (1995)" "Action"]).

(** [gaps.csv]: with the columns [rating] and [vote_count], and a row that
    has neither cell. *)
Definition gaps_csv : list string * list Row :=
  (["movieId"; "title"; "genres"; "rating"; "vote_count"],
   [set_vote_count (Some 5415%Z) (set_rating (Some (77 # 10)) (raw_row 1 "Toy Story (1995)" "Comedy"));
    raw_row 2 "Jumanji (1995)" "Action"]).

(** [spaces.csv]: a title that ends in a blank. *)
Definition spaces_csv : list string * list Row :=
  (["movieId"; "title"; "genres"],
   [raw_row 1 "Toy Story (1995)" "Comedy";
    raw_row 2 "Heat (1995) " "Action"]).

(** [broken.csv]: no [genres] column. *)
Definition broken_csv : list string * list Row :=
  (["movieId"; "title"],
   [mkRow (Some 1%Z) (Some "Toy Story (1995)") None None None None None None None None []]).

Definition files : list (string * (list string * list Row)) :=
  [("movies.csv", movies_csv); ("gaps.csv", gaps_csv);
   ("spaces.csv", spaces_csv); ("broken.csv", broken_csv)].

Fixpoint lookup {A} (k : string) (l : list (string * A)) : option A :=
  match l with
  | [] => None
  | (k', v) :: l' => if String.eqb k k' then Some v else lookup k l'
  end.

Definition world : World :=
  mkWorld
    (fun p => Frame.is_some (lookup p files))
    (fun p => match lookup p files with
              | Some t => inr t
              | None => inl (FileNotFoundError p)
              end)
    (fun docs => match docs with
                 | [] => inl (ValueError "empty vocabulary; perhaps the documents only contain stop words")
                 | _ => inr (map one_genre_row docs)
                 end)
    (fun v m => map (dot v) m)
    stable_argsort
    "{'movieId', 'title', 'genres'}".

(** A world without any file. *)
Definition empty_world : World :=
  mkWorld (fun _ => false) (fun p => inl (FileNotFoundError p))
          (fun docs => inr (map one_genre_row docs))
          (fun v m => map (dot v) m) stable_argsort
          "{'movieId', 'title', 'genres'}".

(** The catalog that [movies.csv] loads to, and the answer to a call for
    the movie of id 1. *)
Definition catalog : MovieRecommender := init world "movies.csv".

Definition frame : DataFrame :=
  prepare (Frame.of_csv (fst movies_csv) (snd movies_csv)).

Definition toy_story_result : Result :=
  Eval vm_compute in
    match get_recommendations world catalog (Some 1%Z) None 20 with
    | inr r => r
    | inl _ => error_result ""
    end.

Definition toy_story : MovieDict :=
  Eval vm_compute in
    match selected_movie toy_story_result with
    | Some m => m
    | None => mkMovieDict 0 None None None [] None 0 None None None
    end.

End Demo.

(** What the ranking needs from the libraries. *)
Record WorldOk (W : World) : Prop := mkWorldOk {
  (** a TF-IDF matrix has one row for each document *)
  fit_rows : forall docs m,
    fit_transform W docs = inr m -> List.length m = List.length docs;
  (** one score for each row of the matrix *)
  cosine_length : forall v m,
    List.length (cosine_similarity W v m) = List.length m;
  (** [argsort] returns every position once ... *)
  argsort_perm : forall s,
    Permutation (argsort W s) (seq 0 (List.length s));
  (** ... in ascending order of score *)
  argsort_sorted : forall s,
    StronglySorted (fun i j => (nth i s 0 <= nth j s 0)%Q) (argsort W s)
}.

(** The score a dictionary carries, for comparing two entries. *)
Definition score_ge (a b : MovieDict) : Prop :=
  match md_similarity_score a, md_similarity_score b with
  | Some x, Some y => float_le y x
  | _, _ => False
  end.

(* ------------------------------------------------------------------ *)
(** ** The vocabulary of the properties *)

(** The handlers of [load_data] store a message for every exception. *)
Definition handler_message (e : exn) : string :=
  match e with
  | FileNotFoundError m => m
  | _ => "Error loading data: " ++ str_exn e
  end.

(** What [_ensure_columns] makes of one row: each display cell is kept
    when the frame came with the column, and is the default otherwise. *)
Definition ensure_row (d : DataFrame) (r : Row) : Row :=
  mkRow (movieId r) (title r) (genres r)
        (if Frame.has_col d "year" then year r
         else _extract_year (py_str (title r)))
        (if Frame.has_col d "clean_title" then clean_title r
         else Some (_clean_title (py_str (title r))))
        (if Frame.has_col d "rating" then rating r else Some 7%Q)
        (if Frame.has_col d "vote_count" then vote_count r else Some 1000%Z)
        (if Frame.has_col d "popularity" then popularity r else Some 50%Q)
        (if Frame.has_col d "overview" then overview r
         else Some "A great movie to watch!")
        (genres_processed r) (genre_list r).

(** The row of a loaded frame, from the cleaned row. *)
Definition prepare_row (d : DataFrame) (r : Row) : Row :=
  let r := ensure_row d r in
  set_genre_list (genre_list_of (py_str (genres r)))
    (set_genres_processed (option_map genres_processed_of (genres r)) r).

(** A row that [dropna] keeps. *)
Definition present (r : Row) : bool :=
  Frame.is_some (title r) && Frame.is_some (genres r).

(** Position [p] of the input holds the first of the rows with a title
    and a genre string that carries its title. *)
Definition kept_position (rs : list Row) (p : nat) : Prop :=
  exists r, nth_error rs p = Some r /\ present r = true
    /\ forall q r', (q < p)%nat -> nth_error rs q = Some r' ->
                    present r' = true -> title r' <> title r.

Definition row_title (ir : nat * Row) : option string := title (snd ir).

(** The rows that are left before [reset_index], under their labels. *)
Definition survivors (d : DataFrame) : list (nat * Row) :=
  rows (Frame.drop_duplicates_title (Frame.dropna_title_genres d)).

(** The claim of C8 read record by record: a record of the file that has
    no rating, no vote count or no popularity has the default after the
    load. The record of the frame is found by its title. *)
Definition defaults_per_record (cols : list string) (rs : list Row) : Prop :=
  forall r0 r,
    In r0 rs ->
    In r (map snd (rows (prepare (Frame.of_csv cols rs)))) ->
    title r = title r0 ->
    (~ In "rating" cols \/ rating r0 = None -> rating r = Some 7%Q)
    /\ (~ In "vote_count" cols \/ vote_count r0 = None
        -> vote_count r = Some 1000%Z)
    /\ (~ In "popularity" cols \/ popularity r0 = None
        -> popularity r = Some 50%Q).

(** The first row of the frame, in catalog order, that passes [p] is the
    one under the label [i]. *)
Definition first_match (p : Row -> bool) (d : DataFrame) (i : nat) : Prop :=
  exists before r after,
    rows d = (before ++ (i, r) :: after)%list
    /\ p r = true
    /\ Forall (fun ir => p (snd ir) = false) before.

Definition no_match (p : Row -> bool) (d : DataFrame) : Prop :=
  Forall (fun ir => p (snd ir) = false) (rows d).

Definition raw_title_is (q : string) (r : Row) : bool :=
  cell_lower_is q (title r).
Definition clean_title_is (q : string) (r : Row) : bool :=
  cell_lower_is q (clean_title r).
Definition clean_title_contains (q : string) (r : Row) : bool :=
  cell_lower_contains q (clean_title r).

(** The precedence of the resolver for a lower-case query [q]: the raw
    title, then the clean title, then a substring of the clean title, then
    nothing. *)
Inductive resolution (d : DataFrame) (q : string) : option nat -> Prop :=
| by_raw_title i :
    first_match (raw_title_is q) d i -> resolution d q (Some i)
| by_clean_title i :
    no_match (raw_title_is q) d ->
    first_match (clean_title_is q) d i -> resolution d q (Some i)
| by_substring i :
    no_match (raw_title_is q) d ->
    no_match (clean_title_is q) d ->
    first_match (clean_title_contains q) d i -> resolution d q (Some i)
| not_found :
    no_match (raw_title_is q) d ->
    no_match (clean_title_is q) d ->
    no_match (clean_title_contains q) d -> resolution d q None.

(** The claim of C5 as it is written: the query is compared without
    regard to case, and in no other way changed. *)
Definition resolves_as_stated (self : MovieRecommender) (query : string) : Prop :=
  exists d o,
    df self = Some d
    /\ find_movie self query = inr o
    /\ resolution d (PyStr.lower query) o.

(** Entry [m] of the result was built from the row at position [i] and
    from the score at position [i]. *)
Definition entry (d : DataFrame) (scores : list Q) (i : nat) (m : MovieDict)
  : Prop :=
  exists row c rank,
    Frame.iloc d i = inr row
    /\ nth_error scores i = Some c
    /\ _movie_to_dict d row (Some rank) (Some c) = inr m.

(** The cells [_movie_to_dict] converts with [int] are there. *)
Definition convertible (d : DataFrame) (row : Row) : Prop :=
  movieId row <> None
  /\ row_get d "vote_count" (vote_count row) (Some 1000%Z) <> None.

(** The claim of C1 on a result: of two entries with the same score, the
    one that stands first comes from the smaller position of the catalog.
    An entry is traced to its position by its title. *)
Definition ties_by_ascending_ordinal (d : DataFrame) (r : Result) : Prop :=
  forall p q a b i j,
    (p < q)%nat ->
    nth_error (recommendations r) p = Some a ->
    nth_error (recommendations r) q = Some b ->
    md_similarity_score a = md_similarity_score b ->
    Frame.first_label (fun row => Frame.option_string_eqb (title row) (md_title a)) d = Some i ->
    Frame.first_label (fun row => Frame.option_string_eqb (title row) (md_title b)) d = Some j ->
    (i < j)%nat.

(** The claim of C2 at one call. *)
Definition top_k_as_stated (W : World) (self : MovieRecommender)
    (movie_id : Z) (k : Z) : Prop :=
  exists d r,
    df self = Some d
    /\ get_recommendations W self (Some movie_id) None k = inr r
    /\ List.length (recommendations r)
       = Nat.min (Z.to_nat k) (List.length (rows d) - 1).

(** Position [i] has a score not above that of position [j]. *)
Definition score_le (scores : list Q) (i j : nat) : Prop :=
  (nth i scores 0 <= nth j scores 0)%Q.

(** [x] stands somewhere before [y] in the list [l]. *)
Definition comes_before {A} (x y : A) (l : list A) : Prop :=
  exists l1 l2 l3, l = (l1 ++ x :: l2 ++ y :: l3)%list.

(** The position in the frame that a call resolves to. *)
Definition selected_position (self : MovieRecommender) (movie_id : option Z)
    (movie_title : option string) (d : DataFrame) (idx : nat) : Prop :=
  match movie_id with
  | Some id => Frame.first_label (id_is id) d = Some idx
  | None => exists t, given movie_title = Some t
                      /\ find_movie self t = inr (Some idx)
  end.

(** A double: [m * 2^e] with [|m| < 2^53] and [e >= -1074], of magnitude
    below [2^1024]. *)
Definition binary64 (y : Q) : Prop :=
  exists m e : Z,
    (Z.abs m < 2 ^ 53)%Z /\ (-1074 <= e)%Z
    /\ (y == inject_Z m * 2 ^ e)%Q /\ (Qabs y < 2 ^ 1024)%Q.

(** [y] is the double nearest to [x]; when two doubles are equally near,
    [y] is the one that is an even multiple of their distance. *)
Definition nearest_binary64 (x y : Q) : Prop :=
  binary64 y
  /\ forall z, binary64 z ->
       (Qabs (y - x) <= Qabs (z - x))%Q
       /\ ((Qabs (z - x) == Qabs (y - x))%Q -> ~ (z == y)%Q ->
           exists h : Z, (y == inject_Z (2 * h) * (z - y))%Q).

(** [t] tenths is the number with one decimal nearest to [x]; when two
    are equally near, [t] is even. *)
Definition nearest_tenth (x : Q) (t : Z) : Prop :=
  (Qabs (inject_Z t / 10 - x) <= 1 # 20)%Q
  /\ ((Qabs (inject_Z t / 10 - x) == 1 # 20)%Q -> Z.even t = true).

(* ------------------------------------------------------------------ *)
(** ** The other queries of [MovieRecommender] *)

Section Queries.

Open Scope exc_scope.

(** [[self._movie_to_dict(row, ...) for _, row in matches.iterrows()]]:
    the rows in order; the first that raises ends the comprehension. *)
Fixpoint dicts_of (d : DataFrame) (l : list (nat * Row)) : Exc (list MovieDict) :=
  match l with
  | [] => inr []
  | ir :: rest =>
      m <- _movie_to_dict d (snd ir) None None ;;
      ms <- dicts_of d rest ;;
      inr (m :: ms)
  end.

(** [search_movies]; [df.head(limit)] counts from the end when [limit] is
    negative, as a slice does. *)
Definition search_movies (self : MovieRecommender) (query : string) (limit : Z)
  : Exc (list MovieDict) :=
  if negb (is_loaded self) then inr []
  else
    let query_lower := PyStr.strip (PyStr.lower query) in
    if (String.length query_lower <? 2)%nat then inr []
    else
      match df self with
      | None => no_frame
      | Some d =>
          dicts_of d
            (slice_to limit
               (filter (fun ir => cell_lower_contains query_lower
                                    (clean_title (snd ir)))
                       (rows d)))
      end.

(** [get_movie_by_id]: the first row with the id, as a dictionary. *)
Definition get_movie_by_id (self : MovieRecommender) (movie_id : Z)
  : Exc (option MovieDict) :=
  if negb (is_loaded self) then inr None
  else
    match df self with
    | None => no_frame
    | Some d =>
        match find (fun ir => id_is movie_id (snd ir)) (rows d) with
        | None => inr None
        | Some ir =>
            m <- _movie_to_dict d (snd ir) None None ;;
            inr (Some m)
        end
    end.

End Queries.

(** [sorted] on strings: ascending by code point. The strings are put one
    by one in their place. *)
Fixpoint insert_sorted (x : string) (l : list string) : list string :=
  match l with
  | [] => [x]
  | y :: rest =>
      if String.leb x y then x :: l else y :: insert_sorted x rest
  end.

Definition py_sorted (l : list string) : list string :=
  fold_right insert_sorted [] l.

(** [get_all_genres]: the set of the genres of all rows, sorted. The set
    is the list without its repetitions. *)
Definition get_all_genres (self : MovieRecommender) : Exc (list string) :=
  if negb (is_loaded self) then inr []
  else
    match df self with
    | None => no_frame
    | Some d =>
        if Frame.has_col d "genre_list"
        then inr (py_sorted
                    (nodup string_dec
                           (List.concat (map (fun ir => genre_list (snd ir))
                                             (rows d)))))
        else inl (OtherException "KeyError: 'genre_list'")
    end.

(* ------------------------------------------------------------------ *)
(** ** Posters *)

Module Poster.

(** The answer of the OMDb service to one request: the status, and the
    entries [Response] and [Poster] of its JSON body; reading the body may
    raise. *)
Record Answer : Type := mkAnswer {
  status_code : Z;
  json : Exc (option string * option string)
}.

(** [requests.get(OMDB_API_URL, params=params, timeout=5)] for a title and
    the year that is sent with it, if any. *)
Definition Http : Type := string -> option Z -> Exc Answer.

(** The body of [_fetch_omdb_poster] ([OMDB_API_KEY] is not empty). The
    decorator [lru_cache] replays what this body returned before for the
    same title and year. *)
Definition _fetch_omdb_poster (http : Http) (title : string) (year : option Z)
  : option string :=
  let y := match year with
           | Some z => if (z =? 0)%Z then None else Some z
           | None => None
           end in
  match http title y with
  | inl _ => None
  | inr response =>
      if (status_code response =? 200)%Z then
        match json response with
        | inl _ => None
        | inr (answer, poster) =>
            if Frame.option_string_eqb answer (Some "True") then
              match poster with
              | Some p =>
                  if PyStr.truthy p && negb (String.eqb p "N/A")
                  then Some p else None
              | None => None
              end
            else None
        end
      else None
  end.

(** [str.isdigit]: not empty, and digits only. *)
Definition isdigit (s : string) : bool :=
  PyStr.truthy s && forallb PyStr.is_digit (list_ascii_of_string s).

(** [s.split(sep)[-1]]. *)
Definition last_piece (sep : ascii) (s : string) : string :=
  last (PyStr.split sep s) "".

(** [s[:n]]. *)
Definition take (n : nat) (s : string) : string :=
  string_of_list_ascii (firstn n (list_ascii_of_string s)).

(** Step 1 of [_get_poster_url]: the poster of the dataset, when it looks
    real. [cell] is the [poster_url] of the row; it is [None] when there
    is no row, no such column, or no value. *)
Definition dataset_poster (cell : option string) : option string :=
  match cell with
  | Some url =>
      if PyStr.truthy url && prefix "http" url then
        if PyStr.contains "image.tmdb.org" url then
          if negb (isdigit (last_piece "/" url)) then Some url else None
        else if negb (PyStr.contains "placeholder" (PyStr.lower url))
             then Some url else None
      else None
  | None => None
  end.

Definition colors : list string :=
  ["667eea"; "f093fb"; "4facfe"; "43e97b"; "fa709a"; "fee140";
   "a18cd1"; "30cfd0"; "f5576c"; "4481eb"].

(** The text of the placeholder: 25 characters of the clean title, with
    [+] for a blank and [%26] for [&]. *)
Definition encoded_title (title : string) : string :=
  PyStr.replace "&" "%26" (PyStr.replace " " "+" (take 25 (_clean_title title))).

(** Step 3 of [_get_poster_url]. *)
Definition placeholder (movie_id : Z) (title : string) : string :=
  let color_index := Z.to_nat (movie_id mod Z.of_nat (List.length colors)) in
  let bg_color := nth color_index colors "" in
  "https://via.placeholder.com/300x450/" ++ bg_color
    ++ "/ffffff?text=" ++ encoded_title title.

(** [_get_poster_url]. *)
Definition _get_poster_url (http : Http) (movie_id : Z) (title : string)
    (cell : option string) : string :=
  match dataset_poster cell with
  | Some url => url
  | None =>
      match _fetch_omdb_poster http (_clean_title title) (_extract_year title) with
      | Some omdb_poster =>
          if PyStr.truthy omdb_poster then omdb_poster
          else placeholder movie_id title
      | None => placeholder movie_id title
      end
  end.

End Poster.

(** The normalised query of [search_movies] and [find_movie]. *)
Definition normalised (query : string) : string :=
  PyStr.strip (PyStr.lower query).

(** The columns of the frame of a loaded recommender. *)
Definition loaded_columns : list string :=
  ["movieId"; "title"; "genres"; "year"; "clean_title"; "rating";
   "vote_count"; "popularity"; "overview"; "genres_processed"; "genre_list"].

(** The four characters of a year are digits; the number they write. *)
Definition year_digits (a b c d : ascii) : bool :=
  PyStr.is_digit a && PyStr.is_digit b && PyStr.is_digit c && PyStr.is_digit d.

Definition year_value (a b c d : ascii) : Z :=
  (PyStr.digit_value a * 1000 + PyStr.digit_value b * 100
   + PyStr.digit_value c * 10 + PyStr.digit_value d)%Z.

(** The text [(abcd)] of a year between parentheses. *)
Definition year_group (a b c d : ascii) : string :=
  String "(" (String a (String b (String c (String d (String ")" EmptyString))))).

(** The characters of a string. *)
Definition chars (s : string) : list ascii := list_ascii_of_string s.

(** A string with no white space at either end. *)
Definition trimmed (s : string) : Prop :=
  match chars s with
  | [] => True
  | c :: _ => PyStr.is_space c = false
              /\ PyStr.is_space (last (chars s) c) = false
  end.

Definition rstrip (l : list ascii) : list ascii :=
  rev (PyStr.drop_spaces (rev l)).

(** [str.lstrip] and [str.rstrip] on characters. *)
Definition lstrip := PyStr.drop_spaces.

(* ------------------------------------------------------------------ *)
(** ** More data to run the code on *)

Module Examples.

(** The object before [load_data] runs. *)
Definition fresh : MovieRecommender := mkRecommender None None false None.

(** A processed file, with the display columns filled in. *)
Definition processed_row (id : Z) (t ct : string) (y : Z) (g : string)
    (rt : Q) (v : Z) : Row :=
  mkRow (Some id) (Some t) (Some g) (Some y) (Some ct) (Some rt) (Some v)
        (Some 50%Q) (Some "No overview available.") None [].

Definition processed_csv : list string * list Row :=
  (["movieId"; "title"; "clean_title"; "year"; "genres"; "rating";
    "vote_count"; "popularity"; "overview"],
   [processed_row 19995 "Avatar (2009)" "Avatar" 2009 "Action" (72 # 10) 11800;
    processed_row 862 "Toy Story (1995)" "Toy Story" 1995 "Comedy" (77 # 10) 5415]).

(** A world in which [tmdb_movies_processed.csv] exists beside
    [movies.csv]. *)
Definition processed_world : World :=
  mkWorld
    (fun p => String.eqb p "tmdb_movies_processed.csv" || String.eqb p "movies.csv")
    (fun p => if String.eqb p "tmdb_movies_processed.csv" then inr processed_csv
              else if String.eqb p "movies.csv" then inr Demo.movies_csv
              else inl (FileNotFoundError p))
    (fun docs => inr (map Demo.one_genre_row docs))
    (fun v m => map (Demo.dot v) m)
    stable_argsort
    "{'movieId', 'title', 'genres'}".

(** The double nearest to a rational in the range of the doubles. *)
Definition double (q : Q) : Q :=
  match fl64 q with
  | Finite y => y
  | Infinity _ => 0%Q
  end.

(** [tagged.csv]: movies of one, two and three genres. *)
Definition tagged_csv : list string * list Row :=
  (["movieId"; "title"; "genres"],
   [Demo.raw_row 1 "Die Hard (1988)" "Action";
    Demo.raw_row 2 "Rush Hour (1998)" "Action|Comedy";
    Demo.raw_row 3 "Lethal Weapon (1987)" "Action|Comedy|Drama";
    Demo.raw_row 4 "Airplane! (1980)" "Comedy";
    Demo.raw_row 5 "Ordinary People (1980)" "Drama"]).

(** Rows of length one over the terms [action], [comedy], [drama]. *)
Definition genre_row (doc : option string) : vector :=
  match doc with
  | Some "Action" => [1%Q; 0%Q; 0%Q]
  | Some "Action Comedy" => [3 # 5; 4 # 5; 0%Q]
  | Some "Action Comedy Drama" => [2 # 3; 2 # 3; 1 # 3]
  | Some "Comedy" => [0%Q; 1%Q; 0%Q]
  | Some "Drama" => [0%Q; 0%Q; 1%Q]
  | _ => [0%Q; 0%Q; 0%Q]
  end.

(** A world with [tagged.csv]; a cosine is the double nearest to the dot
    product of the two rows. *)
Definition tagged_world : World :=
  mkWorld
    (fun p => String.eqb p "tagged.csv")
    (fun p => if String.eqb p "tagged.csv" then inr tagged_csv
              else inl (FileNotFoundError p))
    (fun docs => inr (map genre_row docs))
    (fun v m => map (fun u => double (Demo.dot v u)) m)
    stable_argsort
    "{'movieId', 'title', 'genres'}".

Definition tagged : MovieRecommender := init tagged_world "tagged.csv".

Definition tagged_matrix : matrix :=
  Eval vm_compute in
    match tfidf_matrix tagged with
    | Some m => m
    | None => []
    end.

(** The answer to a call for the movie of id 1, [Die Hard]. *)
Definition die_hard_result : Result :=
  Eval vm_compute in
    match get_recommendations tagged_world tagged (Some 1%Z) None 20 with
    | inr r => r
    | inl _ => error_result ""
    end.

(** [search_movies("he", limit=8)] on the catalog of [movies.csv]. *)
Definition search_he : list MovieDict :=
  Eval vm_compute in
    match search_movies Demo.catalog "he" 8 with
    | inr ms => ms
    | inl _ => []
    end.

(** An OMDb service that has no poster: it answers [N/A]. *)
Definition no_poster : Poster.Http :=
  fun _ _ => inr (Poster.mkAnswer 200 (inr (Some "True", Some "N/A"))).

End Examples.

(* ================================================================== *)
(** * Properties *)

(* ------------------------------------------------------------------ *)
(** ** Genre lists *)

Lemma genre_list_of_spec_example :
  genre_list_of "Action|Adventure|(no genres listed)" = ["Action"; "Adventure"].
Proof. reflexivity. Qed.

(** Every token of the genre list is the trimmed form of a piece of the
    source string that, untrimmed, is neither empty nor the sentinel. *)
Lemma genre_list_of_pieces (x t : string) :
  In t (genre_list_of x) ->
  exists g, In g (PyStr.split "|" x) /\ t = PyStr.strip g
            /\ g <> "" /\ g <> NO_GENRES.
Proof.
  unfold genre_list_of. rewrite in_map_iff.
  intros (g & <- & Hg). apply filter_In in Hg as [Hin Hkeep].
  apply andb_true_iff in Hkeep as [Hne Hsent].
  exists g. repeat split; trivial.
  - intros ->. discriminate Hne.
  - intros ->. now rewrite String.eqb_refl in Hsent.
Qed.

(** C6. The genre list is meant to hold no empty token and no sentinel,
    but the test [g and g != '(no genres listed)'] is made before
    [g.strip()]: a piece made of a blank passes it and is trimmed to the
    empty token, and a sentinel after a blank passes it too. *)
Theorem genre_list_of_blank_piece :
  genre_list_of "Action| |Comedy" = ["Action"; ""; "Comedy"]
  /\ genre_list_of "Action|Adventure| (no genres listed)"
     = ["Action"; "Adventure"; NO_GENRES].
Proof. split; reflexivity. Qed.

(* ------------------------------------------------------------------ *)
(** ** Unloaded recommenders and failed loads *)

Lemma py_or_nonempty (a : option string) (b : string) :
  b <> "" -> py_or a b <> "".
Proof.
  intros Hb. unfold py_or. destruct a as [s|]; trivial.
  destruct s; simpl; trivial. discriminate.
Qed.

Lemma load_data_try_flag (W : World) self csv_path :
  is_loaded (fst (load_data_try W self csv_path))
  = match snd (load_data_try W self csv_path) with
    | inl _ => is_loaded self
    | inr _ => true
    end.
Proof.
  unfold load_data_try.
  destruct (find _ _); [|reflexivity].
  destruct (read_csv W s) as [e|[cols rs]]; [reflexivity|].
  destruct (negb _); [reflexivity|].
  destruct (fit_transform W _); reflexivity.
Qed.

Lemma load_data_failure (W : World) self csv_path e :
  snd (load_data_try W self csv_path) = inl e ->
  is_loaded (load_data W self csv_path) = is_loaded self
  /\ error_message (load_data W self csv_path) = Some (handler_message e).
Proof.
  intros He. pose proof (load_data_try_flag W self csv_path) as Hf.
  unfold load_data. destruct (load_data_try W self csv_path) as [self' res].
  simpl in *. subst res. destruct e; simpl; auto.
Qed.

(** C7. On a recommender that is not loaded, [get_recommendations] returns
    an error result: a message that is not empty, and no recommendation.
    [load_data] returns the object in every case; when the body of its
    [try] raises, the loaded flag stays false and the message of the
    exception is stored. *)
Theorem unloaded_error_result (W : World) (self : MovieRecommender) :
  is_loaded self = false ->
  (forall movie_id movie_title k,
      exists msg,
        get_recommendations W self movie_id movie_title k
        = inr (mkResult None [] (Some msg))
        /\ msg = py_or (error_message self) "Data not loaded"
        /\ msg <> "")
  /\ (forall csv_path e,
         snd (load_data_try W self csv_path) = inl e ->
         is_loaded (load_data W self csv_path) = false
         /\ error_message (load_data W self csv_path) = Some (handler_message e)
         /\ forall movie_id movie_title k,
             exists msg,
               get_recommendations W (load_data W self csv_path)
                                   movie_id movie_title k
               = inr (mkResult None [] (Some msg))
               /\ msg <> "").
Proof.
  intros Hun.
  assert (Hq : forall s, is_loaded s = false ->
            forall movie_id movie_title k,
              get_recommendations W s movie_id movie_title k
              = inr (mkResult None [] (Some (py_or (error_message s) "Data not loaded")))).
  { intros s Hs movie_id movie_title k.
    unfold get_recommendations. now rewrite Hs. }
  split.
  - intros movie_id movie_title k. eexists. split; [apply Hq; exact Hun|].
    split; [reflexivity|]. apply py_or_nonempty. discriminate.
  - intros csv_path e He.
    destruct (load_data_failure W self csv_path He) as [Hflag Hmsg].
    rewrite Hun in Hflag. repeat split; trivial.
    intros movie_id movie_title k. eexists. split; [apply Hq; exact Hflag|].
    apply py_or_nonempty. discriminate.
Qed.

(** C10, as amended. On a loaded recommender, a call with no id and with
    no title, or an empty one, returns the error result that asks for an
    identifier; the frame is not read. *)
Theorem no_identifier_error (W : World) (self : MovieRecommender)
    (movie_title : option string) (k : Z) :
  is_loaded self = true ->
  movie_title = None \/ movie_title = Some "" ->
  get_recommendations W self None movie_title k
  = inr (mkResult None [] (Some "Please provide a movie ID or title")).
Proof.
  intros Hl Ht. unfold get_recommendations. rewrite Hl. simpl.
  destruct Ht as [-> | ->]; reflexivity.
Qed.

(** C10, as stated, fails on a recommender that is not loaded: the test of
    the loaded flag comes first, and the error is the one of the load. *)
Lemma unloaded_call_reports_load_error :
  let self := init Demo.empty_world "movies.csv" in
  get_recommendations Demo.empty_world self None None 20
  = inr (mkResult None [] (Some "No movie dataset found"))
  /\ get_recommendations Demo.empty_world self None None 20
     <> inr (mkResult None [] (Some "Please provide a movie ID or title")).
Proof. split; [reflexivity | discriminate]. Qed.

(* ------------------------------------------------------------------ *)
(** ** Frames *)

Open Scope list_scope.

Section FrameFacts.

Lemma has_col_In (d : DataFrame) (c : string) :
  Frame.has_col d c = true <-> In c (columns d).
Proof.
  unfold Frame.has_col. rewrite existsb_exists. split.
  - intros (x & Hx & He). apply String.eqb_eq in He. now subst.
  - intros Hc. exists c. split; trivial. apply String.eqb_refl.
Qed.

Lemma has_col_assign (c c' : string) f d :
  Frame.has_col (Frame.assign c f d) c'
  = Frame.has_col d c' || String.eqb c' c.
Proof.
  unfold Frame.assign, Frame.has_col at 1. simpl.
  destruct (Frame.has_col d c) eqn:Hc.
  - fold (Frame.has_col d c').
    destruct (String.eqb c' c) eqn:He; [|now rewrite orb_false_r].
    apply String.eqb_eq in He. subst. now rewrite Hc.
  - rewrite existsb_app. simpl. now rewrite orb_false_r.
Qed.

Lemma rows_assign c f d :
  rows (Frame.assign c f d) = map (fun ir => (fst ir, f (snd ir))) (rows d).
Proof. reflexivity. Qed.

Lemma rows_step (b : bool) c f d :
  rows (if b then d else Frame.assign c f d)
  = map (fun ir => (fst ir, if b then snd ir else f (snd ir))) (rows d).
Proof.
  destruct b; [|reflexivity].
  rewrite <- (map_id (rows d)) at 1. apply map_ext. now intros [i r].
Qed.

Lemma has_col_step_other (b : bool) c f d c' :
  String.eqb c' c = false ->
  Frame.has_col (if b then d else Frame.assign c f d) c' = Frame.has_col d c'.
Proof.
  intros H. destruct b; trivial. now rewrite has_col_assign, H, orb_false_r.
Qed.

Lemma ensure_columns_rows (d : DataFrame) :
  rows (_ensure_columns d)
  = map (fun ir => (fst ir, ensure_row d (snd ir))) (rows d).
Proof.
  unfold _ensure_columns. cbv zeta.
  rewrite !rows_step, !map_map.
  rewrite !has_col_step_other by reflexivity.
  apply map_ext. intros [i r]. unfold ensure_row. cbn [fst snd].
  destruct (Frame.has_col d "year"), (Frame.has_col d "clean_title"),
    (Frame.has_col d "rating"), (Frame.has_col d "vote_count"),
    (Frame.has_col d "popularity"), (Frame.has_col d "overview");
    destruct r; reflexivity.
Qed.

Lemma ensure_columns_has_col (d : DataFrame) (c : string) :
  Frame.has_col d c = true -> Frame.has_col (_ensure_columns d) c = true.
Proof.
  intros Hc. unfold _ensure_columns.
  repeat match goal with
         | |- context [if ?b then _ else _] => destruct b
         end;
  rewrite ?has_col_assign, ?Hc; reflexivity.
Qed.

Lemma clean_data_columns (d : DataFrame) :
  columns (clean_data d) = columns d.
Proof. reflexivity. Qed.

Lemma has_col_clean_data (d : DataFrame) c :
  Frame.has_col (clean_data d) c = Frame.has_col d c.
Proof. reflexivity. Qed.

Lemma prepare_rows (d : DataFrame) :
  rows (prepare d)
  = map (fun ir => (fst ir, prepare_row d (snd ir))) (rows (clean_data d)).
Proof.
  unfold prepare. rewrite !rows_assign, ensure_columns_rows, !map_map.
  apply map_ext. intros [i r]. reflexivity.
Qed.

Lemma prepare_labels (d : DataFrame) :
  map fst (rows (prepare d)) = map fst (rows (clean_data d)).
Proof. rewrite prepare_rows, map_map. reflexivity. Qed.

Lemma prepare_length (d : DataFrame) :
  List.length (rows (prepare d)) = List.length (rows (clean_data d)).
Proof. rewrite prepare_rows. apply length_map. Qed.

Lemma prepare_titles (d : DataFrame) :
  map (fun ir => title (snd ir)) (rows (prepare d))
  = map (fun ir => title (snd ir)) (rows (clean_data d)).
Proof. rewrite prepare_rows, map_map. reflexivity. Qed.

Lemma has_col_step_keep (b : bool) c f d c' :
  Frame.has_col d c' = true ->
  Frame.has_col (if b then d else Frame.assign c f d) c' = true.
Proof.
  intros H. destruct b; trivial. now rewrite has_col_assign, H.
Qed.

Lemma has_col_step_here c f d :
  Frame.has_col (if Frame.has_col d c then d else Frame.assign c f d) c = true.
Proof.
  destruct (Frame.has_col d c) eqn:H; trivial.
  now rewrite has_col_assign, String.eqb_refl, orb_true_r.
Qed.

Lemma prepare_has_vote_count (d : DataFrame) :
  Frame.has_col (prepare d) "vote_count" = true.
Proof.
  unfold prepare. rewrite !has_col_assign.
  assert (H : Frame.has_col (_ensure_columns (clean_data d)) "vote_count" = true).
  { unfold _ensure_columns. cbv zeta.
    do 2 apply has_col_step_keep. apply has_col_step_here. }
  now rewrite H.
Qed.

End FrameFacts.

(* ------------------------------------------------------------------ *)
(** ** Cleaning: [dropna], [drop_duplicates], [reset_index] *)

Section Cleaning.

Lemma option_string_eqb_eq (a b : option string) :
  Frame.option_string_eqb a b = true <-> a = b.
Proof.
  destruct a as [x|], b as [y|]; simpl; split; try discriminate; trivial.
  - intros H. apply String.eqb_eq in H. now subst.
  - intros [= ->]. apply String.eqb_refl.
Qed.

Lemma seen_In (t : option string) (seen : list (option string)) :
  existsb (Frame.option_string_eqb t) seen = true <-> In t seen.
Proof.
  rewrite existsb_exists. split.
  - intros (x & Hx & He). apply option_string_eqb_eq in He. now subst.
  - intros Ht. exists t. split; trivial. now apply option_string_eqb_eq.
Qed.

Lemma seen_not_In (t : option string) (seen : list (option string)) :
  existsb (Frame.option_string_eqb t) seen = false <-> ~ In t seen.
Proof.
  rewrite <- seen_In. destruct (existsb _ _); split; intros H;
    solve [congruence | discriminate | now elim H].
Qed.

(** A row survives [drop_duplicates] exactly when its title is new at the
    place where the row stands. *)
Lemma dedup_titles_In (l : list (nat * Row)) :
  forall seen x,
    In x (Frame.dedup_titles seen l) <->
    exists l1 l2, l = l1 ++ x :: l2
                  /\ ~ In (row_title x) seen
                  /\ ~ In (row_title x) (map row_title l1).
Proof.
  induction l as [|a l IH]; intros seen x; simpl.
  - split; [tauto|]. intros (l1 & l2 & H & _). now destruct l1.
  - destruct (existsb _ seen) eqn:Hs.
    + apply seen_In in Hs. rewrite IH. split.
      * intros (l1 & l2 & -> & Hn & Hl). exists (a :: l1), l2.
        repeat split; trivial. simpl. intros [He | Hin]; [|tauto].
        unfold row_title in *. congruence.
      * intros (l1 & l2 & Hl & Hn & Hl1). destruct l1 as [|b l1].
        -- simpl in Hl. injection Hl as -> ->. now elim Hn.
        -- simpl in Hl. injection Hl as -> ->. exists l1, l2.
           repeat split; trivial. simpl in Hl1. tauto.
    + apply seen_not_In in Hs. simpl. rewrite IH. split.
      * intros [-> | (l1 & l2 & -> & Hn & Hl)].
        -- exists [], l. repeat split; trivial. simpl. tauto.
        -- exists (a :: l1), l2. simpl in Hn. repeat split; trivial.
           ++ tauto.
           ++ simpl. unfold row_title in *. intros [He | Hin]; [|tauto].
              apply Hn. left. exact He.
      * intros (l1 & l2 & Hl & Hn & Hl1). destruct l1 as [|b l1].
        -- simpl in Hl. injection Hl as -> ->. now left.
        -- simpl in Hl. injection Hl as -> ->. right. exists l1, l2.
           simpl in Hl1. split; [reflexivity|]. split; [|tauto].
           simpl. unfold row_title in *. intros [He | Hin]; [|tauto].
           apply Hl1. left. exact He.
Qed.

Lemma dedup_titles_incl (l : list (nat * Row)) :
  forall seen x, In x (Frame.dedup_titles seen l) -> In x l.
Proof.
  intros seen x H. apply dedup_titles_In in H as (l1 & l2 & -> & _).
  apply in_elt.
Qed.

Lemma dedup_titles_NoDup (l : list (nat * Row)) :
  forall seen, NoDup (map row_title (Frame.dedup_titles seen l)).
Proof.
  induction l as [|a l IH]; intros seen; simpl; [constructor|].
  destruct (existsb _ seen); [apply IH|].
  simpl. constructor; [|apply IH].
  rewrite in_map_iff. intros (x & Hx & Hin).
  apply dedup_titles_In in Hin as (_ & _ & _ & Hn & _).
  apply Hn. left. unfold row_title in *. now symmetry.
Qed.

Lemma dedup_titles_sorted (R : nat * Row -> nat * Row -> Prop)
      (l : list (nat * Row)) :
  forall seen, StronglySorted R l -> StronglySorted R (Frame.dedup_titles seen l).
Proof.
  induction l as [|a l IH]; intros seen Hs; simpl; [constructor|].
  apply StronglySorted_inv in Hs as [Hs Ha].
  destruct (existsb _ seen); [now apply IH|].
  constructor; [now apply IH|].
  rewrite Forall_forall in *. intros x Hx. apply Ha.
  eapply dedup_titles_incl; eauto.
Qed.

Lemma filter_sorted {A} (R : A -> A -> Prop) (f : A -> bool) (l : list A) :
  StronglySorted R l -> StronglySorted R (filter f l).
Proof.
  induction 1 as [|a l Hs IH Ha]; simpl; [constructor|].
  destruct (f a); trivial. constructor; trivial.
  rewrite Forall_forall in *. intros x Hx. apply Ha.
  now apply filter_In in Hx.
Qed.

Lemma combine_seq_In {A} (l : list A) (p : nat) (r : A) :
  forall base,
    In (p, r) (combine (seq base (List.length l)) l)
    <-> (base <= p)%nat /\ nth_error l (p - base) = Some r.
Proof.
  induction l as [|a l IH]; intros base; simpl.
  - split; [tauto|]. intros [_ H]. now destruct (p - base)%nat.
  - rewrite IH. split.
    + intros [[= <- <-] | [Hle Hn]].
      * split; [lia|]. now rewrite Nat.sub_diag.
      * split; [lia|]. replace (p - base)%nat with (S (p - S base)) by lia.
        exact Hn.
    + intros [Hle Hn]. destruct (p - base)%nat as [|k] eqn:Hk.
      * left. injection Hn as ->. f_equal. lia.
      * right. split; [lia|]. replace (p - S base)%nat with k by lia.
        exact Hn.
Qed.

(** The rows of a frame as read: row [p] of the file under the label [p]. *)
Lemma of_csv_In cols rs p r :
  In (p, r) (rows (Frame.of_csv cols rs)) <-> nth_error rs p = Some r.
Proof.
  unfold Frame.of_csv. simpl. rewrite combine_seq_In, Nat.sub_0_r.
  split; [tauto|]. intros H. split; [lia|exact H].
Qed.

Lemma combine_seq_sorted {A} (l : list A) :
  forall base,
    StronglySorted (fun a b : nat * A => (fst a < fst b)%nat)
                   (combine (seq base (List.length l)) l).
Proof.
  induction l as [|a l IH]; intros base; simpl; constructor; [apply IH|].
  rewrite Forall_forall. intros [i x] Hx. apply in_combine_l in Hx.
  apply in_seq in Hx. simpl. lia.
Qed.

Lemma map_fst_combine_seq {A} (l : list A) base :
  map fst (combine (seq base (List.length l)) l) = seq base (List.length l).
Proof.
  revert base. induction l as [|a l IH]; intros base; simpl; [reflexivity|].
  now rewrite IH.
Qed.

Lemma map_snd_combine_seq {A} (l : list A) base :
  map snd (combine (seq base (List.length l)) l) = l.
Proof.
  revert base. induction l as [|a l IH]; intros base; simpl; [reflexivity|].
  now rewrite IH.
Qed.

Lemma clean_data_rows (d : DataFrame) :
  rows (clean_data d)
  = combine (seq 0 (List.length (survivors d))) (map snd (survivors d)).
Proof. reflexivity. Qed.

Lemma clean_data_length (d : DataFrame) :
  List.length (rows (clean_data d)) = List.length (survivors d).
Proof.
  rewrite clean_data_rows, length_combine, length_seq, length_map.
  apply Nat.min_id.
Qed.

Lemma clean_data_labels (d : DataFrame) :
  map fst (rows (clean_data d)) = seq 0 (List.length (rows (clean_data d))).
Proof.
  rewrite clean_data_length, clean_data_rows.
  rewrite <- (length_map snd (survivors d)) at 1 2.
  apply map_fst_combine_seq.
Qed.

Lemma clean_data_snd (d : DataFrame) :
  map snd (rows (clean_data d)) = map snd (survivors d).
Proof.
  rewrite clean_data_rows. rewrite <- (length_map snd (survivors d)).
  apply map_snd_combine_seq.
Qed.

Lemma clean_data_titles_NoDup (d : DataFrame) :
  NoDup (map row_title (rows (clean_data d))).
Proof.
  replace (map row_title (rows (clean_data d)))
    with (map title (map snd (rows (clean_data d))))
    by (rewrite map_map; reflexivity).
  rewrite clean_data_snd, map_map. apply dedup_titles_NoDup.
Qed.

Lemma survivors_present (d : DataFrame) :
  Forall (fun ir => present (snd ir) = true) (survivors d).
Proof.
  rewrite Forall_forall. intros x Hx. unfold survivors in Hx. simpl in Hx.
  apply dedup_titles_incl in Hx. now apply filter_In in Hx.
Qed.

Lemma survivors_sorted cols rs :
  StronglySorted (fun a b : nat * Row => (fst a < fst b)%nat)
                 (survivors (Frame.of_csv cols rs)).
Proof.
  unfold survivors. simpl. apply dedup_titles_sorted, filter_sorted.
  apply combine_seq_sorted.
Qed.

Lemma sorted_split_before {A} (l1 l2 : list (nat * A)) (x y : nat * A) :
  StronglySorted (fun a b => (fst a < fst b)%nat) (l1 ++ x :: l2) ->
  In y l1 -> (fst y < fst x)%nat.
Proof.
  induction l1 as [|a l1 IH]; simpl; intros Hs Hy; [tauto|].
  apply StronglySorted_inv in Hs as [Hs Ha]. destruct Hy as [-> | Hy].
  - rewrite Forall_forall in Ha. apply Ha, in_elt.
  - now apply IH.
Qed.

Lemma sorted_split_after {A} (l1 l2 : list (nat * A)) (x y : nat * A) :
  StronglySorted (fun a b => (fst a < fst b)%nat) (l1 ++ x :: l2) ->
  In y l2 -> (fst x < fst y)%nat.
Proof.
  induction l1 as [|a l1 IH]; simpl; intros Hs Hy.
  - apply StronglySorted_inv in Hs as [_ Ha].
    rewrite Forall_forall in Ha. now apply Ha.
  - apply StronglySorted_inv in Hs as [Hs _]. now apply IH.
Qed.

(** The labels that survive are the kept positions of the file. *)
Lemma survivors_kept cols rs p :
  In p (map fst (survivors (Frame.of_csv cols rs))) <-> kept_position rs p.
Proof.
  set (L1 := filter (fun ir : nat * Row => present (snd ir))
                    (rows (Frame.of_csv cols rs))).
  assert (HL1 : forall q r, In (q, r) L1 <->
                            nth_error rs q = Some r /\ present r = true).
  { intros q r. unfold L1. rewrite filter_In, of_csv_In. reflexivity. }
  assert (Hsorted : StronglySorted (fun a b : nat * Row => (fst a < fst b)%nat) L1).
  { apply filter_sorted. apply combine_seq_sorted. }
  assert (Hsurv : survivors (Frame.of_csv cols rs) = Frame.dedup_titles [] L1)
    by reflexivity.
  rewrite Hsurv, in_map_iff. split.
  - intros ([q r] & Hq & Hin). simpl in Hq. subst q.
    apply dedup_titles_In in Hin as (l1 & l2 & Hl & _ & Hnew).
    assert (Hpr : In (p, r) L1) by (rewrite Hl; apply in_elt).
    apply HL1 in Hpr as [Hn Hp]. exists r. repeat split; trivial.
    intros q r' Hlt Hq Hp' Heq.
    assert (Hq1 : In (q, r') L1) by (apply HL1; auto).
    rewrite Hl in Hq1, Hsorted. apply in_app_or in Hq1 as [H1 | [H1 | H1]].
    + apply Hnew. apply in_map_iff. exists (q, r').
      split; [exact Heq | exact H1].
    + injection H1 as -> _. lia.
    + apply (sorted_split_after _ _ _ _ Hsorted) in H1. simpl in H1. lia.
  - intros (r & Hn & Hp & Hfirst).
    assert (Hpr : In (p, r) L1) by (apply HL1; auto).
    destruct (in_split _ _ Hpr) as (l1 & l2 & Hl).
    exists (p, r). split; trivial. apply dedup_titles_In.
    exists l1, l2. repeat split; trivial; [simpl; tauto|].
    rewrite in_map_iff. intros ([q r'] & Ht & Hin).
    assert (Hlt : (q < p)%nat).
    { rewrite Hl in Hsorted.
      apply (sorted_split_before _ _ _ _ Hsorted) in Hin. exact Hin. }
    assert (Hq1 : In (q, r') L1) by (rewrite Hl; apply in_or_app; now left).
    apply HL1 in Hq1 as [Hq Hp']. unfold row_title in Ht. simpl in Ht.
    exact (Hfirst q r' Hlt Hq Hp' Ht).
Qed.

Lemma survivors_rows cols rs :
  map Some (map snd (survivors (Frame.of_csv cols rs)))
  = map (nth_error rs) (map fst (survivors (Frame.of_csv cols rs))).
Proof.
  rewrite !map_map. apply map_ext_in. intros [p r] Hin. simpl.
  unfold survivors in Hin. simpl in Hin.
  apply dedup_titles_incl, filter_In in Hin as [Hin _].
  symmetry. now apply (of_csv_In cols).
Qed.

End Cleaning.

(* ------------------------------------------------------------------ *)
(** ** Loading *)

(** A recommender that [__init__] leaves loaded read a file with the
    required columns, and holds the prepared frame and its matrix. *)
Lemma init_loaded (W : World) (csv_path : string) :
  is_loaded (init W csv_path) = true ->
  exists file cols rs m,
    find (path_exists W) (files_to_try csv_path) = Some file
    /\ read_csv W file = inr (cols, rs)
    /\ fit_transform W (map (fun ir => genres_processed (snd ir))
                            (rows (prepare (Frame.of_csv cols rs)))) = inr m
    /\ init W csv_path
       = mkRecommender (Some (prepare (Frame.of_csv cols rs))) (Some m) true None.
Proof.
  unfold init, load_data, load_data_try.
  destruct (find _ _) as [file|]; [|discriminate].
  destruct (read_csv W file) as [e|[cols rs]] eqn:Hread.
  { destruct e; discriminate. }
  destruct (negb _); [discriminate|].
  destruct (fit_transform W _) as [e|m] eqn:Hfit.
  { destruct e; discriminate. }
  intros _. exists file, cols, rs, m. auto.
Qed.

(** C8, as stated, fails for a file that has the [rating] column and a
    row without the cell: [_ensure_columns] tests the column, not the
    cell, and the cell stays missing. *)
Lemma defaults_not_per_record :
  is_loaded (init Demo.world "gaps.csv") = true
  /\ df (init Demo.world "gaps.csv")
     = Some (prepare (Frame.of_csv (fst Demo.gaps_csv) (snd Demo.gaps_csv)))
  /\ ~ defaults_per_record (fst Demo.gaps_csv) (snd Demo.gaps_csv).
Proof.
  split; [reflexivity|]. split; [reflexivity|].
  intros H.
  specialize (H (Demo.raw_row 2 "Jumanji (1995)" "Action")
                (prepare_row (Frame.of_csv (fst Demo.gaps_csv) (snd Demo.gaps_csv))
                             (Demo.raw_row 2 "Jumanji (1995)" "Action"))).
  destruct H as [H _].
  - simpl. auto.
  - simpl. auto.
  - reflexivity.
  - specialize (H (or_intror eq_refl)). discriminate H.
Qed.

Lemma prepare_row_In (raw : DataFrame) (r : Row) :
  In r (map snd (rows (prepare raw))) ->
  exists r1, r = prepare_row raw r1.
Proof.
  rewrite prepare_rows, map_map. simpl. rewrite in_map_iff.
  intros ([i r1] & <- & _). now exists r1.
Qed.

Lemma has_col_false_iff (d : DataFrame) (c : string) :
  Frame.has_col d c = false <-> ~ In c (columns d).
Proof.
  rewrite <- has_col_In. destruct (Frame.has_col d c); split; intros H;
    solve [congruence | discriminate | now elim H].
Qed.

Lemma Forall2_map_fst_snd {A B} (R : nat -> B -> Prop) (g : A -> B)
      (S : list (nat * A)) :
  Forall (fun s => R (fst s) (g (snd s))) S ->
  Forall2 R (map fst S) (map g (map snd S)).
Proof.
  induction 1; simpl; constructor; trivial.
Qed.

Lemma map_fst_sorted {A} (l : list (nat * A)) :
  StronglySorted (fun a b => (fst a < fst b)%nat) l ->
  StronglySorted lt (map fst l).
Proof.
  induction 1 as [|a l Hs IH Ha]; simpl; constructor; trivial.
  rewrite Forall_forall in *. intros x Hx.
  apply in_map_iff in Hx as (y & <- & Hy). now apply Ha.
Qed.

(** C8, as amended. The defaults go by column. When the file has no
    [rating] column, every record of the loaded catalog has the rating
    7.0; likewise 1000 for [vote_count] and 50.0 for [popularity]. When
    the file has the column, every record keeps the cell of the row of
    the file it comes from, be it missing. *)
Theorem defaults_for_absent_columns (W : World) (csv_path : string) :
  is_loaded (init W csv_path) = true ->
  exists file cols rs d,
    find (path_exists W) (files_to_try csv_path) = Some file
    /\ read_csv W file = inr (cols, rs)
    /\ df (init W csv_path) = Some d
    /\ (forall r, In r (map snd (rows d)) ->
          (~ In "rating" cols -> rating r = Some 7%Q)
          /\ (~ In "vote_count" cols -> vote_count r = Some 1000%Z)
          /\ (~ In "popularity" cols -> popularity r = Some 50%Q))
    /\ exists positions,
         StronglySorted lt positions
         /\ (forall p, In p positions <-> kept_position rs p)
         /\ Forall2 (fun p r =>
                       exists r0,
                         nth_error rs p = Some r0
                         /\ title r = title r0
                         /\ (In "rating" cols -> rating r = rating r0)
                         /\ (In "vote_count" cols ->
                             vote_count r = vote_count r0)
                         /\ (In "popularity" cols ->
                             popularity r = popularity r0))
                    positions (map snd (rows d)).
Proof.
  intros Hl. destruct (init_loaded W csv_path Hl) as (file & cols & rs & m & Hf & Hr & _ & Hi).
  set (raw := Frame.of_csv cols rs) in *.
  exists file, cols, rs, (prepare raw).
  rewrite Hi. cbn [df]. do 3 (split; [trivial|]). split.
  { intros r H. repeat split.
    all: intros Hc; apply prepare_row_In in H as (r1 & ->);
      apply (has_col_false_iff raw) in Hc;
      unfold prepare_row, ensure_row, set_genre_list, set_genres_processed;
      cbn [rating vote_count popularity]; rewrite Hc; reflexivity. }
  exists (map fst (survivors raw)). split.
  { apply map_fst_sorted, survivors_sorted. }
  split.
  { intros p. apply survivors_kept. }
  replace (map snd (rows (prepare raw)))
    with (map (prepare_row raw) (map snd (survivors raw))).
  2:{ rewrite prepare_rows, <- clean_data_snd, !map_map. reflexivity. }
  apply Forall2_map_fst_snd. rewrite Forall_forall. intros [p r] Hin.
  cbn [fst snd]. exists r. split.
  { unfold survivors in Hin. simpl in Hin.
    apply dedup_titles_incl, filter_In in Hin as [Hin _].
    now apply (of_csv_In cols). }
  split; [reflexivity|].
  repeat split; intros Hc; apply (has_col_In raw) in Hc;
    unfold prepare_row, ensure_row, set_genre_list, set_genres_processed;
    cbn [rating vote_count popularity]; rewrite Hc; reflexivity.
Qed.

(** C9. The loaded catalog is made of the rows of the file that have a
    title and a genre string, the first row of each title only, in the
    order of the file; the titles are distinct and the labels are
    [0 .. N-1]. *)
Theorem load_cleans_catalog (W : World) (csv_path : string) :
  is_loaded (init W csv_path) = true ->
  exists file cols rs d,
    find (path_exists W) (files_to_try csv_path) = Some file
    /\ read_csv W file = inr (cols, rs)
    /\ df (init W csv_path) = Some d
    /\ map fst (rows d) = seq 0 (List.length (rows d))
    /\ NoDup (map row_title (rows d))
    /\ exists positions,
         StronglySorted lt positions
         /\ (forall p, In p positions <-> kept_position rs p)
         /\ Forall2 (fun p r =>
                       exists r0, nth_error rs p = Some r0
                                  /\ movieId r = movieId r0
                                  /\ title r = title r0
                                  /\ genres r = genres r0)
                    positions (map snd (rows d)).
Proof.
  intros Hl. destruct (init_loaded W csv_path Hl) as (file & cols & rs & m & Hf & Hr & _ & Hi).
  set (raw := Frame.of_csv cols rs) in *.
  exists file, cols, rs, (prepare raw). rewrite Hi. cbn [df].
  split; trivial. split; trivial. split; trivial. split.
  { rewrite prepare_labels, prepare_length. apply clean_data_labels. }
  split.
  { unfold row_title. rewrite prepare_titles. apply clean_data_titles_NoDup. }
  exists (map fst (survivors raw)). split.
  { apply map_fst_sorted, survivors_sorted. }
  split.
  { intros p. apply survivors_kept. }
  replace (map snd (rows (prepare raw)))
    with (map (prepare_row raw) (map snd (survivors raw))).
  2:{ rewrite prepare_rows, <- clean_data_snd, !map_map. reflexivity. }
  apply Forall2_map_fst_snd. rewrite Forall_forall. intros [p r] Hin. simpl.
  exists r. split; [|now repeat split].
  unfold survivors in Hin. simpl in Hin.
  apply dedup_titles_incl, filter_In in Hin as [Hin _].
  now apply (of_csv_In cols).
Qed.

(* ------------------------------------------------------------------ *)
(** ** The title resolver *)

Lemma find_first {A} (f : A -> bool) (l : list A) (x : A) :
  find f l = Some x ->
  exists l1 l2, l = l1 ++ x :: l2 /\ f x = true
                /\ Forall (fun y => f y = false) l1.
Proof.
  induction l as [|a l IH]; simpl; [discriminate|].
  destruct (f a) eqn:Ha.
  - intros [= ->]. exists [], l. auto.
  - intros H. destruct (IH H) as (l1 & l2 & -> & Hx & Hl1).
    exists (a :: l1), l2. auto.
Qed.

Lemma find_none_Forall {A} (f : A -> bool) (l : list A) :
  find f l = None -> Forall (fun y => f y = false) l.
Proof.
  intros H. rewrite Forall_forall. intros x Hx.
  exact (find_none f l H x Hx).
Qed.

Lemma first_label_Some (p : Row -> bool) (d : DataFrame) (i : nat) :
  Frame.first_label p d = Some i -> first_match p d i.
Proof.
  unfold Frame.first_label.
  destruct (find _ _) as [[j r]|] eqn:Hf; [|discriminate].
  intros [= <-]. apply find_first in Hf as (l1 & l2 & Hl & Hp & Hb).
  exists l1, r, l2. auto.
Qed.

Lemma first_label_None (p : Row -> bool) (d : DataFrame) :
  Frame.first_label p d = None -> no_match p d.
Proof.
  unfold Frame.first_label.
  destruct (find _ _) eqn:Hf; [discriminate|].
  intros _. now apply find_none_Forall in Hf.
Qed.

Lemma first_match_first_label (p : Row -> bool) (d : DataFrame) (i : nat) :
  first_match p d i -> Frame.first_label p d = Some i.
Proof.
  intros (l1 & r & l2 & Hl & Hp & Hb). unfold Frame.first_label. rewrite Hl.
  clear Hl. induction Hb as [|a l1 Ha Hb IH]; simpl.
  - now rewrite Hp.
  - now rewrite Ha.
Qed.

(** C5, as amended. On a loaded catalog [find_movie] never raises. The
    query is put in lower case and trimmed; the answer is the first record
    whose raw title in lower case is the query so made; when there is
    none, the first whose clean title in lower case is; when there is
    none, the first whose clean title in lower case contains it; and
    [None] when there is none. In particular, when the raw title of a
    record is matched, the answer is the first such record, whatever other
    records hold the query as a substring. *)
Theorem find_movie_precedence (self : MovieRecommender) (d : DataFrame)
    (query : string) :
  is_loaded self = true ->
  df self = Some d ->
  exists o,
    find_movie self query = inr o
    /\ resolution d (PyStr.strip (PyStr.lower query)) o
    /\ forall i, first_match (raw_title_is (PyStr.strip (PyStr.lower query))) d i ->
                 o = Some i.
Proof.
  intros Hl Hd. unfold find_movie. rewrite Hl, Hd. simpl.
  set (q := PyStr.strip (PyStr.lower query)).
  fold (raw_title_is q) (clean_title_is q) (clean_title_contains q).
  destruct (Frame.first_label (raw_title_is q) d) as [i|] eqn:H1.
  { exists (Some i). split; [reflexivity|]. split.
    - apply by_raw_title. now apply first_label_Some.
    - intros j Hj. apply first_match_first_label in Hj. congruence. }
  apply first_label_None in H1 as N1.
  assert (Hraw : forall o i, first_match (raw_title_is q) d i -> o = Some i).
  { intros o i Hi. apply first_match_first_label in Hi. congruence. }
  destruct (Frame.first_label (clean_title_is q) d) as [i|] eqn:H2.
  { exists (Some i). split; [reflexivity|]. split; [|apply Hraw].
    apply by_clean_title; trivial. now apply first_label_Some. }
  apply first_label_None in H2 as N2.
  destruct (Frame.first_label (clean_title_contains q) d) as [i|] eqn:H3.
  - exists (Some i). split; [reflexivity|]. split; [|apply Hraw].
    apply by_substring; trivial. now apply first_label_Some.
  - exists None. split; [reflexivity|]. split; [|apply Hraw].
    apply not_found; trivial. now apply first_label_None.
Qed.

(** C5, as stated, fails for a raw title that ends in a blank: the query
    equal to that title is trimmed, the title is not, and nothing is
    found. *)
Lemma find_movie_exact_title_missed :
  is_loaded (init Demo.world "spaces.csv") = true
  /\ find_movie (init Demo.world "spaces.csv") "Heat (1995) " = inr None
  /\ ~ resolves_as_stated (init Demo.world "spaces.csv") "Heat (1995) ".
Proof.
  split; [reflexivity|]. split; [reflexivity|].
  intros (d & o & Hd & Hf & Hr).
  injection Hd as <-. injection Hf as <-.
  inversion Hr as [ | | | Hraw Hclean Hsub].
  unfold no_match in Hraw. rewrite prepare_rows in Hraw.
  apply Forall_inv_tail, Forall_inv in Hraw. discriminate Hraw.
Qed.

(* ------------------------------------------------------------------ *)
(** ** Rounding *)

Section Rounding.
Open Scope Q_scope.

Lemma Qabs_cases (x : Q) :
  (0 <= x /\ Qabs x == x) \/ (x <= 0 /\ Qabs x == - x).
Proof.
  destruct (Qlt_le_dec x 0) as [H | H].
  - right. split; [lra|]. apply Qabs_neg. lra.
  - left. split; trivial. now apply Qabs_pos.
Qed.

Lemma round_half_even_bounds (x : Q) :
  (Qfloor x <= round_half_even x <= Qfloor x + 1)%Z.
Proof.
  unfold round_half_even.
  destruct (Qcompare _ _); try destruct (Z.even _); lia.
Qed.

Lemma round_half_even_mono (x y : Q) :
  x <= y -> (round_half_even x <= round_half_even y)%Z.
Proof.
  intros Hxy. pose proof (Qfloor_resp_le _ _ Hxy) as Hf.
  pose proof (round_half_even_bounds x) as Hx.
  pose proof (round_half_even_bounds y) as Hy.
  destruct (Z.eq_dec (Qfloor x) (Qfloor y)) as [He | Hne]; [|lia].
  clear Hx Hy Hf. unfold round_half_even. rewrite He.
  destruct (Qcompare_spec (x - inject_Z (Qfloor y)) (1 # 2)) as [Ex | Lx | Gx];
    destruct (Qcompare_spec (y - inject_Z (Qfloor y)) (1 # 2)) as [Ey | Ly | Gy];
    try destruct (Z.even (Qfloor y)); try lia; exfalso; lra.
Qed.

Lemma round_half_even_inject (n : Z) : round_half_even (inject_Z n) = n.
Proof.
  unfold round_half_even. rewrite Qfloor_Z.
  destruct (Qcompare_spec (inject_Z n - inject_Z n) (1 # 2)) as [E | L | G];
    trivial; exfalso; lra.
Qed.

Lemma Z_le_Q (a b : Z) : (a <= b)%Z -> inject_Z a <= inject_Z b.
Proof. now rewrite <- Zle_Qle. Qed.

(** The integer [round_half_even u] is as near to [u] as any integer;
    an integer as near as it is a neighbour, and then it is even. *)
Lemma round_half_even_nearest (u : Q) (j : Z) :
  Qabs (inject_Z (round_half_even u) - u) <= Qabs (inject_Z j - u)
  /\ (Qabs (inject_Z j - u) == Qabs (inject_Z (round_half_even u) - u) ->
      j <> round_half_even u ->
      Z.even (round_half_even u) = true
      /\ (j = round_half_even u + 1 \/ j = round_half_even u - 1)%Z).
Proof.
  pose proof (Qfloor_le u) as Hlo. pose proof (Qlt_floor u) as Hhi.
  rewrite inject_Z_plus in Hhi.
  assert (Hj : (j <= Qfloor u - 1)%Z \/ j = Qfloor u \/ j = (Qfloor u + 1)%Z
               \/ (Qfloor u + 2 <= j)%Z) by lia.
  assert (Hjq : inject_Z j <= inject_Z (Qfloor u) - 1
                \/ j = Qfloor u \/ j = (Qfloor u + 1)%Z
                \/ inject_Z (Qfloor u) + 2 <= inject_Z j).
  { destruct Hj as [H | [H | [H | H]]]; auto.
    - left. assert (H' : (j + 1 <= Qfloor u)%Z) by lia.
      apply Z_le_Q in H'. rewrite inject_Z_plus in H'.
      change (inject_Z 1) with 1 in H'. lra.
    - do 3 right. apply Z_le_Q in H. rewrite inject_Z_plus in H. exact H. }
  change (inject_Z 1) with 1 in *. change (inject_Z 2) with 2 in *.
  clear Hj.
  unfold round_half_even.
  destruct (Qcompare_spec (u - inject_Z (Qfloor u)) (1 # 2)) as [E | L | G].
  - destruct (Z.even (Qfloor u)) eqn:Ev.
    + destruct (Qabs_cases (inject_Z (Qfloor u) - u)) as [[Hs1 Ha] | [Hs1 Ha]];
      destruct (Qabs_cases (inject_Z j - u)) as [[Hs2 Hb] | [Hs2 Hb]];
      rewrite Ha, Hb;
      (split; [|intros Heq Hne; split; trivial]);
      destruct Hjq as [Hq | [Hq | [Hq | Hq]]]; subst;
        rewrite ?inject_Z_plus in *; change (inject_Z 1) with 1 in *; try lra; try lia; try congruence.
    + assert (Ev' : Z.even (Qfloor u + 1) = true).
      { rewrite Z.even_add, Ev. reflexivity. }
      rewrite inject_Z_plus.
      destruct (Qabs_cases (inject_Z (Qfloor u) + 1 - u)) as [[Hs1 Ha] | [Hs1 Ha]];
      destruct (Qabs_cases (inject_Z j - u)) as [[Hs2 Hb] | [Hs2 Hb]];
      rewrite Ha, Hb;
      (split; [|intros Heq Hne; split; trivial]);
      destruct Hjq as [Hq | [Hq | [Hq | Hq]]]; subst;
        rewrite ?inject_Z_plus in *; change (inject_Z 1) with 1 in *; try lra; try lia; try congruence.
  - destruct (Qabs_cases (inject_Z (Qfloor u) - u)) as [[Hs1 Ha] | [Hs1 Ha]];
    destruct (Qabs_cases (inject_Z j - u)) as [[Hs2 Hb] | [Hs2 Hb]];
    rewrite Ha, Hb;
    (split; [|intros Heq Hne; exfalso]);
    destruct Hjq as [Hq | [Hq | [Hq | Hq]]]; subst;
      rewrite ?inject_Z_plus in *; change (inject_Z 1) with 1 in *; try lra; try lia; try congruence.
  - rewrite inject_Z_plus.
    destruct (Qabs_cases (inject_Z (Qfloor u) + 1 - u)) as [[Hs1 Ha] | [Hs1 Ha]];
    destruct (Qabs_cases (inject_Z j - u)) as [[Hs2 Hb] | [Hs2 Hb]];
    rewrite Ha, Hb;
    (split; [|intros Heq Hne; exfalso]);
    destruct Hjq as [Hq | [Hq | [Hq | Hq]]]; subst;
      rewrite ?inject_Z_plus in *; change (inject_Z 1) with 1 in *; try lra; try lia; try congruence.
Qed.

End Rounding.

(* ------------------------------------------------------------------ *)
(** ** Floats: rounding to binary64 *)

Section Binary64.
Open Scope Q_scope.
Import Float64.

Lemma pow2_pos (e : Z) : 0 < pow2 e.
Proof. apply Qpower_0_lt. reflexivity. Qed.

Lemma pow2_add (a b : Z) : pow2 (a + b) == pow2 a * pow2 b.
Proof. apply Qpower_plus. discriminate. Qed.

Lemma pow2_le (a b : Z) : (a <= b)%Z -> pow2 a <= pow2 b.
Proof. intros H. apply Qpower_le_compat_l; trivial. discriminate. Qed.

Lemma pow2_lt (a b : Z) : (a < b)%Z -> pow2 a < pow2 b.
Proof. intros H. apply Qpower_lt_compat_l; trivial. reflexivity. Qed.

Lemma pow2_lt_inv (a b : Z) : pow2 a < pow2 b -> (a < b)%Z.
Proof. intros H. eapply Qpower_lt_compat_l_inv; eauto. reflexivity. Qed.

Lemma pow2_Z (n : Z) : (0 <= n)%Z -> pow2 n == inject_Z (2 ^ n).
Proof. intros H. unfold pow2. now rewrite Zpower_Qpower. Qed.

(** A power of two is a multiple of every smaller one. *)
Lemma pow2_multiple (a b : Z) :
  (a <= b)%Z -> pow2 b == inject_Z (2 ^ (b - a)) * pow2 a.
Proof.
  intros H. replace b with ((b - a) + a)%Z at 1 by ring.
  rewrite pow2_add, pow2_Z by lia. reflexivity.
Qed.

Lemma ilog2_spec (x : Q) :
  0 < x -> pow2 (ilog2 x) <= x < pow2 (ilog2 x + 1).
Proof.
  intros Hx. destruct x as [n d]. unfold ilog2. cbn [Qnum Qden].
  assert (Hn : (0 < n)%Z).
  { unfold Qlt in Hx. simpl in Hx. lia. }
  set (a := Z.log2 n). set (b := Z.log2 (Zpos d)).
  destruct (Z.log2_spec n Hn) as [Ha1 Ha2]. fold a in Ha1, Ha2.
  destruct (Z.log2_spec (Zpos d) eq_refl) as [Hb1 Hb2]. fold b in Hb1, Hb2.
  assert (Ha0 : (0 <= a)%Z) by apply Z.log2_nonneg.
  assert (Hb0 : (0 <= b)%Z) by apply Z.log2_nonneg.
  assert (Hd : 0 < inject_Z (Zpos d)) by reflexivity.
  assert (Hxd : n # d == inject_Z n / inject_Z (Zpos d)) by apply Qmake_Qdiv.
  assert (Hup : n # d < pow2 (a - b + 1)).
  { rewrite Hxd. apply Qlt_shift_div_r; trivial.
    apply Qlt_le_trans with (pow2 (a - b + 1) * pow2 b).
    - rewrite <- pow2_add. replace (a - b + 1 + b)%Z with (Z.succ a) by lia.
      rewrite pow2_Z by lia. now rewrite <- Zlt_Qlt.
    - apply Qmult_le_l; [apply pow2_pos|].
      rewrite pow2_Z by lia. now rewrite <- Zle_Qle. }
  assert (Hlo : pow2 (a - b - 1) <= n # d).
  { rewrite Hxd. apply Qle_shift_div_l; trivial.
    apply Qle_trans with (pow2 (a - b - 1) * pow2 (b + 1)).
    - apply Qmult_le_l; [apply pow2_pos|].
      rewrite pow2_Z by lia. replace (b + 1)%Z with (Z.succ b) by lia.
      rewrite <- Zle_Qle. lia.
    - rewrite <- pow2_add. replace (a - b - 1 + (b + 1))%Z with a by lia.
      rewrite pow2_Z by lia. now rewrite <- Zle_Qle. }
  destruct (Qle_bool (pow2 (a - b)) (n # d)) eqn:E.
  - apply Qle_bool_iff in E. split; trivial.
  - split; trivial. replace (a - b - 1 + 1)%Z with (a - b)%Z by lia.
    apply Qnot_le_lt. intros H. apply Qle_bool_iff in H. congruence.
Qed.

Lemma ilog2_mono (x y : Q) : 0 < x -> x <= y -> (ilog2 x <= ilog2 y)%Z.
Proof.
  intros Hx Hxy. destruct (ilog2_spec Hx) as [H1 _].
  assert (Hy : 0 < y) by lra. destruct (ilog2_spec Hy) as [_ H2].
  assert (H : pow2 (ilog2 x) < pow2 (ilog2 y + 1)) by lra.
  apply pow2_lt_inv in H. lia.
Qed.

Lemma ulp_exponent_mono (x y : Q) :
  0 < Qabs x -> Qabs x <= Qabs y -> (ulp_exponent x <= ulp_exponent y)%Z.
Proof.
  intros Hx Hxy. unfold ulp_exponent.
  pose proof (ilog2_mono Hx Hxy). lia.
Qed.

(** [round_at e x] is a multiple of [2^e], on the same side as [x] of
    every multiple of [2^e]. *)
Lemma round_at_le (e : Z) (x : Q) (j : Z) :
  x <= inject_Z j * pow2 e -> round_at e x <= inject_Z j * pow2 e.
Proof.
  intros H. unfold round_at. apply Qmult_le_r; [apply pow2_pos|].
  rewrite <- Zle_Qle. rewrite <- (round_half_even_inject j) at 1.
  apply round_half_even_mono. apply Qle_shift_div_r; [apply pow2_pos|exact H].
Qed.

Lemma round_at_ge (e : Z) (x : Q) (j : Z) :
  inject_Z j * pow2 e <= x -> inject_Z j * pow2 e <= round_at e x.
Proof.
  intros H. unfold round_at. apply Qmult_le_r; [apply pow2_pos|].
  rewrite <- Zle_Qle. rewrite <- (round_half_even_inject j) at 1.
  apply round_half_even_mono. apply Qle_shift_div_l; [apply pow2_pos|exact H].
Qed.

Lemma round_at_mono (e : Z) (x y : Q) :
  x <= y -> round_at e x <= round_at e y.
Proof.
  intros H. unfold round_at. apply Qmult_le_r; [apply pow2_pos|].
  rewrite <- Zle_Qle. apply round_half_even_mono.
  apply Qmult_le_r; [apply Qinv_lt_0_compat, pow2_pos|exact H].
Qed.


Lemma ulp_exponent_spec (x : Q) :
  ~ x == 0 ->
  let l := ilog2 (Qabs x) in
  pow2 l <= Qabs x < pow2 (l + 1)
  /\ ulp_exponent x = Z.max (l - 52) (-1074).
Proof.
  intros Hx l. split; [|reflexivity]. apply ilog2_spec.
  destruct (Qabs_cases x) as [[H E] | [H E]]; rewrite E; lra.
Qed.

(** Rounding to the exponent of the argument is monotone. *)
Lemma round_mono (x y : Q) :
  x <= y -> round_at (ulp_exponent x) x <= round_at (ulp_exponent y) y.
Proof.
  intros Hxy.
  assert (Hzero : forall e, 0 == inject_Z 0 * pow2 e) by (intros e; ring).
  destruct (Qlt_le_dec 0 x) as [Hx | Hx].
  - (* 0 < x <= y *)
    assert (Hy : 0 < y) by lra.
    destruct (@ulp_exponent_spec x) as [[Hx1 Hx2] Ex]; [lra|].
    destruct (@ulp_exponent_spec y) as [[Hy1 Hy2] Ey]; [lra|].
    assert (Eax : Qabs x == x) by (apply Qabs_pos; lra).
    assert (Eay : Qabs y == y) by (apply Qabs_pos; lra).
    assert (Hl : (ilog2 (Qabs x) <= ilog2 (Qabs y))%Z).
    { apply ilog2_mono; lra. }
    set (lx := ilog2 (Qabs x)) in *. set (ly := ilog2 (Qabs y)) in *.
    destruct (Z.eq_dec (ulp_exponent x) (ulp_exponent y)) as [E | E].
    { rewrite E. now apply round_at_mono. }
    assert (Hlt : (lx < ly)%Z) by lia.
    apply Qle_trans with (pow2 ly).
    + rewrite (@pow2_multiple (ulp_exponent x) ly) by lia.
      apply round_at_le. rewrite <- pow2_multiple by lia.
      apply Qle_trans with (pow2 (lx + 1)); [lra|]. apply pow2_le. lia.
    + rewrite (@pow2_multiple (ulp_exponent y) ly) by lia.
      apply round_at_ge. rewrite <- pow2_multiple by lia. lra.
  - destruct (Qlt_le_dec y 0) as [Hy | Hy].
    + (* x <= y < 0 *)
      destruct (@ulp_exponent_spec x) as [[Hx1 Hx2] Ex]; [lra|].
      destruct (@ulp_exponent_spec y) as [[Hy1 Hy2] Ey]; [lra|].
      assert (Eax : Qabs x == - x) by (apply Qabs_neg; lra).
      assert (Eay : Qabs y == - y) by (apply Qabs_neg; lra).
      assert (Hl : (ilog2 (Qabs y) <= ilog2 (Qabs x))%Z).
      { apply ilog2_mono; lra. }
      set (lx := ilog2 (Qabs x)) in *. set (ly := ilog2 (Qabs y)) in *.
      destruct (Z.eq_dec (ulp_exponent x) (ulp_exponent y)) as [E | E].
      { rewrite E. now apply round_at_mono. }
      assert (Hlt : (ly < lx)%Z) by lia.
      assert (Hneg : forall a b, (a <= b)%Z ->
                - pow2 b == inject_Z (- 2 ^ (b - a)) * pow2 a).
      { intros a b Hab. rewrite inject_Z_opp, (@pow2_multiple a b Hab). ring. }
      apply Qle_trans with (- pow2 lx).
      * rewrite (@Hneg (ulp_exponent x) lx) by lia.
        apply round_at_le. rewrite <- Hneg by lia. lra.
      * rewrite (@Hneg (ulp_exponent y) lx) by lia.
        apply round_at_ge. rewrite <- Hneg by lia.
        assert (pow2 (ly + 1) <= pow2 lx) by (apply pow2_le; lia). lra.
    + (* x <= 0 <= y *)
      apply Qle_trans with 0.
      * rewrite (Hzero (ulp_exponent x)). apply round_at_le.
        now rewrite <- Hzero.
      * rewrite (Hzero (ulp_exponent y)). apply round_at_ge.
        now rewrite <- Hzero.
Qed.

Lemma float_le_top (a : float) : float_le a (Infinity false).
Proof. destruct a as [x|[]]; exact I. Qed.

Lemma float_le_bottom (a : float) : float_le (Infinity true) a.
Proof. exact I. Qed.

Lemma float_le_refl (a : float) : float_le a a.
Proof. destruct a as [x|[]]; simpl; trivial. apply Qle_refl. Qed.

Lemma float_le_trans (a b c : float) :
  float_le a b -> float_le b c -> float_le a c.
Proof.
  destruct a as [x|[]], b as [y|[]], c as [z|[]]; simpl; try tauto.
  apply Qle_trans.
Qed.

(** What [fl64] returns: the rounded value when it is below [2^1024]. *)
Lemma fl64_cases (x : Q) :
  let r := round_at (ulp_exponent x) x in
  (exists y, fl64 x = Finite y /\ y == r /\ Qabs r < pow2 1024)
  \/ (fl64 x = Infinity false /\ pow2 1024 <= r)
  \/ (fl64 x = Infinity true /\ r <= - pow2 1024).
Proof.
  intros r. unfold fl64. fold r.
  pose proof (Qred_correct r) as Hr.
  pose proof (pow2_pos 1024) as Hp.
  destruct (Qle_bool (pow2 1024) (Qabs (Qred r))) eqn:E.
  - apply Qle_bool_iff in E. rewrite Hr in E. right.
    destruct (Qle_bool 0 (Qred r)) eqn:E0.
    + apply Qle_bool_iff in E0. rewrite Hr in E0. left. split; trivial.
      now rewrite Qabs_pos in E.
    + right. split; trivial.
      assert (H0 : ~ 0 <= r).
      { intros H. rewrite <- Hr in H. apply Qle_bool_iff in H. congruence. }
      rewrite Qabs_neg in E by lra. lra.
  - left. exists (Qred r). split; trivial. split; trivial.
    apply Qnot_le_lt. intros H. rewrite <- Hr in H at 1.
    apply Qle_bool_iff in H. congruence.
Qed.

Lemma fl64_mono (x y : Q) : x <= y -> float_le (fl64 x) (fl64 y).
Proof.
  intros Hxy. pose proof (round_mono Hxy) as Hr.
  pose proof (pow2_pos 1024) as Hp.
  destruct (fl64_cases x) as [(a & -> & Ea & Ha) | [[-> Ha] | [-> Ha]]];
    destruct (fl64_cases y) as [(b & -> & Eb & Hb) | [[-> Hb] | [-> Hb]]];
    simpl; trivial.
  - rewrite Ea, Eb. exact Hr.
  - apply Qabs_Qlt_condition in Ha. lra.
  - apply Qabs_Qlt_condition in Hb. lra.
  - lra.
Qed.

Lemma py_round1_mono (a b : float) :
  float_le a b -> float_le (py_round1 a) (py_round1 b).
Proof.
  destruct a as [x|[]], b as [y|[]]; simpl; try tauto.
  - intros H. apply fl64_mono.
    assert (H10 : x * 10 <= y * 10) by lra.
    apply round_half_even_mono in H10. rewrite Zle_Qle in H10.
    unfold Qdiv. change (/ 10) with (1 # 10). lra.
  - intros _. apply float_le_top.
Qed.


Lemma round_half_even_comp (x y : Q) :
  x == y -> round_half_even x = round_half_even y.
Proof.
  intros E. unfold round_half_even. rewrite (Qfloor_comp _ _ E).
  assert (H : Qcompare (x - inject_Z (Qfloor y)) (1 # 2)
              = Qcompare (y - inject_Z (Qfloor y)) (1 # 2)).
  { apply Qcompare_comp; [|reflexivity]. now rewrite E. }
  now rewrite H.
Qed.

Lemma Qabs_scale (a q : Q) : 0 < q -> Qabs (a * q) == Qabs a * q.
Proof.
  intros Hq. rewrite Qabs_Qmult, (Qabs_pos q) by lra. reflexivity.
Qed.

(** Of the multiples of [2^e], [round_at e x] is nearest to [x]; a
    multiple as near is a neighbour, and [round_at e x] is then the even
    one. *)
Lemma round_at_nearest (e : Z) (x : Q) (j : Z) :
  Qabs (round_at e x - x) <= Qabs (inject_Z j * pow2 e - x)
  /\ (Qabs (inject_Z j * pow2 e - x) == Qabs (round_at e x - x) ->
      ~ inject_Z j * pow2 e == round_at e x ->
      exists h : Z,
        round_at e x == inject_Z (2 * h) * (inject_Z j * pow2 e - round_at e x)).
Proof.
  pose proof (pow2_pos e) as Hq. set (q := pow2 e) in *.
  set (u := x / q). unfold round_at. fold q. fold u.
  set (k := round_half_even u).
  assert (Hd : forall a : Z, inject_Z a * q - x == (inject_Z a - u) * q).
  { intros a. unfold u. field. lra. }
  rewrite !Hd, !Qabs_scale by trivial.
  destruct (round_half_even_nearest u j) as [Hn Ht]. fold k in Hn, Ht.
  split.
  - apply Qmult_le_r; trivial.
  - intros Heq Hne.
    assert (Heq' : Qabs (inject_Z j - u) == Qabs (inject_Z k - u)).
    { apply Qmult_inj_r with q; [lra|exact Heq]. }
    assert (Hne' : j <> k) by (intros ->; apply Hne; reflexivity).
    destruct (Ht Heq' Hne') as [Hev Hjk].
    apply Z.even_spec in Hev as [h Hh].
    destruct Hjk as [-> | ->].
    + exists h. rewrite Hh, inject_Z_plus. change (inject_Z 1) with 1.
      rewrite <- Hh. ring_simplify. rewrite Hh. reflexivity.
    + exists (- h)%Z.
      replace (k - 1)%Z with (k + -1)%Z by ring.
      rewrite inject_Z_plus. change (inject_Z (-1)) with (-1).
      replace (2 * - h)%Z with (- k)%Z by lia. rewrite inject_Z_opp. ring.
Qed.


Lemma round_half_even_zero : round_half_even 0 = 0%Z.
Proof. reflexivity. Qed.

Lemma round_at_zero (e : Z) (x : Q) : x == 0 -> round_at e x == 0.
Proof.
  intros E. unfold round_at.
  assert (H : x / pow2 e == 0) by (rewrite E; unfold Qdiv; ring).
  rewrite (round_half_even_comp H), round_half_even_zero. ring.
Qed.

(** The rounded value has a significand of at most 53 bits. *)
Lemma round_at_significand (x : Q) :
  ~ x == 0 ->
  (Z.abs (round_half_even (x / pow2 (ulp_exponent x))) <= 2 ^ 53)%Z.
Proof.
  intros Hx. destruct (ulp_exponent_spec Hx) as [[H1 H2] E].
  set (l := ilog2 (Qabs x)) in *. set (ex := ulp_exponent x) in *.
  pose proof (pow2_pos ex) as Hq.
  assert (Hb : pow2 (l + 1) <= inject_Z (2 ^ 53) * pow2 ex).
  { rewrite <- pow2_Z, <- pow2_add by lia. apply pow2_le. lia. }
  assert (Hup : round_at ex x <= inject_Z (2 ^ 53) * pow2 ex).
  { apply round_at_le. destruct (Qabs_cases x) as [[? Ea] | [? Ea]]; lra. }
  assert (Hlo : inject_Z (- 2 ^ 53) * pow2 ex <= round_at ex x).
  { apply round_at_ge. rewrite inject_Z_opp.
    destruct (Qabs_cases x) as [[? Ea] | [? Ea]]; lra. }
  unfold round_at in Hup, Hlo.
  apply Qmult_le_r in Hup, Hlo; trivial.
  rewrite <- Zle_Qle in Hup, Hlo. lia.
Qed.

Lemma Qabs_inject_Z (m : Z) : Qabs (inject_Z m) = inject_Z (Z.abs m).
Proof. reflexivity. Qed.

(** A double is a multiple of the unit in the last place of [x], or is
    smaller than the power of two at or below [|x|]. *)
Lemma binary64_multiple_or_small (x z : Q) :
  binary64 z ->
  (exists j : Z, z == inject_Z j * pow2 (ulp_exponent x))
  \/ (Qabs z < pow2 (ilog2 (Qabs x))
      /\ ulp_exponent x = (ilog2 (Qabs x) - 52)%Z).
Proof.
  intros (m & f & Hm & Hf & Ez & _). fold (pow2 f) in Ez.
  set (l := ilog2 (Qabs x)). set (ex := ulp_exponent x).
  assert (E : ex = Z.max (l - 52) (-1074)) by reflexivity.
  destruct (Z_le_gt_dec ex f) as [Hle | Hgt].
  - left. exists (m * 2 ^ (f - ex))%Z.
    rewrite Ez, (@pow2_multiple ex f Hle), inject_Z_mult. ring.
  - right. split; [|lia].
    rewrite Ez, Qabs_scale, Qabs_inject_Z by apply pow2_pos.
    apply Qlt_le_trans with (inject_Z (2 ^ 53) * pow2 f).
    + apply Qmult_lt_r; [apply pow2_pos|]. now rewrite <- Zlt_Qlt.
    + rewrite <- pow2_Z, <- pow2_add by lia. apply pow2_le. lia.
Qed.

(** [fl64] rounds to the nearest double, a tie going to the even one. *)
Theorem fl64_nearest (x y : Q) : fl64 x = Finite y -> nearest_binary64 x y.
Proof.
  intros Hfl.
  destruct (fl64_cases x) as [(y' & Hy' & Ey & Hr) | [[H _] | [H _]]];
    try congruence.
  rewrite Hfl in Hy'. injection Hy' as <-.
  set (ex := ulp_exponent x) in *. set (r := round_at ex x) in *.
  pose proof (pow2_pos ex) as Hq.
  assert (Hbin : binary64 y).
  { destruct (Qeq_dec x 0) as [Hx | Hx].
    - exists 0%Z, 0%Z. repeat split; try lia.
      + rewrite Ey. unfold r. rewrite (round_at_zero ex Hx). reflexivity.
      + rewrite Ey. exact Hr.
    - pose proof (round_at_significand Hx) as Hk. fold ex in Hk.
      set (k := round_half_even (x / pow2 ex)) in *.
      assert (Er : r == inject_Z k * pow2 ex) by reflexivity.
      assert (Hnext : pow2 (ex + 1) == 2 * pow2 ex).
      { rewrite pow2_add. change (pow2 1) with 2. ring. }
      change (2 ^ 53)%Z with 9007199254740992%Z in *.
      destruct (Z.eq_dec k 9007199254740992) as [Ek | Ek];
        [|destruct (Z.eq_dec k (-9007199254740992)) as [Ek' | Ek']].
      + exists 4503599627370496%Z, (ex + 1)%Z. unfold ex at 1.
        repeat split; try (unfold ulp_exponent; lia).
        * fold (pow2 (ex + 1)). rewrite Ey, Er, Hnext, Ek.
          change (inject_Z 9007199254740992) with (2 * inject_Z 4503599627370496).
          ring.
        * rewrite Ey. exact Hr.
      + exists (-4503599627370496)%Z, (ex + 1)%Z.
        repeat split; try (unfold ex, ulp_exponent; lia).
        * fold (pow2 (ex + 1)). rewrite Ey, Er, Hnext, Ek'.
          change (inject_Z (-9007199254740992))
            with (2 * inject_Z (-4503599627370496)).
          ring.
        * rewrite Ey. exact Hr.
      + exists k, ex. repeat split; try (unfold ex, ulp_exponent; lia).
        * rewrite Ey. exact Er.
        * rewrite Ey. exact Hr. }
  split; trivial.
  intros z Hz.
  destruct (Qeq_dec x 0) as [Hx | Hx].
  { assert (Ey0 : y == 0).
    { rewrite Ey. unfold r. now apply round_at_zero. }
    split.
    - rewrite Ey0, Hx. change (Qabs (0 - 0)) with 0. apply Qabs_nonneg.
    - intros Heq Hne. exfalso. apply Hne. rewrite Ey0.
      rewrite Ey0, Hx in Heq. change (Qabs (0 - 0)) with 0 in Heq.
      destruct (Qabs_cases (z - 0)) as [[? Ea] | [? Ea]]; lra. }
  destruct (@binary64_multiple_or_small x z Hz) as [(j & Ej) | [Hsmall Eex]].
  - fold ex in Ej.
    destruct (round_at_nearest ex x j) as [Hn Ht]. fold r in Hn, Ht.
    split.
    + rewrite Ey, Ej. exact Hn.
    + intros Heq Hne. rewrite Ey, Ej in Heq. rewrite Ey, Ej in Hne.
      destruct (Ht Heq Hne) as (h & Hh). exists h.
      rewrite Ey, Ej. exact Hh.
  - fold ex in Eex.
    destruct (ulp_exponent_spec Hx) as [[H1 H2] _].
    set (l := ilog2 (Qabs x)) in *.
    assert (Hl : pow2 l == inject_Z (2 ^ 52) * pow2 ex).
    { rewrite (@pow2_multiple ex l) by lia. replace (l - ex)%Z with 52%Z by lia.
      reflexivity. }
    assert (Hstrict : Qabs (y - x) < Qabs (z - x)).
    { rewrite Ey. destruct (Qabs_cases x) as [[Hs Ea] | [Hs Ea]].
      - destruct (round_at_nearest ex x (2 ^ 52)) as [Hn _].
        fold r in Hn. rewrite <- Hl in Hn.
        destruct (Qabs_cases (pow2 l - x)) as [[? Eb] | [? Eb]];
        destruct (Qabs_cases (z - x)) as [[? Ec] | [? Ec]];
        destruct (Qabs_cases z) as [[? Ed] | [? Ed]]; lra.
      - destruct (round_at_nearest ex x (- 2 ^ 52)) as [Hn _].
        fold r in Hn. rewrite inject_Z_opp in Hn.
        assert (Hl' : - inject_Z (2 ^ 52) * pow2 ex == - pow2 l)
          by (rewrite Hl; ring).
        rewrite Hl' in Hn.
        destruct (Qabs_cases (- pow2 l - x)) as [[? Eb] | [? Eb]];
        destruct (Qabs_cases (z - x)) as [[? Ec] | [? Ec]];
        destruct (Qabs_cases z) as [[? Ed] | [? Ed]]; lra. }
    split; [lra|]. intros Heq. exfalso. lra.
Qed.

(** [round_half_even (x * 10)] tenths is the decimal with one digit
    nearest to [x]. *)
Lemma round_half_even_tenth (x : Q) : nearest_tenth x (round_half_even (x * 10)).
Proof.
  set (t := round_half_even (x * 10)).
  assert (Hd : inject_Z t / 10 - x == (inject_Z t - x * 10) * (1 # 10))
    by (field).
  unfold nearest_tenth. rewrite Hd, Qabs_scale by reflexivity.
  destruct (round_half_even_nearest (x * 10) (Qfloor (x * 10))) as [H1 T1].
  destruct (round_half_even_nearest (x * 10) (Qfloor (x * 10) + 1)) as [H2 T2].
  fold t in H1, H2, T1, T2.
  pose proof (Qfloor_le (x * 10)) as Hlo. pose proof (Qlt_floor (x * 10)) as Hhi.
  rewrite inject_Z_plus in *. change (inject_Z 1) with 1 in *.
  pose proof (round_half_even_bounds (x * 10)) as Hb. fold t in Hb.
  destruct (Qabs_cases (inject_Z (Qfloor (x * 10)) - x * 10)) as [[? Ea] | [? Ea]];
  destruct (Qabs_cases (inject_Z (Qfloor (x * 10)) + 1 - x * 10)) as [[? Eb] | [? Eb]];
  try lra.
  split; [lra|].
  intros Heq.
  assert (Ht : (t = Qfloor (x * 10) \/ t = Qfloor (x * 10) + 1)%Z) by lia.
  clearbody t. clear Hd Hb.
  destruct Ht as [-> | ->].
  - apply T2; [|lia]. lra.
  - rewrite inject_Z_plus in *. change (inject_Z 1) with 1 in *.
    apply T1; [|lia]. lra.
Qed.

End Binary64.

(* ------------------------------------------------------------------ *)
(** ** The score of a cosine *)

Section Scores.

Open Scope Q_scope.

Lemma fl64_0 : fl64 0 = Finite 0.
Proof. vm_compute. reflexivity. Qed.

Lemma fl64_100 : fl64 100 = Finite 100.
Proof. vm_compute. reflexivity. Qed.

(** A number between two numbers that round to doubles rounds to a
    double between these. *)
Lemma fl64_between (lo hi lo' hi' x : Q) :
  fl64 lo = Finite lo' -> fl64 hi = Finite hi' -> lo <= x <= hi ->
  exists y, fl64 x = Finite y /\ lo' <= y <= hi' /\ nearest_binary64 x y.
Proof.
  intros Hlo Hhi [H1 H2].
  pose proof (fl64_mono H1) as L. pose proof (fl64_mono H2) as U.
  rewrite Hlo in L. rewrite Hhi in U.
  destruct (fl64 x) as [y|[]] eqn:E; simpl in L, U; try contradiction.
  exists y. split; [reflexivity|]. split; [split; assumption|].
  now apply fl64_nearest.
Qed.

(** The score [round(float(c) * 100, 1)] is monotone in the cosine. *)
Lemma score_mono (c c' : Q) :
  c <= c' ->
  float_le (py_round1 (float_mul c 100)) (py_round1 (float_mul c' 100)).
Proof.
  intros H. apply py_round1_mono, fl64_mono. lra.
Qed.

(** The score of a cosine between 0 and 1.0004: the double product, the
    nearest tenth, the double for it; it lies in [[0, 100]]. *)
Lemma score_spec (c : Q) :
  0 <= c <= 10004 # 10000 ->
  exists x t s,
    nearest_binary64 (c * 100) x
    /\ nearest_tenth x t
    /\ nearest_binary64 (inject_Z t / 10) s
    /\ py_round1 (float_mul c 100) = Finite s
    /\ 0 <= s <= 100.
Proof.
  intros Hc. unfold float_mul.
  set (top := match fl64 (10004 # 100) with Finite y => y | Infinity _ => 0 end).
  assert (Etop : fl64 (10004 # 100) = Finite top) by (vm_compute; reflexivity).
  assert (Htop : round_half_even (top * 10) = 1000%Z) by (vm_compute; reflexivity).
  destruct (@fl64_between 0 (10004 # 100) 0 top (c * 100) fl64_0 Etop)
    as (x & Ex & Hx & Nx); [lra|].
  clearbody top.
  set (t := round_half_even (x * 10)).
  assert (Ht : (0 <= t <= 1000)%Z).
  { split.
    - change 0%Z with (round_half_even (inject_Z 0)).
      apply round_half_even_mono. change (inject_Z 0) with 0. lra.
    - rewrite <- Htop. apply round_half_even_mono. lra. }
  assert (Htq : 0 <= inject_Z t / 10 <= 100).
  { destruct Ht as [Ht1 Ht2]. rewrite Zle_Qle in Ht1, Ht2.
    change (inject_Z 0) with 0 in Ht1. change (inject_Z 1000) with 1000 in Ht2.
    unfold Qdiv. change (/ 10) with (1 # 10). lra. }
  destruct (@fl64_between 0 100 0 100 (inject_Z t / 10) fl64_0 fl64_100 Htq)
    as (s & Es & Hs & Ns).
  exists x, t, s. rewrite Ex. cbn [py_round1]. fold t.
  split; [exact Nx|]. split; [apply round_half_even_tenth|].
  split; [exact Ns|]. split; [exact Es|exact Hs].
Qed.

End Scores.

(* ------------------------------------------------------------------ *)
(** ** Lists: order, selection, counting *)

Section ListFacts.

Context {A : Type}.

Lemma Forall_rev_intro (P : A -> Prop) (l : list A) :
  Forall P l -> Forall P (rev l).
Proof.
  rewrite !Forall_forall. intros H x Hx. apply H. now apply in_rev.
Qed.

Lemma sorted_app (R : A -> A -> Prop) (l1 l2 : list A) :
  StronglySorted R l1 -> StronglySorted R l2 ->
  (forall x y, In x l1 -> In y l2 -> R x y) ->
  StronglySorted R (l1 ++ l2).
Proof.
  induction 1 as [|a l1 Hs IH Ha]; simpl; intros H2 Hc; trivial.
  constructor.
  - apply IH; trivial. intros x y Hx Hy. apply Hc; simpl; auto.
  - apply Forall_app. split; trivial.
    rewrite Forall_forall. intros y Hy. apply Hc; simpl; auto.
Qed.

(** Reading a sorted list backwards turns the order round. *)
Lemma sorted_rev (R : A -> A -> Prop) (l : list A) :
  StronglySorted R l -> StronglySorted (fun x y => R y x) (rev l).
Proof.
  induction 1 as [|a l Hs IH Ha]; simpl; [constructor|].
  apply sorted_app; trivial.
  - repeat constructor.
  - intros x y Hx [<- | []]. rewrite Forall_forall in Ha.
    apply Ha. now apply in_rev.
Qed.

Lemma firstn_incl (n : nat) (l : list A) (x : A) :
  In x (firstn n l) -> In x l.
Proof.
  revert l. induction n as [|n IH]; intros [|a l]; simpl; try tauto.
  intros [-> | H]; auto.
Qed.

Lemma sorted_firstn (R : A -> A -> Prop) (n : nat) (l : list A) :
  StronglySorted R l -> StronglySorted R (firstn n l).
Proof.
  revert l. induction n as [|n IH]; intros l Hs; [constructor|].
  destruct Hs as [|a l Hs Ha]; simpl; constructor; [now apply IH|].
  rewrite Forall_forall in *. intros x Hx. apply Ha.
  eapply firstn_incl; eauto.
Qed.

Lemma slice_to_incl (k : Z) (l : list A) (x : A) :
  In x (slice_to k l) -> In x l.
Proof.
  unfold slice_to. destruct (0 <=? k)%Z; apply firstn_incl.
Qed.

Lemma slice_to_prefix (k : Z) (l : list A) :
  exists rest, l = slice_to k l ++ rest.
Proof.
  unfold slice_to. destruct (0 <=? k)%Z;
    eexists; symmetry; apply firstn_skipn.
Qed.

Lemma sorted_slice_to (R : A -> A -> Prop) (k : Z) (l : list A) :
  StronglySorted R l -> StronglySorted R (slice_to k l).
Proof.
  unfold slice_to. destruct (0 <=? k)%Z; apply sorted_firstn.
Qed.

Lemma slice_to_length (k : Z) (l : list A) :
  (0 <= k)%Z ->
  List.length (slice_to k l) = Nat.min (Z.to_nat k) (List.length l).
Proof.
  intros Hk. unfold slice_to.
  destruct (0 <=? k)%Z eqn:E; [apply length_firstn | lia].
Qed.

Lemma filter_length_perm (f : A -> bool) (l l' : list A) :
  Permutation l l' ->
  List.length (filter f l) = List.length (filter f l').
Proof.
  induction 1 as [|x l l' Hp IH|x y l|l l' l'' H1 IH1 H2 IH2]; simpl; trivial.
  - destruct (f x); simpl; congruence.
  - destruct (f x), (f y); reflexivity.
  - congruence.
Qed.

(** Order is carried from one list to another along a pointwise relation. *)
Lemma sorted_Forall2 {B} (E : A -> B -> Prop) (R : A -> A -> Prop)
      (S : B -> B -> Prop) (l : list A) (l' : list B) :
  (forall a b a' b', E a a' -> E b b' -> R a b -> S a' b') ->
  Forall2 E l l' -> StronglySorted R l -> StronglySorted S l'.
Proof.
  intros Hc HF. induction HF as [|a a' l l' Ha HF IH]; intros Hs;
    [constructor|].
  apply StronglySorted_inv in Hs as [Hs Hall]. constructor; [now apply IH|].
  clear IH Hs. induction HF as [|b b' l l' Hb HF IH]; constructor.
  - apply (Hc a b); trivial. now apply Forall_inv in Hall.
  - apply IH. now apply Forall_inv_tail in Hall.
Qed.

Lemma Forall2_In_r {B} (E : A -> B -> Prop) (l : list A) (l' : list B) (b : B) :
  Forall2 E l l' -> In b l' -> exists a, In a l /\ E a b.
Proof.
  induction 1 as [|x y l l' Hxy HF IH]; simpl; [tauto|].
  intros [<- | Hb].
  - exists x. auto.
  - destruct (IH Hb) as (a & Ha & He). exists a. auto.
Qed.

Lemma comes_before_cons (a x y : A) (l : list A) :
  comes_before x y l -> comes_before x y (a :: l).
Proof.
  intros (l1 & l2 & l3 & ->). now exists (a :: l1), l2, l3.
Qed.

Lemma comes_before_head (x y : A) (l : list A) :
  In y l -> comes_before x y (x :: l).
Proof.
  intros H. destruct (in_split _ _ H) as (l2 & l3 & ->).
  now exists [], l2, l3.
Qed.

Lemma comes_before_app_l (x y : A) (l r : list A) :
  comes_before x y l -> comes_before x y (l ++ r).
Proof.
  intros (l1 & l2 & l3 & ->). exists l1, l2, (l3 ++ r).
  rewrite <- !app_assoc. simpl. rewrite <- !app_assoc. reflexivity.
Qed.

(** Leaving elements out and reading backwards: the order of two
    elements in the list the result was made from. *)
Lemma comes_before_filter (f : A -> bool) (x y : A) (l : list A) :
  comes_before x y (filter f l) -> comes_before x y l.
Proof.
  induction l as [|a l IH]; simpl.
  - intros (l1 & l2 & l3 & H). now destruct l1.
  - destruct (f a).
    + intros (l1 & l2 & l3 & H). destruct l1 as [|b l1].
      * simpl in H. injection H as -> H. apply comes_before_head.
        assert (Hy : In y (filter f l)) by (rewrite H; apply in_elt).
        now apply filter_In in Hy.
      * simpl in H. injection H as _ H. apply comes_before_cons, IH.
        now exists l1, l2, l3.
    + intros H. now apply comes_before_cons, IH.
Qed.

Lemma comes_before_rev (x y : A) (l : list A) :
  comes_before x y (rev l) -> comes_before y x l.
Proof.
  intros (l1 & l2 & l3 & H). exists (rev l3), (rev l2), (rev l1).
  rewrite <- (rev_involutive l), H.
  rewrite rev_app_distr. simpl. rewrite rev_app_distr. simpl.
  rewrite <- !app_assoc. reflexivity.
Qed.

Lemma Forall2_comes_before {B} (E : A -> B -> Prop) (l : list A) (l' : list B) :
  Forall2 E l l' ->
  forall p q a b,
    (p < q)%nat -> nth_error l' p = Some a -> nth_error l' q = Some b ->
    exists i j, E i a /\ E j b /\ comes_before i j l.
Proof.
  induction 1 as [|x y l l' Hxy HF IH]; intros p q a b Hpq Ha Hb.
  - now destruct p.
  - destruct q as [|q]; [lia|]. simpl in Hb. destruct p as [|p].
    + simpl in Ha. injection Ha as ->.
      apply nth_error_In in Hb.
      destruct (@Forall2_In_r B E l l' b HF Hb) as (j & Hj & Ej).
      exists x, j. repeat split; trivial. now apply comes_before_head.
    + simpl in Ha. destruct (IH p q a b) as (i & j & Ei & Ej & Hc);
        trivial; [lia|].
      exists i, j. repeat split; trivial. now apply comes_before_cons.
Qed.

End ListFacts.

Lemma filter_neq_seq_length (idx n : nat) :
  (idx < n)%nat ->
  List.length (filter (fun i => negb (i =? idx)%nat) (seq 0 n)) = (n - 1)%nat.
Proof.
  intros Hlt.
  replace n with (idx + S (n - S idx))%nat at 1 by lia.
  rewrite seq_app, filter_app, length_app. simpl. rewrite Nat.eqb_refl. simpl.
  assert (H : forall l, Forall (fun i => i <> idx) l ->
                        filter (fun i => negb (i =? idx)%nat) l = l).
  { induction 1 as [|a l Ha Hl IH]; simpl; trivial.
    apply Nat.eqb_neq in Ha. now rewrite Ha, IH. }
  rewrite !H, !length_seq; [lia| |];
    rewrite Forall_forall; intros x Hx; apply in_seq in Hx; lia.
Qed.

(* ------------------------------------------------------------------ *)
(** ** The ranking *)

Section Ranking.

Variable W : World.

Lemma movie_to_dict_fields d row rank similarity m :
  _movie_to_dict d row rank similarity = inr m ->
  movieId row = Some (md_id m)
  /\ md_title m = title row
  /\ md_rank m = rank
  /\ md_similarity_score m
     = option_map (fun s => py_round1 (float_mul s 100)) similarity.
Proof.
  unfold _movie_to_dict, ExcMonad.bind, py_int.
  destruct (movieId row) as [z|]; [|discriminate].
  destruct (row_get d "vote_count" _ _) as [v|]; [|discriminate].
  intros [= <-]. simpl. auto.
Qed.

Lemma movie_to_dict_total d row rank similarity :
  convertible d row ->
  exists m, _movie_to_dict d row rank similarity = inr m.
Proof.
  intros [Hid Hv]. unfold _movie_to_dict, ExcMonad.bind, py_int.
  destruct (movieId row) as [z|]; [|now elim Hid].
  destruct (row_get d "vote_count" _ _) as [v|]; [|now elim Hv].
  eexists. reflexivity.
Qed.

Lemma build_recommendations_entries d scores indices :
  forall rank ms,
    build_recommendations d scores rank indices = inr ms ->
    Forall2 (entry d scores) indices ms.
Proof.
  induction indices as [|i indices IH]; simpl; intros rank ms.
  - intros [= <-]. constructor.
  - unfold ExcMonad.bind at 1.
    destruct (Frame.iloc d i) as [e|row] eqn:Hrow; [discriminate|].
    unfold ExcMonad.bind at 1, array_get.
    destruct (nth_error scores i) as [c|] eqn:Hc; [|discriminate].
    unfold ExcMonad.bind at 1.
    destruct (_movie_to_dict d row (Some rank) (Some c)) as [e|m] eqn:Hm;
      [discriminate|].
    unfold ExcMonad.bind at 1.
    destruct (build_recommendations d scores (S rank) indices) as [e|ms'] eqn:Hb;
      [discriminate|].
    intros [= <-]. constructor; [|now apply (IH (S rank))].
    exists row, c, rank. auto.
Qed.

Lemma build_recommendations_ranks d scores indices :
  forall rank ms,
    build_recommendations d scores rank indices = inr ms ->
    map md_rank ms = map Some (seq rank (List.length indices)).
Proof.
  induction indices as [|i indices IH]; simpl; intros rank ms.
  - intros [= <-]. reflexivity.
  - unfold ExcMonad.bind at 1.
    destruct (Frame.iloc d i) as [e|row]; [discriminate|].
    unfold ExcMonad.bind at 1.
    destruct (array_get scores i) as [e|c]; [discriminate|].
    unfold ExcMonad.bind at 1.
    destruct (_movie_to_dict d row (Some rank) (Some c)) as [e|m] eqn:Hm;
      [discriminate|].
    unfold ExcMonad.bind at 1.
    destruct (build_recommendations d scores (S rank) indices) as [e|ms'] eqn:Hb;
      [discriminate|].
    intros [= <-]. simpl. apply movie_to_dict_fields in Hm as (_ & _ & -> & _).
    f_equal. now apply IH.
Qed.

Lemma build_recommendations_total d scores indices :
  Forall (fun i => exists row, Frame.iloc d i = inr row /\ convertible d row
                               /\ (i < List.length scores)%nat) indices ->
  forall rank, exists ms,
      build_recommendations d scores rank indices = inr ms
      /\ List.length ms = List.length indices.
Proof.
  induction 1 as [|i indices (row & Hrow & Hconv & Hlt) Hall IH];
    intros rank; simpl.
  - exists []. auto.
  - rewrite Hrow. unfold ExcMonad.bind at 1, array_get.
    destruct (nth_error scores i) as [c|] eqn:Hc.
    2:{ apply nth_error_None in Hc. lia. }
    unfold ExcMonad.bind at 1.
    destruct (@movie_to_dict_total d row (Some rank) (Some c) Hconv) as (m & ->).
    unfold ExcMonad.bind at 1.
    destruct (IH (S rank)) as (ms & -> & Hlen).
    exists (m :: ms). simpl. auto.
Qed.

(** What a result of [recommend_at] is made of. *)
Lemma recommend_at_inv d tfidf idx k r :
  recommend_at W d tfidf idx k = inr r ->
  exists m sel_row sel v recs,
    tfidf = Some m
    /\ Frame.iloc d idx = inr sel_row
    /\ _movie_to_dict d sel_row None None = inr sel
    /\ nth_error m idx = Some v
    /\ r = mkResult (Some sel) recs None
    /\ Forall2 (entry d (cosine_similarity W v m))
               (similar_indices W (cosine_similarity W v m) idx k) recs
    /\ map md_rank recs = map Some (seq 1 (List.length recs)).
Proof.
  unfold recommend_at. unfold ExcMonad.bind at 1.
  destruct (Frame.iloc d idx) as [e|sel_row] eqn:H1; [discriminate|].
  unfold ExcMonad.bind at 1.
  destruct (_movie_to_dict d sel_row None None) as [e|sel] eqn:H2;
    [discriminate|].
  unfold ExcMonad.bind at 1.
  destruct tfidf as [m|]; [|discriminate].
  unfold ExcMonad.bind at 1, array_get.
  destruct (nth_error m idx) as [v|] eqn:H3; [|discriminate].
  unfold ExcMonad.bind at 1.
  destruct (build_recommendations _ _ _ _) as [e|recs] eqn:Hb; [discriminate|].
  intros [= <-]. exists m, sel_row, sel, v, recs.
  pose proof (@build_recommendations_entries _ _ _ _ _ Hb) as HF.
  do 6 (split; [trivial|]).
  rewrite (@build_recommendations_ranks _ _ _ _ _ Hb).
  now rewrite (Forall2_length HF).
Qed.

(** A call returns an error result, or the result of [recommend_at] at the
    position the query resolves to. *)
Lemma get_recommendations_inv self movie_id movie_title k r :
  get_recommendations W self movie_id movie_title k = inr r ->
  (exists msg, r = error_result msg)
  \/ exists d idx,
       is_loaded self = true /\ df self = Some d
       /\ recommend_at W d (tfidf_matrix self) idx k = inr r
       /\ match movie_id with
          | Some id => Frame.first_label (id_is id) d = Some idx
          | None => exists t, given movie_title = Some t
                              /\ find_movie self t = inr (Some idx)
          end.
Proof.
  unfold get_recommendations.
  destruct (is_loaded self) eqn:Hl; simpl.
  2:{ intros [= <-]. left. eexists. reflexivity. }
  destruct movie_id as [id|].
  - destruct (df self) as [d|] eqn:Hd; [|discriminate].
    destruct (Frame.first_label (id_is id) d) as [idx|] eqn:Hi.
    + intros Hr. right. exists d, idx. auto.
    + intros [= <-]. left. eexists. reflexivity.
  - destruct (given movie_title) as [t|].
    2:{ intros [= <-]. left. eexists. reflexivity. }
    unfold ExcMonad.bind.
    destruct (find_movie self t) as [e|[idx|]] eqn:Hf; [discriminate| |].
    + destruct (df self) as [d|] eqn:Hd; [|discriminate].
      intros Hr. right. exists d, idx. repeat split; trivial. now exists t.
    + intros [= <-]. left. eexists. reflexivity.
Qed.

Lemma similar_indices_neq scores idx k i :
  In i (similar_indices W scores idx k) -> i <> idx.
Proof.
  unfold similar_indices. intros H. apply slice_to_incl, filter_In in H as [_ H].
  apply negb_true_iff, Nat.eqb_neq in H. exact H.
Qed.

Lemma similar_indices_In scores idx k i :
  In i (similar_indices W scores idx k) -> In i (argsort W scores).
Proof.
  unfold similar_indices. intros H. apply slice_to_incl, filter_In in H as [H _].
  now apply in_rev.
Qed.

Hypothesis W_ok : WorldOk W.

(** The positions of the result go down in score. *)
Lemma similar_indices_descending scores idx k :
  StronglySorted (fun i j => (nth j scores 0 <= nth i scores 0)%Q)
                 (similar_indices W scores idx k).
Proof.
  unfold similar_indices. apply sorted_slice_to, filter_sorted.
  apply (@sorted_rev _ (fun i j => (nth i scores 0 <= nth j scores 0)%Q)).
  apply (argsort_sorted W_ok).
Qed.

Lemma similar_indices_length scores idx k :
  (0 <= k)%Z -> (idx < List.length scores)%nat ->
  List.length (similar_indices W scores idx k)
  = Nat.min (Z.to_nat k) (List.length scores - 1).
Proof.
  intros Hk Hidx. unfold similar_indices. rewrite slice_to_length by trivial.
  f_equal.
  rewrite (filter_length_perm _ (l' := seq 0 (List.length scores))).
  - now apply filter_neq_seq_length.
  - eapply Permutation_trans; [|apply (argsort_perm W_ok)].
    apply Permutation_sym, Permutation_rev.
Qed.

End Ranking.

(* ------------------------------------------------------------------ *)
(** ** The recommendations *)

Lemma entry_score d scores i m :
  entry d scores i m ->
  md_similarity_score m
  = Some (py_round1 (float_mul (nth i scores 0%Q) 100)).
Proof.
  intros (row & c & rank & _ & Hc & Hm).
  apply movie_to_dict_fields in Hm as (_ & _ & _ & ->). simpl.
  now rewrite (nth_error_nth _ _ 0%Q Hc).
Qed.

(** C1, as amended. The recommendations are in descending order of
    similarity score. In a result that is not an error, they are built,
    in this order, from the first positions of the ascending [argsort] of
    the cosines of the selected movie read backwards, the position of the
    selected movie left out; so, of two entries, the one that stands
    first comes later in [argsort]. The order of equal scores is the
    order of [argsort], reversed; it is not the ascending order of the
    catalog. *)
Theorem recommendations_descending (W : World) (self : MovieRecommender)
    (movie_id : option Z) (movie_title : option string) (k : Z) (r : Result) :
  WorldOk W ->
  get_recommendations W self movie_id movie_title k = inr r ->
  StronglySorted score_ge (recommendations r)
  /\ (error r = None ->
      exists d M idx v positions rest,
        df self = Some d /\ tfidf_matrix self = Some M
        /\ selected_position self movie_id movie_title d idx
        /\ nth_error M idx = Some v
        /\ filter (fun i => negb (i =? idx)%nat)
                  (rev (argsort W (cosine_similarity W v M)))
           = positions ++ rest
        /\ Forall2 (entry d (cosine_similarity W v M)) positions
                   (recommendations r)
        /\ forall p q a b,
             (p < q)%nat ->
             nth_error (recommendations r) p = Some a ->
             nth_error (recommendations r) q = Some b ->
             exists i j,
               entry d (cosine_similarity W v M) i a
               /\ entry d (cosine_similarity W v M) j b
               /\ comes_before j i (argsort W (cosine_similarity W v M))).
Proof.
  intros Hok Hr.
  apply get_recommendations_inv in Hr
    as [(msg & ->) | (d & idx & _ & Hd & Hr & Hidx)].
  { split; [constructor|]. discriminate. }
  apply recommend_at_inv in Hr
    as (m & sel_row & sel & v & recs & Hm & _ & _ & Hv & -> & HF & _).
  cbn [recommendations error]. set (scores := cosine_similarity W v m) in *.
  split.
  - refine (@sorted_Forall2 _ _ (entry d scores)
              (fun i j => (nth j scores 0 <= nth i scores 0)%Q)
              score_ge _ _ _ HF _).
    + intros i j a b Ha Hb Hij. unfold score_ge.
      rewrite (entry_score Ha), (entry_score Hb).
      now apply score_mono.
    + now apply similar_indices_descending.
  - intros _. subst scores.
    destruct (slice_to_prefix k
                (filter (fun i => negb (i =? idx)%nat)
                        (rev (argsort W (cosine_similarity W v m)))))
      as (rest & Hrest).
    exists d, m, idx, v,
      (similar_indices W (cosine_similarity W v m) idx k), rest.
    do 5 (split; [trivial|]). split; [exact HF|].
    intros p q a b Hpq Ha Hb.
    destruct (@Forall2_comes_before _ _ _ _ _ HF p q a b Hpq Ha Hb)
      as (i & j & Ei & Ej & Hc).
    exists i, j. split; [exact Ei|]. split; [exact Ej|].
    apply comes_before_rev.
    apply (@comes_before_filter _ (fun i => negb (i =? idx)%nat)).
    rewrite Hrest. now apply comes_before_app_l.
Qed.

(** C1, as stated, fails with a stable [argsort]: for [Toy Story] the two
    other movies have the score 0.0, and the ascending ranking read
    backwards gives [Heat], at position 2, before [Jumanji], at
    position 1. *)
Lemma ties_come_reversed :
  exists d r,
    df (init Demo.world "movies.csv") = Some d
    /\ get_recommendations Demo.world (init Demo.world "movies.csv")
                           (Some 1%Z) None 20 = inr r
    /\ map md_title (recommendations r)
       = [Some "Heat (1995)"; Some "Jumanji (1995)"]
    /\ ~ ties_by_ascending_ordinal d r.
Proof.
  exists (prepare (Frame.of_csv (fst Demo.movies_csv) (snd Demo.movies_csv))).
  destruct (get_recommendations Demo.world (init Demo.world "movies.csv")
                                (Some 1%Z) None 20) as [e|r] eqn:Hr.
  { vm_compute in Hr. discriminate Hr. }
  exists r. vm_compute in Hr. injection Hr as <-.
  split; [vm_compute; reflexivity|]. split; [reflexivity|].
  split; [reflexivity|].
  intros H.
  assert (Hlt : (2 < 1)%nat); [|lia].
  eapply (H 0%nat 1%nat); [lia | reflexivity | reflexivity | reflexivity | |];
    vm_compute; reflexivity.
Qed.

(* ------------------------------------------------------------------ *)
(** ** Loaded catalogs *)

Lemma labels_position {A} (l : list (nat * A)) (n j : nat) (a : A) :
  map fst l = seq 0 (List.length l) ->
  nth_error l n = Some (j, a) -> j = n.
Proof.
  intros Hlab Hn.
  assert (Hlt : (n < List.length l)%nat).
  { apply nth_error_Some. congruence. }
  apply (map_nth_error fst) in Hn. rewrite Hlab in Hn. simpl in Hn.
  apply (nth_error_nth _ _ 0%nat) in Hn. rewrite seq_nth in Hn; lia.
Qed.

Lemma In_label_position {A} (l : list (nat * A)) (i : nat) (a : A) :
  map fst l = seq 0 (List.length l) ->
  In (i, a) l -> nth_error l i = Some (i, a).
Proof.
  intros Hlab Hin. destruct (In_nth_error _ _ Hin) as (n & Hn).
  pose proof (@labels_position _ _ _ _ _ Hlab Hn) as ->. exact Hn.
Qed.

Lemma first_match_position p d i :
  map fst (rows d) = seq 0 (List.length (rows d)) ->
  first_match p d i ->
  exists row, nth_error (rows d) i = Some (i, row) /\ p row = true.
Proof.
  intros Hlab (before & row & after & Hrows & Hp & _).
  exists row. split; trivial. apply In_label_position; trivial.
  rewrite Hrows. apply in_elt.
Qed.

Lemma iloc_nth_error d i ir :
  nth_error (rows d) i = Some ir -> Frame.iloc d i = inr (snd ir).
Proof. unfold Frame.iloc. now intros ->. Qed.

Lemma iloc_inv d i row :
  Frame.iloc d i = inr row ->
  exists j, nth_error (rows d) i = Some (j, row).
Proof.
  unfold Frame.iloc. destruct (nth_error (rows d) i) as [[j r]|]; [|discriminate].
  intros [= <-]. now exists j.
Qed.

(** The frame of a loaded recommender: labels [0 .. N-1], distinct titles,
    a [vote_count] column. *)
Lemma init_loaded_frame (W : World) (csv_path : string) :
  is_loaded (init W csv_path) = true ->
  exists d m,
    df (init W csv_path) = Some d
    /\ tfidf_matrix (init W csv_path) = Some m
    /\ map fst (rows d) = seq 0 (List.length (rows d))
    /\ NoDup (map row_title (rows d))
    /\ Frame.has_col d "vote_count" = true
    /\ (WorldOk W -> List.length m = List.length (rows d)).
Proof.
  intros Hl.
  destruct (init_loaded W csv_path Hl) as (file & cols & rs & m & _ & _ & Hfit & Hi).
  exists (prepare (Frame.of_csv cols rs)), m. rewrite Hi. cbn [df tfidf_matrix].
  split; trivial. split; trivial. split.
  { rewrite prepare_labels, prepare_length. apply clean_data_labels. }
  split.
  { unfold row_title. rewrite prepare_titles. apply clean_data_titles_NoDup. }
  split; [apply prepare_has_vote_count|].
  intros Hok. rewrite (@fit_rows _ Hok _ _ Hfit). apply length_map.
Qed.

Lemma first_label_exists p d :
  (exists row, In row (map snd (rows d)) /\ p row = true) ->
  exists i, Frame.first_label p d = Some i.
Proof.
  intros (row & Hin & Hp). unfold Frame.first_label.
  destruct (find _ _) as [[i r]|] eqn:Hf; [now exists i|].
  apply in_map_iff in Hin as (ir & <- & Hin).
  pose proof (find_none _ _ Hf ir Hin) as Hn. simpl in Hn. congruence.
Qed.

(* ------------------------------------------------------------------ *)
(** ** Length, self-exclusion, scores *)

(** C2, as amended. On a loaded catalog of [N] records that all have an
    id and a vote count, a call with the id of one of them and [k >= 0]
    returns a result without error whose list has [min k (N - 1)]
    entries. *)
Theorem recommendations_length (W : World) (csv_path : string)
    (d : DataFrame) (movie_id : Z) (movie_title : option string) (k : Z) :
  WorldOk W ->
  is_loaded (init W csv_path) = true ->
  df (init W csv_path) = Some d ->
  Forall (fun ir => movieId (snd ir) <> None /\ vote_count (snd ir) <> None)
         (rows d) ->
  (exists row, In row (map snd (rows d)) /\ movieId row = Some movie_id) ->
  (0 <= k)%Z ->
  exists r,
    get_recommendations W (init W csv_path) (Some movie_id) movie_title k = inr r
    /\ error r = None
    /\ List.length (recommendations r)
       = Nat.min (Z.to_nat k) (List.length (rows d) - 1).
Proof.
  intros Hok Hl Hd Hcells (row0 & Hin0 & Hid0) Hk.
  destruct (init_loaded_frame W csv_path Hl) as (d' & m & Hd' & Hm & Hlab & _ & Hvc & Hlen).
  rewrite Hd in Hd'. injection Hd' as <-. specialize (Hlen Hok).
  assert (Hconv : forall i ir, nth_error (rows d) i = Some ir ->
                               convertible d (snd ir)).
  { intros i ir Hi. apply nth_error_In in Hi.
    rewrite Forall_forall in Hcells. destruct (Hcells ir Hi) as [H1 H2].
    split; trivial. unfold row_get. now rewrite Hvc. }
  destruct (@first_label_exists (id_is movie_id) d) as (idx & Hidx).
  { exists row0. split; trivial. unfold id_is. rewrite Hid0. apply Z.eqb_refl. }
  destruct (@first_match_position _ _ _ Hlab (@first_label_Some _ _ _ Hidx))
    as (sel_row & Hsel & _).
  assert (Hlt : (idx < List.length (rows d))%nat).
  { apply nth_error_Some. congruence. }
  unfold get_recommendations. rewrite Hl, Hd, Hm, Hidx. cbn [negb].
  unfold recommend_at. rewrite (@iloc_nth_error _ _ _ Hsel). cbn [snd].
  unfold ExcMonad.bind at 1.
  destruct (@movie_to_dict_total d sel_row None None (Hconv _ _ Hsel)) as (sel & ->).
  unfold ExcMonad.bind at 1.
  unfold ExcMonad.bind at 1, array_get.
  destruct (nth_error m idx) as [v|] eqn:Hv.
  2:{ apply nth_error_None in Hv. lia. }
  unfold ExcMonad.bind at 1.
  set (scores := cosine_similarity W v m).
  assert (Hscores : List.length scores = List.length (rows d)).
  { unfold scores. now rewrite (@cosine_length _ Hok). }
  destruct (@build_recommendations_total d scores
              (similar_indices W scores idx k)) with (rank := 1%nat)
    as (ms & -> & Hms).
  { rewrite Forall_forall. intros i Hi. apply similar_indices_In in Hi.
    apply (Permutation_in _ (@argsort_perm _ Hok scores)), in_seq in Hi.
    destruct (nth_error (rows d) i) as [ir|] eqn:Hir.
    2:{ apply nth_error_None in Hir. lia. }
    exists (snd ir). split; [now apply iloc_nth_error|].
    split; [now apply (Hconv i)|lia]. }
  eexists. split; [reflexivity|]. split; [reflexivity|]. cbn [recommendations].
  rewrite Hms, similar_indices_length by (trivial; lia). now rewrite Hscores.
Qed.

(** C2, as stated, fails on a catalog that has a [vote_count] column and
    a row without the cell: [int(row.get('vote_count', 1000))] raises when
    that row is made into a dictionary. *)
Lemma recommendations_raise_on_missing_vote_count :
  is_loaded (init Demo.world "gaps.csv") = true
  /\ get_recommendations Demo.world (init Demo.world "gaps.csv")
                         (Some 1%Z) None 5
     = inl (ValueError "cannot convert float NaN to integer")
  /\ ~ top_k_as_stated Demo.world (init Demo.world "gaps.csv") 1 5.
Proof.
  split; [vm_compute; reflexivity|]. split; [vm_compute; reflexivity|].
  intros (d & r & _ & Hr & _). vm_compute in Hr. discriminate Hr.
Qed.

(** C3. The movie a call selects is not among its recommendations: no
    entry has its title, and titles are distinct in a loaded catalog. When
    the call names an id, the selected movie has that id. *)
Theorem selected_not_recommended (W : World) (csv_path : string)
    (movie_id : option Z) (movie_title : option string) (k : Z)
    (r : Result) (sel : MovieDict) :
  is_loaded (init W csv_path) = true ->
  get_recommendations W (init W csv_path) movie_id movie_title k = inr r ->
  selected_movie r = Some sel ->
  (forall id, movie_id = Some id -> md_id sel = id)
  /\ Forall (fun m => md_title m <> md_title sel) (recommendations r).
Proof.
  intros Hl Hr Hsel.
  destruct (init_loaded_frame W csv_path Hl) as (d & m & Hd & Hm & Hlab & Hnd & _ & _).
  apply get_recommendations_inv in Hr
    as [(msg & ->) | (d' & idx & _ & Hd' & Hr & Hidx)];
    [discriminate Hsel|].
  rewrite Hd in Hd'. injection Hd' as <-.
  apply recommend_at_inv in Hr
    as (m' & sel_row & sel' & v & recs & _ & Hrow & Hdict & _ & -> & HF & _).
  simpl in Hsel. injection Hsel as ->. cbn [recommendations].
  apply movie_to_dict_fields in Hdict as (Hid & Htitle & _).
  destruct (@iloc_inv _ _ _ Hrow) as (j & Hnth).
  split.
  - intros id ->. destruct (@first_match_position _ _ _ Hlab (@first_label_Some _ _ _ Hidx))
      as (row & Hrow' & Hp).
    rewrite Hnth in Hrow'. injection Hrow' as _ <-.
    unfold id_is in Hp. rewrite Hid in Hp. now apply Z.eqb_eq in Hp.
  - rewrite Forall_forall. intros mv Hmv Heq.
    destruct (@Forall2_In_r _ _ _ _ _ _ HF Hmv)
      as (i & Hi & (row & c & rank & Hrow_i & _ & Hdict_i)).
    apply similar_indices_neq in Hi. apply Hi.
    apply movie_to_dict_fields in Hdict_i as (_ & Htitle_i & _).
    destruct (@iloc_inv _ _ _ Hrow_i) as (j' & Hnth_i).
    assert (Hbound : (i < List.length (map row_title (rows d)))%nat).
    { rewrite length_map. apply nth_error_Some. congruence. }
    apply (proj1 (NoDup_nth_error _) Hnd i idx Hbound).
    rewrite (map_nth_error row_title _ _ Hnth_i), (map_nth_error row_title _ _ Hnth).
    unfold row_title. simpl. congruence.
Qed.

(** C4. The score of an entry is the cosine between the vector of the
    selected movie and the vector of the entry's movie, times 100 as a
    product of floats (the double nearest to the product), rounded to one
    decimal (the nearest number of tenths, a tie going to the even one,
    held as the double nearest to it); it lies in [[0, 100]], the cosines
    of the matrix lying in [[0, 1]], or above 1 by no more than 0.0004,
    as the rounding of their computation may carry them. *)
Theorem similarity_score_value (W : World) (self : MovieRecommender)
    (movie_id : option Z) (movie_title : option string) (k : Z) (r : Result) :
  (forall M v c, tfidf_matrix self = Some M -> In v M ->
                 In c (cosine_similarity W v M) ->
                 (0 <= c <= 10004 # 10000)%Q) ->
  get_recommendations W self movie_id movie_title k = inr r ->
  Forall (fun m =>
            exists d M idx sel_row sel v i row c x t s,
              df self = Some d /\ tfidf_matrix self = Some M
              /\ Frame.iloc d idx = inr sel_row
              /\ selected_movie r = Some sel /\ md_title sel = title sel_row
              /\ nth_error M idx = Some v
              /\ Frame.iloc d i = inr row /\ md_title m = title row
              /\ nth_error (cosine_similarity W v M) i = Some c
              /\ nearest_binary64 (c * 100) x
              /\ nearest_tenth x t
              /\ nearest_binary64 (inject_Z t / 10) s
              /\ md_similarity_score m = Some (Finite s)
              /\ (0 <= s <= 100)%Q)
         (recommendations r).
Proof.
  intros Hrange Hr.
  apply get_recommendations_inv in Hr
    as [(msg & ->) | (d & idx & _ & Hd & Hr & _)]; [constructor|].
  apply recommend_at_inv in Hr
    as (M & sel_row & sel & v & recs & HM & Hrow & Hdict & Hv & -> & HF & _).
  cbn [recommendations selected_movie].
  apply movie_to_dict_fields in Hdict as (_ & Htitle & _).
  rewrite Forall_forall. intros mv Hmv.
  destruct (@Forall2_In_r _ _ _ _ _ _ HF Hmv)
    as (i & _ & (row & c & rank & Hrow_i & Hc & Hdict_i)).
  apply movie_to_dict_fields in Hdict_i as (_ & Htitle_i & _ & Hscore).
  destruct (@score_spec c) as (x & t & s & Nx & Nt & Ns & Es & Hs).
  { apply (Hrange M v c HM); eapply nth_error_In; eauto. }
  exists d, M, idx, sel_row, sel, v, i, row, c, x, t, s.
  do 9 (split; [trivial|]).
  split; [exact Nx|]. split; [exact Nt|]. split; [exact Ns|].
  split; [|exact Hs]. rewrite Hscore. cbn [option_map]. now rewrite Es.
Qed.

(* ------------------------------------------------------------------ *)
(** ** The [argsort] by insertion and the demonstration world *)

Section ArgsortFacts.

Variable scores : list Q.

Lemma insert_index_perm (i : nat) (l : list nat) :
  Permutation (insert_index scores i l) (i :: l).
Proof.
  induction l as [|j l IH]; simpl; [reflexivity|].
  destruct (Qle_bool _ _); [reflexivity|].
  rewrite IH. apply perm_swap.
Qed.

Lemma insert_index_sorted (i : nat) (l : list nat) :
  StronglySorted (score_le scores) l ->
  StronglySorted (score_le scores) (insert_index scores i l).
Proof.
  induction 1 as [|j l Hs IH Hj]; simpl; [repeat constructor|].
  destruct (Qle_bool _ _) eqn:E.
  - apply Qle_bool_iff in E. constructor; [now constructor|].
    constructor; [exact E|]. rewrite Forall_forall in *. intros x Hx.
    unfold score_le in *. apply Qle_trans with (nth j scores 0%Q); auto.
  - assert (Hlt : (nth j scores 0 < nth i scores 0)%Q).
    { apply Qnot_le_lt. intros H. apply Qle_bool_iff in H. congruence. }
    constructor; trivial. rewrite Forall_forall in *. intros x Hx.
    apply (Permutation_in _ (insert_index_perm i l)) in Hx as [<- | Hx].
    + unfold score_le. now apply Qlt_le_weak.
    + now apply Hj.
Qed.

Lemma fold_insert_perm (l : list nat) :
  Permutation (fold_right (insert_index scores) [] l) l.
Proof.
  induction l as [|i l IH]; simpl; [reflexivity|].
  rewrite insert_index_perm. now constructor.
Qed.

Lemma stable_argsort_perm :
  Permutation (stable_argsort scores) (seq 0 (List.length scores)).
Proof. apply fold_insert_perm. Qed.

Lemma stable_argsort_sorted :
  StronglySorted (score_le scores) (stable_argsort scores).
Proof.
  unfold stable_argsort. induction (seq 0 (List.length scores)) as [|i l IH];
    simpl; [constructor|]. now apply insert_index_sorted.
Qed.

End ArgsortFacts.

Lemma Demo_world_ok : WorldOk Demo.world.
Proof.
  constructor; simpl.
  - intros [|doc docs] m; [discriminate|]. intros [= <-].
    apply (length_map Demo.one_genre_row (doc :: docs)).
  - intros v m. apply length_map.
  - apply stable_argsort_perm.
  - apply stable_argsort_sorted.
Qed.

(* ------------------------------------------------------------------ *)
(** ** The theorems at work on [movies.csv] and [tagged.csv] *)

Lemma Demo_catalog_loaded : is_loaded Demo.catalog = true.
Proof. vm_compute. reflexivity. Qed.

Lemma Demo_catalog_frame : df Demo.catalog = Some Demo.frame.
Proof. vm_compute. reflexivity. Qed.

Lemma Demo_toy_story_call :
  get_recommendations Demo.world Demo.catalog (Some 1%Z) None 20
  = inr Demo.toy_story_result.
Proof. vm_compute. reflexivity. Qed.

Lemma unloaded_error_result_witness :
  is_loaded (mkRecommender None None false None) = false
  /\ (exists msg,
         get_recommendations Demo.world (mkRecommender None None false None)
                             (Some 1%Z) None 20
         = inr (mkResult None [] (Some msg)) /\ msg <> "")
  /\ is_loaded (load_data Demo.world (mkRecommender None None false None)
                          "broken.csv") = false
  /\ error_message (load_data Demo.world (mkRecommender None None false None)
                              "broken.csv")
     = Some "Error loading data: CSV must contain columns: {'movieId', 'title', 'genres'}".
Proof.
  destruct (@unloaded_error_result Demo.world
              (mkRecommender None None false None) eq_refl) as [Hq Hload].
  split; [reflexivity|]. split.
  - destruct (Hq (Some 1%Z) None 20%Z) as (msg & Hmsg & _ & Hne).
    exists msg. split; assumption.
  - destruct (Hload "broken.csv"
                    (ValueError "CSV must contain columns: {'movieId', 'title', 'genres'}")
                    eq_refl) as (Hflag & Hmsg & _).
    split; assumption.
Defined.

Lemma no_identifier_error_witness :
  is_loaded Demo.catalog = true
  /\ (Some "" = None \/ Some "" = Some "")
  /\ get_recommendations Demo.world Demo.catalog None (Some "") 20
     = inr (mkResult None [] (Some "Please provide a movie ID or title")).
Proof.
  split; [exact Demo_catalog_loaded|]. split; [right; reflexivity|].
  apply (@no_identifier_error Demo.world Demo.catalog (Some "") 20%Z).
  - exact Demo_catalog_loaded.
  - right. reflexivity.
Defined.

Lemma Demo_gaps_loaded : is_loaded (init Demo.world "gaps.csv") = true.
Proof. vm_compute. reflexivity. Qed.

Lemma defaults_for_absent_columns_witness :
  is_loaded (init Demo.world "gaps.csv") = true
  /\ exists file cols rs d,
       find (path_exists Demo.world) (files_to_try "gaps.csv") = Some file
       /\ read_csv Demo.world file = inr (cols, rs)
       /\ df (init Demo.world "gaps.csv") = Some d
       /\ (forall r, In r (map snd (rows d)) ->
             (~ In "rating" cols -> rating r = Some 7%Q)
             /\ (~ In "vote_count" cols -> vote_count r = Some 1000%Z)
             /\ (~ In "popularity" cols -> popularity r = Some 50%Q))
       /\ exists positions,
            StronglySorted lt positions
            /\ (forall p, In p positions <-> kept_position rs p)
            /\ Forall2 (fun p r =>
                          exists r0,
                            nth_error rs p = Some r0
                            /\ title r = title r0
                            /\ (In "rating" cols -> rating r = rating r0)
                            /\ (In "vote_count" cols ->
                                vote_count r = vote_count r0)
                            /\ (In "popularity" cols ->
                                popularity r = popularity r0))
                       positions (map snd (rows d)).
Proof.
  split; [exact Demo_gaps_loaded|].
  apply (@defaults_for_absent_columns Demo.world "gaps.csv").
  exact Demo_gaps_loaded.
Defined.

Lemma load_cleans_catalog_witness :
  is_loaded (init Demo.world "movies.csv") = true
  /\ exists file cols rs d,
       find (path_exists Demo.world) (files_to_try "movies.csv") = Some file
       /\ read_csv Demo.world file = inr (cols, rs)
       /\ df (init Demo.world "movies.csv") = Some d
       /\ map fst (rows d) = seq 0 (List.length (rows d))
       /\ NoDup (map row_title (rows d))
       /\ exists positions,
            StronglySorted lt positions
            /\ (forall p, In p positions <-> kept_position rs p)
            /\ Forall2 (fun p r =>
                          exists r0, nth_error rs p = Some r0
                                     /\ movieId r = movieId r0
                                     /\ title r = title r0
                                     /\ genres r = genres r0)
                       positions (map snd (rows d)).
Proof.
  split; [exact Demo_catalog_loaded|].
  apply (@load_cleans_catalog Demo.world "movies.csv").
  exact Demo_catalog_loaded.
Defined.

Lemma find_movie_precedence_witness :
  is_loaded Demo.catalog = true
  /\ df Demo.catalog = Some Demo.frame
  /\ exists o,
       find_movie Demo.catalog "Heat (1995)" = inr o
       /\ resolution Demo.frame (PyStr.strip (PyStr.lower "Heat (1995)")) o
       /\ forall i,
            first_match (raw_title_is (PyStr.strip (PyStr.lower "Heat (1995)")))
                        Demo.frame i ->
            o = Some i.
Proof.
  split; [exact Demo_catalog_loaded|]. split; [exact Demo_catalog_frame|].
  apply (@find_movie_precedence Demo.catalog Demo.frame "Heat (1995)").
  - exact Demo_catalog_loaded.
  - exact Demo_catalog_frame.
Defined.

Lemma Examples_tagged_world_ok : WorldOk Examples.tagged_world.
Proof.
  constructor; simpl.
  - intros docs m [= <-]. apply length_map.
  - intros v m. apply length_map.
  - apply stable_argsort_perm.
  - apply stable_argsort_sorted.
Qed.

Lemma Examples_die_hard_call :
  get_recommendations Examples.tagged_world Examples.tagged (Some 1%Z) None 20
  = inr Examples.die_hard_result.
Proof. vm_compute. reflexivity. Qed.

(** The call for [Die Hard]: the scores 66.7, 60.0, 0.0 and 0.0; of the
    two movies at 0.0, the one of position 4 stands before the one of
    position 3. *)
Lemma Examples_die_hard_ranking :
  map (fun m => (md_title m, md_similarity_score m))
      (recommendations Examples.die_hard_result)
  = [(Some "Lethal Weapon (1987)", Some (Finite (Examples.double (667 # 10))));
     (Some "Rush Hour (1998)", Some (Finite 60));
     (Some "Ordinary People (1980)", Some (Finite 0));
     (Some "Airplane! (1980)", Some (Finite 0))].
Proof. vm_compute. reflexivity. Qed.

Lemma recommendations_descending_witness :
  WorldOk Examples.tagged_world
  /\ get_recommendations Examples.tagged_world Examples.tagged
                         (Some 1%Z) None 20
     = inr Examples.die_hard_result
  /\ StronglySorted score_ge (recommendations Examples.die_hard_result)
  /\ (error Examples.die_hard_result = None ->
      exists d M idx v positions rest,
        df Examples.tagged = Some d /\ tfidf_matrix Examples.tagged = Some M
        /\ selected_position Examples.tagged (Some 1%Z) None d idx
        /\ nth_error M idx = Some v
        /\ filter (fun i => negb (i =? idx)%nat)
                  (rev (argsort Examples.tagged_world
                          (cosine_similarity Examples.tagged_world v M)))
           = positions ++ rest
        /\ Forall2 (entry d (cosine_similarity Examples.tagged_world v M))
                   positions (recommendations Examples.die_hard_result)
        /\ forall p q a b,
             (p < q)%nat ->
             nth_error (recommendations Examples.die_hard_result) p = Some a ->
             nth_error (recommendations Examples.die_hard_result) q = Some b ->
             exists i j,
               entry d (cosine_similarity Examples.tagged_world v M) i a
               /\ entry d (cosine_similarity Examples.tagged_world v M) j b
               /\ comes_before j i
                     (argsort Examples.tagged_world
                        (cosine_similarity Examples.tagged_world v M))).
Proof.
  split; [exact Examples_tagged_world_ok|].
  split; [exact Examples_die_hard_call|].
  exact (@recommendations_descending Examples.tagged_world Examples.tagged
           (Some 1%Z) None 20%Z Examples.die_hard_result
           Examples_tagged_world_ok Examples_die_hard_call).
Defined.

Lemma Demo_frame_cells :
  Forall (fun ir => movieId (snd ir) <> None /\ vote_count (snd ir) <> None)
         (rows Demo.frame).
Proof. vm_compute. repeat constructor; discriminate. Qed.

Lemma Demo_frame_has_toy_story :
  exists row, In row (map snd (rows Demo.frame)) /\ movieId row = Some 1%Z.
Proof. eexists. split; [left; reflexivity|]. vm_compute. reflexivity. Qed.

Lemma recommendations_length_witness :
  WorldOk Demo.world
  /\ is_loaded (init Demo.world "movies.csv") = true
  /\ df (init Demo.world "movies.csv") = Some Demo.frame
  /\ Forall (fun ir => movieId (snd ir) <> None /\ vote_count (snd ir) <> None)
            (rows Demo.frame)
  /\ (exists row, In row (map snd (rows Demo.frame)) /\ movieId row = Some 1%Z)
  /\ (0 <= 20)%Z
  /\ exists r,
       get_recommendations Demo.world (init Demo.world "movies.csv")
                           (Some 1%Z) None 20 = inr r
       /\ error r = None
       /\ List.length (recommendations r)
          = Nat.min (Z.to_nat 20) (List.length (rows Demo.frame) - 1).
Proof.
  split; [exact Demo_world_ok|]. split; [exact Demo_catalog_loaded|].
  split; [exact Demo_catalog_frame|]. split; [exact Demo_frame_cells|].
  split; [exact Demo_frame_has_toy_story|]. split; [discriminate|].
  apply (@recommendations_length Demo.world "movies.csv" Demo.frame 1%Z None 20%Z).
  - exact Demo_world_ok.
  - exact Demo_catalog_loaded.
  - exact Demo_catalog_frame.
  - exact Demo_frame_cells.
  - exact Demo_frame_has_toy_story.
  - discriminate.
Defined.

Lemma Demo_toy_story_selected :
  selected_movie Demo.toy_story_result = Some Demo.toy_story.
Proof. reflexivity. Qed.

Lemma selected_not_recommended_witness :
  is_loaded (init Demo.world "movies.csv") = true
  /\ get_recommendations Demo.world (init Demo.world "movies.csv")
                         (Some 1%Z) None 20 = inr Demo.toy_story_result
  /\ selected_movie Demo.toy_story_result = Some Demo.toy_story
  /\ (forall id, Some 1%Z = Some id -> md_id Demo.toy_story = id)
  /\ Forall (fun m => md_title m <> md_title Demo.toy_story)
            (recommendations Demo.toy_story_result).
Proof.
  split; [exact Demo_catalog_loaded|]. split; [exact Demo_toy_story_call|].
  split; [exact Demo_toy_story_selected|].
  apply (@selected_not_recommended Demo.world "movies.csv" (Some 1%Z) None 20%Z).
  - exact Demo_catalog_loaded.
  - exact Demo_toy_story_call.
  - exact Demo_toy_story_selected.
Defined.

Lemma Examples_tagged_matrix :
  tfidf_matrix Examples.tagged = Some Examples.tagged_matrix.
Proof. vm_compute. reflexivity. Qed.

Lemma Examples_cosines_in_range :
  forall M v c, tfidf_matrix Examples.tagged = Some M -> In v M ->
                In c (cosine_similarity Examples.tagged_world v M) ->
                (0 <= c <= 10004 # 10000)%Q.
Proof.
  intros M v c HM Hv Hc. rewrite Examples_tagged_matrix in HM.
  injection HM as <-.
  assert (Hall : forallb (fun v =>
                    forallb (fun c => Qle_bool 0 c
                                      && Qle_bool c (10004 # 10000))
                            (cosine_similarity Examples.tagged_world v
                                               Examples.tagged_matrix))
                   Examples.tagged_matrix = true)
    by (vm_compute; reflexivity).
  rewrite forallb_forall in Hall. specialize (Hall v Hv).
  rewrite forallb_forall in Hall. specialize (Hall c Hc).
  apply andb_true_iff in Hall as [H0 H1].
  split; now apply Qle_bool_iff.
Qed.

Lemma similarity_score_value_witness :
  (forall M v c, tfidf_matrix Examples.tagged = Some M -> In v M ->
                 In c (cosine_similarity Examples.tagged_world v M) ->
                 (0 <= c <= 10004 # 10000)%Q)
  /\ get_recommendations Examples.tagged_world Examples.tagged
                         (Some 1%Z) None 20
     = inr Examples.die_hard_result
  /\ Forall (fun m =>
               exists d M idx sel_row sel v i row c x t s,
                 df Examples.tagged = Some d
                 /\ tfidf_matrix Examples.tagged = Some M
                 /\ Frame.iloc d idx = inr sel_row
                 /\ selected_movie Examples.die_hard_result = Some sel
                 /\ md_title sel = title sel_row
                 /\ nth_error M idx = Some v
                 /\ Frame.iloc d i = inr row /\ md_title m = title row
                 /\ nth_error (cosine_similarity Examples.tagged_world v M) i
                    = Some c
                 /\ nearest_binary64 (c * 100) x
                 /\ nearest_tenth x t
                 /\ nearest_binary64 (inject_Z t / 10) s
                 /\ md_similarity_score m = Some (Finite s)
                 /\ (0 <= s <= 100)%Q)
            (recommendations Examples.die_hard_result).
Proof.
  split; [exact Examples_cosines_in_range|].
  split; [exact Examples_die_hard_call|].
  exact (@similarity_score_value Examples.tagged_world Examples.tagged
           (Some 1%Z) None 20%Z Examples.die_hard_result
           Examples_cosines_in_range Examples_die_hard_call).
Defined.

(** The product is the product of floats: for the double nearest to
    0.0125, which lies above 0.0125, it is 1.25 exactly, and the score is
    1.2; likewise 0.0015 gives 0.1. *)
Lemma score_rounds_the_float_product :
  (5 # 4 < Examples.double (1 # 80) * 100)%Q
  /\ float_mul (Examples.double (1 # 80)) 100 = Finite (5 # 4)
  /\ py_round1 (float_mul (Examples.double (1 # 80)) 100)
     = Finite (Examples.double (12 # 10))
  /\ py_round1 (float_mul (Examples.double (15 # 10000)) 100)
     = Finite (Examples.double (1 # 10)).
Proof. vm_compute. repeat split; reflexivity. Qed.

(* ================================================================== *)
(** * Further properties of the code *)

(* ------------------------------------------------------------------ *)
(** ** [search_movies] and [get_movie_by_id] *)

Lemma dicts_of_rows d l ms :
  dicts_of d l = inr ms ->
  Forall2 (fun ir m => _movie_to_dict d (snd ir) None None = inr m) l ms.
Proof.
  revert ms. induction l as [|ir l IH]; simpl; intros ms.
  - intros [= <-]. constructor.
  - unfold ExcMonad.bind at 1.
    destruct (_movie_to_dict d (snd ir) None None) as [e|m] eqn:Hm;
      [discriminate|].
    unfold ExcMonad.bind at 1.
    destruct (dicts_of d l) as [e|ms'] eqn:Hl; [discriminate|].
    intros [= <-]. constructor; auto.
Qed.

Lemma dicts_of_total d l :
  Forall (fun ir => convertible d (snd ir)) l ->
  exists ms, dicts_of d l = inr ms /\ List.length ms = List.length l.
Proof.
  induction 1 as [|ir l Hc Hl (ms & IH & Hlen)]; simpl.
  - exists []. auto.
  - destruct (@movie_to_dict_total d (snd ir) None None Hc) as (m & ->).
    rewrite IH. exists (m :: ms). simpl. auto.
Qed.

Lemma find_none_filter {A} (f : A -> bool) (l : list A) :
  find f l = None -> filter f l = [].
Proof.
  induction l as [|a l IH]; simpl; trivial.
  destruct (f a); [discriminate|exact IH].
Qed.

Lemma firstn_prefix {A} (n : nat) (l : list A) :
  exists rest, l = firstn n l ++ rest.
Proof. exists (skipn n l). symmetry. apply firstn_skipn. Qed.

(** X1. [search_movies] on a recommender that is not loaded, or with a query
    of fewer than two characters once trimmed, returns the empty list and
    does not read the frame. *)
Theorem search_movies_short_query (self : MovieRecommender) (query : string)
    (limit : Z) :
  is_loaded self = false \/ (String.length (normalised query) < 2)%nat ->
  search_movies self query limit = inr [].
Proof.
  intros H. unfold search_movies. destruct (is_loaded self); simpl; trivial.
  destruct H as [H | H]; [discriminate|].
  apply Nat.ltb_lt in H. unfold normalised in H. now rewrite H.
Qed.

(** X2. The movies [search_movies] returns, for [limit >= 0], are the first
    rows of the catalog, in catalog order and at most [limit] of them,
    whose clean title in lower case contains the normalised query. *)
Theorem search_movies_first_matches (self : MovieRecommender) (d : DataFrame)
    (query : string) (limit : Z) (ms : list MovieDict) :
  is_loaded self = true ->
  df self = Some d ->
  (2 <= String.length (normalised query))%nat ->
  (0 <= limit)%Z ->
  search_movies self query limit = inr ms ->
  exists found rest,
    filter (fun ir => clean_title_contains (normalised query) (snd ir)) (rows d)
    = found ++ rest
    /\ List.length found
       = Nat.min (Z.to_nat limit) (List.length (found ++ rest))
    /\ Forall2 (fun ir m => md_title m = title (snd ir)
                            /\ movieId (snd ir) = Some (md_id m)
                            /\ md_rank m = None
                            /\ md_similarity_score m = None)
               found ms.
Proof.
  intros Hl Hd Hq Hlim. unfold search_movies. rewrite Hl, Hd. simpl.
  fold (normalised query).
  destruct (String.length (normalised query) <? 2)%nat eqn:E.
  { apply Nat.ltb_lt in E. lia. }
  set (matches := filter _ (rows d)). intros Hs.
  unfold slice_to in Hs. destruct (0 <=? limit)%Z eqn:E0; [|lia].
  destruct (firstn_prefix (Z.to_nat limit) matches) as (rest & Hrest).
  exists (firstn (Z.to_nat limit) matches), rest.
  split; [exact Hrest|]. split.
  - rewrite <- Hrest. apply length_firstn.
  - apply dicts_of_rows in Hs. revert Hs. apply Forall2_impl.
    intros ir m Hm. apply movie_to_dict_fields in Hm as (H1 & H2 & H3 & H4).
    auto.
Qed.

(** X3. When [find_movie] finds nothing for a query, [search_movies] returns
    no movie for it either, whatever the limit. *)
Theorem search_movies_empty_when_not_found (self : MovieRecommender)
    (query : string) (limit : Z) :
  is_loaded self = true ->
  find_movie self query = inr None ->
  search_movies self query limit = inr [].
Proof.
  intros Hl. unfold find_movie, search_movies. rewrite Hl. simpl.
  destruct (df self) as [d|]; [|discriminate].
  destruct (Frame.first_label _ d); [discriminate|].
  destruct (Frame.first_label _ d); [discriminate|].
  unfold Frame.first_label.
  destruct (find _ (rows d)) as [ir|] eqn:Hf; [discriminate|].
  intros _. apply find_none_filter in Hf. rewrite Hf.
  destruct (_ <? 2)%nat; trivial.
  unfold slice_to. destruct (0 <=? limit)%Z; simpl; rewrite ?firstn_nil;
    reflexivity.
Qed.

(** X4. [search_movies] raises only for a row without id or without vote
    count: when the rows of the catalog all have both, it returns a list,
    of at most [limit] movies. *)
Theorem search_movies_total (self : MovieRecommender) (d : DataFrame)
    (query : string) (limit : Z) :
  is_loaded self = true ->
  df self = Some d ->
  Forall (fun ir => convertible d (snd ir)) (rows d) ->
  (0 <= limit)%Z ->
  exists ms,
    search_movies self query limit = inr ms
    /\ (List.length ms <= Z.to_nat limit)%nat.
Proof.
  intros Hl Hd Hc Hlim. unfold search_movies. rewrite Hl, Hd. simpl.
  destruct (_ <? 2)%nat.
  { exists []. split; trivial. simpl. lia. }
  set (sel := slice_to limit _).
  destruct (@dicts_of_total d sel) as (ms & Hms & Hlen).
  { rewrite Forall_forall in *. intros ir Hir. apply Hc.
    apply slice_to_incl, filter_In in Hir. tauto. }
  exists ms. split; trivial. rewrite Hlen. unfold sel.
  rewrite slice_to_length by trivial. lia.
Qed.

(** X5. On a loaded catalog [get_movie_by_id] returns [None] exactly when no
    record has the id; a movie it returns has the id, and is made from the
    first record that has it. *)
Theorem get_movie_by_id_found (self : MovieRecommender) (d : DataFrame)
    (movie_id : Z) :
  is_loaded self = true ->
  df self = Some d ->
  (get_movie_by_id self movie_id = inr None
   <-> forall row, In row (map snd (rows d)) -> movieId row <> Some movie_id)
  /\ forall m,
       get_movie_by_id self movie_id = inr (Some m) ->
       md_id m = movie_id
       /\ exists i, first_match (id_is movie_id) d i
                    /\ exists row, In (i, row) (rows d) /\ md_title m = title row.
Proof.
  intros Hl Hd. unfold get_movie_by_id. rewrite Hl, Hd. simpl.
  destruct (find _ (rows d)) as [[i row]|] eqn:Hf.
  - apply find_first in Hf as Hfirst. destruct Hfirst as (l1 & l2 & Hrows & Hp & Hb).
    simpl in Hp. unfold ExcMonad.bind.
    destruct (_movie_to_dict d (snd (i, row)) None None) as [e|m] eqn:Hm.
    + split; [|discriminate]. split; [discriminate|].
      intros Hno. exfalso. unfold id_is in Hp.
      destruct (movieId row) as [z|] eqn:Hz; [|discriminate].
      apply Z.eqb_eq in Hp. subst z. apply (Hno row); trivial.
      apply in_map_iff. exists (i, row). split; trivial.
      rewrite Hrows. apply in_elt.
    + split.
      * split; [discriminate|]. intros Hno. exfalso. unfold id_is in Hp.
        destruct (movieId row) as [z|] eqn:Hz; [|discriminate].
        apply Z.eqb_eq in Hp. subst z. apply (Hno row); trivial.
        apply in_map_iff. exists (i, row). split; trivial.
        rewrite Hrows. apply in_elt.
      * intros m' [= <-]. apply movie_to_dict_fields in Hm as (Hid & Ht & _).
        simpl in Hid, Ht. split.
        -- unfold id_is in Hp. rewrite Hid in Hp. now apply Z.eqb_eq in Hp.
        -- exists i. split.
           ++ exists l1, row, l2. auto.
           ++ exists row. split; trivial. rewrite Hrows. apply in_elt.
  - split; [|discriminate]. split; trivial. intros _ row Hin Hrow.
    apply in_map_iff in Hin as (ir & <- & Hin).
    pose proof (find_none _ _ Hf ir Hin) as Hn. simpl in Hn.
    unfold id_is in Hn. rewrite Hrow, Z.eqb_refl in Hn. discriminate.
Qed.

(* ------------------------------------------------------------------ *)
(** ** More on [get_recommendations] *)

(** X6. The movie a call by id selects is the movie [get_movie_by_id] returns
    for that id, and there is none when the id is unknown. *)
Theorem selected_is_get_movie_by_id (W : World) (csv_path : string)
    (movie_id : Z) (movie_title : option string) (k : Z) (r : Result) :
  is_loaded (init W csv_path) = true ->
  get_recommendations W (init W csv_path) (Some movie_id) movie_title k = inr r ->
  get_movie_by_id (init W csv_path) movie_id = inr (selected_movie r).
Proof.
  intros Hl.
  destruct (init_loaded_frame W csv_path Hl) as (d & m & Hd & Hm & Hlab & _).
  unfold get_recommendations, get_movie_by_id. rewrite Hl, Hd. simpl.
  unfold Frame.first_label.
  destruct (find _ (rows d)) as [[i row]|] eqn:Hf; simpl.
  - intros Hr. apply recommend_at_inv in Hr
      as (m' & sel_row & sel & v & recs & _ & Hrow & Hdict & _ & -> & _).
    apply find_first in Hf as (l1 & l2 & Hrows & _ & _).
    assert (Hin : In (i, row) (rows d)) by (rewrite Hrows; apply in_elt).
    apply (@In_label_position _ _ _ _ Hlab) in Hin.
    rewrite (@iloc_nth_error _ _ _ Hin) in Hrow. injection Hrow as <-.
    simpl. unfold ExcMonad.bind. now rewrite Hdict.
  - intros [= <-]. reflexivity.
Qed.

(** X7. An id that no record has gives the error [Movie not found]; a title
    that [find_movie] does not resolve gives the error that quotes the
    title. Both results have no recommendation and no selected movie. *)
Theorem get_recommendations_not_found (W : World) (self : MovieRecommender)
    (d : DataFrame) (k : Z) :
  is_loaded self = true ->
  df self = Some d ->
  (forall movie_id movie_title,
      (forall row, In row (map snd (rows d)) -> movieId row <> Some movie_id) ->
      get_recommendations W self (Some movie_id) movie_title k
      = inr (mkResult None [] (Some "Movie not found")))
  /\ (forall t,
         t <> "" ->
         find_movie self t = inr None ->
         get_recommendations W self None (Some t) k
         = inr (mkResult None []
                  (Some ("Could not find movie: " ++ PyStr.dquote ++ t
                           ++ PyStr.dquote)%string))).
Proof.
  intros Hl Hd. split.
  - intros movie_id movie_title Hno. unfold get_recommendations.
    rewrite Hl, Hd. simpl. unfold Frame.first_label.
    destruct (find _ (rows d)) as [[i row]|] eqn:Hf; [|reflexivity].
    exfalso. apply find_some in Hf as [Hin Hp]. simpl in Hp.
    unfold id_is in Hp. destruct (movieId row) as [z|] eqn:Hz; [|discriminate].
    apply Z.eqb_eq in Hp. subst z. apply (Hno row); trivial.
    apply in_map_iff. now exists (i, row).
  - intros t Ht Hf. unfold get_recommendations. rewrite Hl. simpl.
    destruct t as [|c t]; [now elim Ht|]. simpl. now rewrite Hf.
Qed.

(** X8. The entries of a result carry the ranks 1, 2, ..., in this order. *)
Theorem ranks_count_from_one (W : World) (self : MovieRecommender)
    (movie_id : option Z) (movie_title : option string) (k : Z) (r : Result) :
  get_recommendations W self movie_id movie_title k = inr r ->
  map md_rank (recommendations r)
  = map Some (seq 1 (List.length (recommendations r))).
Proof.
  intros Hr.
  apply get_recommendations_inv in Hr as [(msg & ->) | (d & idx & _ & _ & Hr & _)];
    [reflexivity|].
  now apply recommend_at_inv in Hr as (m & sel_row & sel & v & recs & _ & _ & _ & _ & -> & _ & Hranks).
Qed.

Lemma NoDup_firstn {A} (n : nat) (l : list A) : NoDup l -> NoDup (firstn n l).
Proof.
  revert l. induction n as [|n IH]; intros l Hl; [constructor|].
  destruct Hl as [|a l Ha Hl]; simpl; constructor; [|now apply IH].
  intros Hin. apply Ha. eapply firstn_incl; eauto.
Qed.

Lemma similar_indices_NoDup (W : World) scores idx k :
  WorldOk W -> NoDup (similar_indices W scores idx k).
Proof.
  intros Hok. unfold similar_indices, slice_to.
  assert (H : NoDup (filter (fun i => negb (i =? idx)%nat)
                            (rev (argsort W scores)))).
  { apply NoDup_filter, NoDup_rev.
    apply (Permutation_NoDup (Permutation_sym (@argsort_perm _ Hok scores))).
    apply seq_NoDup. }
  destruct (0 <=? k)%Z; now apply NoDup_firstn.
Qed.

Lemma entry_position d scores i m :
  entry d scores i m ->
  exists j row, nth_error (rows d) i = Some (j, row) /\ md_title m = title row.
Proof.
  intros (row & c & rank & Hrow & _ & Hm).
  apply movie_to_dict_fields in Hm as (_ & Ht & _).
  destruct (@iloc_inv _ _ _ Hrow) as (j & Hj). now exists j, row.
Qed.

Lemma titles_injective (d : DataFrame) i j a b :
  NoDup (map row_title (rows d)) ->
  nth_error (rows d) i = Some a -> nth_error (rows d) j = Some b ->
  title (snd a) = title (snd b) -> i = j.
Proof.
  intros Hnd Ha Hb Heq.
  assert (Hbound : (i < List.length (map row_title (rows d)))%nat).
  { rewrite length_map. apply nth_error_Some. congruence. }
  apply (proj1 (NoDup_nth_error _) Hnd i j Hbound).
  rewrite (map_nth_error row_title _ _ Ha), (map_nth_error row_title _ _ Hb).
  unfold row_title. congruence.
Qed.

(** X9. No movie stands twice in a result: the titles of the entries are
    pairwise distinct. *)
Theorem recommendations_distinct (W : World) (csv_path : string)
    (movie_id : option Z) (movie_title : option string) (k : Z) (r : Result) :
  WorldOk W ->
  is_loaded (init W csv_path) = true ->
  get_recommendations W (init W csv_path) movie_id movie_title k = inr r ->
  NoDup (map md_title (recommendations r)).
Proof.
  intros Hok Hl Hr.
  destruct (init_loaded_frame W csv_path Hl) as (d & m & Hd & _ & _ & Hnd & _).
  apply get_recommendations_inv in Hr
    as [(msg & ->) | (d' & idx & _ & Hd' & Hr & _)]; [constructor|].
  rewrite Hd in Hd'. injection Hd' as <-.
  apply recommend_at_inv in Hr
    as (m' & sel_row & sel & v & recs & _ & _ & _ & _ & -> & HF & _).
  cbn [recommendations].
  pose proof (@similar_indices_NoDup W (cosine_similarity W v m') idx k Hok)
    as Hinds.
  revert Hinds. induction HF as [|i mv inds recs Hi HF IH]; intros Hinds;
    [constructor|].
  apply NoDup_cons_iff in Hinds as [Hnot Hinds]. simpl. constructor; [|auto].
  rewrite in_map_iff. intros (mv' & Heq & Hin).
  destruct (@Forall2_In_r _ _ _ _ _ _ HF Hin) as (j & Hj & Hentry).
  destruct (@entry_position _ _ _ _ Hi) as (li & rowi & Hni & Hti).
  destruct (@entry_position _ _ _ _ Hentry) as (lj & rowj & Hnj & Htj).
  assert (i = j); [|congruence].
  apply (@titles_injective d _ _ _ _ Hnd Hni Hnj). simpl. congruence.
Qed.

Lemma candidates_length (W : World) scores idx :
  WorldOk W -> (idx < List.length scores)%nat ->
  List.length (filter (fun i => negb (i =? idx)%nat) (rev (argsort W scores)))
  = (List.length scores - 1)%nat.
Proof.
  intros Hok Hidx.
  rewrite (@filter_length_perm _ _ _ (seq 0 (List.length scores))).
  - now apply filter_neq_seq_length.
  - eapply Permutation_trans; [|apply (@argsort_perm _ Hok)].
    apply Permutation_sym, Permutation_rev.
Qed.

Lemma Forall2_In_l {A B} (E : A -> B -> Prop) (l : list A) (l' : list B) (a : A) :
  Forall2 E l l' -> In a l -> exists b, In b l' /\ E a b.
Proof.
  induction 1 as [|x y l l' Hxy HF IH]; simpl; [tauto|].
  intros [<- | Ha].
  - exists y. auto.
  - destruct (IH Ha) as (b & Hb & He). exists b. auto.
Qed.

Lemma slice_to_all {A} (k : Z) (l : list A) :
  (Z.of_nat (List.length l) <= k)%Z -> slice_to k l = l.
Proof.
  intros Hk. unfold slice_to. destruct (0 <=? k)%Z eqn:E; [|lia].
  apply firstn_all2. lia.
Qed.

(** X10. When [k] is at least [N - 1], every record of the catalog other than
    the selected one is in the result. *)
Theorem recommendations_complete (W : World) (csv_path : string)
    (movie_id : option Z) (movie_title : option string) (k : Z)
    (r : Result) (d : DataFrame) (sel : MovieDict) :
  WorldOk W ->
  is_loaded (init W csv_path) = true ->
  df (init W csv_path) = Some d ->
  get_recommendations W (init W csv_path) movie_id movie_title k = inr r ->
  selected_movie r = Some sel ->
  (Z.of_nat (List.length (rows d)) - 1 <= k)%Z ->
  forall row, In row (map snd (rows d)) -> title row <> md_title sel ->
              exists m, In m (recommendations r) /\ md_title m = title row.
Proof.
  intros Hok Hl Hd Hr Hsel Hk row Hin Hneq.
  destruct (init_loaded_frame W csv_path Hl) as (d' & m & Hd' & Hm & _ & _ & _ & Hlen).
  rewrite Hd in Hd'. injection Hd' as <-. specialize (Hlen Hok).
  apply get_recommendations_inv in Hr
    as [(msg & ->) | (d' & idx & _ & Hd' & Hr & _)]; [discriminate Hsel|].
  rewrite Hd in Hd'. injection Hd' as <-. rewrite Hm in Hr.
  apply recommend_at_inv in Hr
    as (m' & sel_row & sel' & v & recs & [= <-] & Hrow & Hdict & _ & -> & HF & _).
  simpl in Hsel. injection Hsel as ->. cbn [recommendations].
  apply movie_to_dict_fields in Hdict as (_ & Htitle & _).
  set (scores := cosine_similarity W v m) in *.
  assert (Hscores : List.length scores = List.length (rows d)).
  { unfold scores. now rewrite (@cosine_length _ Hok). }
  apply in_map_iff in Hin as (ir & <- & Hin).
  destruct (In_nth_error _ _ Hin) as (i & Hi).
  assert (Hlt : (i < List.length (rows d))%nat).
  { apply nth_error_Some. congruence. }
  assert (Hidx : i <> idx).
  { intros ->. rewrite (@iloc_nth_error _ _ _ Hi) in Hrow.
    injection Hrow as <-. congruence. }
  assert (Hcand : In i (filter (fun i => negb (i =? idx)%nat)
                               (rev (argsort W scores)))).
  { apply filter_In. split.
    - apply in_rev. rewrite rev_involutive.
      apply (Permutation_in _ (Permutation_sym (@argsort_perm _ Hok scores))).
      apply in_seq. lia.
    - apply negb_true_iff, Nat.eqb_neq. exact Hidx. }
  assert (Hall : similar_indices W scores idx k
                 = filter (fun i => negb (i =? idx)%nat) (rev (argsort W scores))).
  { unfold similar_indices. apply slice_to_all.
    assert (Hidx_lt : (idx < List.length scores)%nat).
    { destruct (@iloc_inv _ _ _ Hrow) as (j & Hj).
      rewrite Hscores. apply nth_error_Some. congruence. }
    rewrite (@candidates_length W scores idx Hok Hidx_lt). lia. }
  rewrite Hall in HF.
  destruct (@Forall2_In_l _ _ _ _ _ _ HF Hcand) as (mv & Hmv & Hentry).
  exists mv. split; trivial.
  destruct (@entry_position _ _ _ _ Hentry) as (j & row' & Hn & Ht).
  rewrite Hi in Hn. destruct ir as [li rowi]. injection Hn as _ <-. exact Ht.
Qed.

(** A call by id on a catalog whose rows can all be made into
    dictionaries returns a result; its list is as long as the list of
    positions of lines 309-310. *)
Lemma get_recommendations_returns (W : World) (csv_path : string)
    (d : DataFrame) (movie_id : Z) (movie_title : option string) (k : Z) :
  WorldOk W ->
  is_loaded (init W csv_path) = true ->
  df (init W csv_path) = Some d ->
  Forall (fun ir => movieId (snd ir) <> None /\ vote_count (snd ir) <> None)
         (rows d) ->
  (exists row, In row (map snd (rows d)) /\ movieId row = Some movie_id) ->
  exists r scores idx,
    get_recommendations W (init W csv_path) (Some movie_id) movie_title k = inr r
    /\ error r = None
    /\ List.length scores = List.length (rows d)
    /\ (idx < List.length (rows d))%nat
    /\ List.length (recommendations r)
       = List.length (similar_indices W scores idx k).
Proof.
  intros Hok Hl Hd Hcells (row0 & Hin0 & Hid0).
  destruct (init_loaded_frame W csv_path Hl)
    as (d' & m & Hd' & Hm & Hlab & _ & Hvc & Hlen).
  rewrite Hd in Hd'. injection Hd' as <-. specialize (Hlen Hok).
  assert (Hconv : forall i ir, nth_error (rows d) i = Some ir ->
                               convertible d (snd ir)).
  { intros i ir Hi. apply nth_error_In in Hi.
    rewrite Forall_forall in Hcells. destruct (Hcells ir Hi) as [H1 H2].
    split; trivial. unfold row_get. now rewrite Hvc. }
  destruct (@first_label_exists (id_is movie_id) d) as (idx & Hidx).
  { exists row0. split; trivial. unfold id_is. rewrite Hid0. apply Z.eqb_refl. }
  destruct (@first_match_position _ _ _ Hlab (@first_label_Some _ _ _ Hidx))
    as (sel_row & Hsel & _).
  assert (Hlt : (idx < List.length (rows d))%nat).
  { apply nth_error_Some. congruence. }
  unfold get_recommendations. rewrite Hl, Hd, Hm, Hidx. cbn [negb].
  unfold recommend_at. rewrite (@iloc_nth_error _ _ _ Hsel). cbn [snd].
  unfold ExcMonad.bind at 1.
  destruct (@movie_to_dict_total d sel_row None None (Hconv _ _ Hsel)) as (sel & ->).
  unfold ExcMonad.bind at 1.
  unfold ExcMonad.bind at 1, array_get.
  destruct (nth_error m idx) as [v|] eqn:Hv.
  2:{ apply nth_error_None in Hv. lia. }
  unfold ExcMonad.bind at 1.
  set (scores := cosine_similarity W v m).
  assert (Hscores : List.length scores = List.length (rows d)).
  { unfold scores. now rewrite (@cosine_length _ Hok). }
  destruct (@build_recommendations_total d scores
              (similar_indices W scores idx k)) with (rank := 1%nat)
    as (ms & -> & Hms).
  { rewrite Forall_forall. intros i Hi. apply similar_indices_In in Hi.
    apply (Permutation_in _ (@argsort_perm _ Hok scores)), in_seq in Hi.
    destruct (nth_error (rows d) i) as [ir|] eqn:Hir.
    2:{ apply nth_error_None in Hir. lia. }
    exists (snd ir). split; [now apply iloc_nth_error|].
    split; [now apply (Hconv i)|lia]. }
  exists (mkResult (Some sel) ms None), scores, idx.
  repeat split; trivial.
Qed.

Lemma build_recommendations_firstn d scores indices :
  forall rank ms n,
    build_recommendations d scores rank indices = inr ms ->
    build_recommendations d scores rank (firstn n indices)
    = inr (firstn n ms).
Proof.
  induction indices as [|i indices IH]; simpl; intros rank ms n.
  - intros [= <-]. now rewrite !firstn_nil.
  - destruct n as [|n]; [intros _; reflexivity|]. simpl.
    unfold ExcMonad.bind.
    destruct (Frame.iloc d i) as [e|row]; [discriminate|].
    destruct (array_get scores i) as [e|c]; [discriminate|].
    destruct (_movie_to_dict d row (Some rank) (Some c)) as [e|m];
      [discriminate|].
    destruct (build_recommendations d scores (S rank) indices) as [e|ms'] eqn:Hb;
      [discriminate|].
    intros [= <-]. now rewrite (IH _ _ n Hb).
Qed.

(** A call whose positions are the first [n] of those of another call
    returns the first [n] entries of the other. *)
Lemma recommend_at_firstn (W : World) d tfidf idx k k' n full :
  recommend_at W d tfidf idx k' = inr full ->
  (forall m v, tfidf = Some m -> nth_error m idx = Some v ->
     similar_indices W (cosine_similarity W v m) idx k
     = firstn n (similar_indices W (cosine_similarity W v m) idx k')) ->
  recommend_at W d tfidf idx k
  = inr (mkResult (selected_movie full) (firstn n (recommendations full)) None).
Proof.
  unfold recommend_at, ExcMonad.bind, array_get. intros Hfull Hcut.
  destruct (Frame.iloc d idx) as [e|sel_row]; [discriminate|].
  destruct (_movie_to_dict d sel_row None None) as [e|sel]; [discriminate|].
  destruct tfidf as [m|]; [|discriminate].
  destruct (nth_error m idx) as [v|] eqn:Hv; [|discriminate].
  rewrite (Hcut m v eq_refl Hv).
  destruct (build_recommendations _ _ _ _) as [e|recs] eqn:Hb; [discriminate|].
  injection Hfull as <-. cbn [selected_movie recommendations].
  now rewrite (@build_recommendations_firstn _ _ _ _ _ n Hb).
Qed.

(** X11. A negative [n_recommendations] is taken as a slice bound: the last
    [-k] candidates of the ranking are dropped. The call returns the
    entries of the full ranking (the one a call with [N] returns, of
    [N - 1] entries) but for the last [-k]: the first [N - 1 - (-k)], none
    when [-k] reaches [N - 1]. *)
Theorem negative_count_drops_the_last (W : World) (csv_path : string)
    (d : DataFrame) (movie_id : Z) (movie_title : option string) (k : Z) :
  WorldOk W ->
  is_loaded (init W csv_path) = true ->
  df (init W csv_path) = Some d ->
  Forall (fun ir => movieId (snd ir) <> None /\ vote_count (snd ir) <> None)
         (rows d) ->
  (exists row, In row (map snd (rows d)) /\ movieId row = Some movie_id) ->
  (k < 0)%Z ->
  exists r full,
    get_recommendations W (init W csv_path) (Some movie_id) movie_title k = inr r
    /\ get_recommendations W (init W csv_path) (Some movie_id) movie_title
                           (Z.of_nat (List.length (rows d))) = inr full
    /\ List.length (recommendations full) = (List.length (rows d) - 1)%nat
    /\ selected_movie r = selected_movie full
    /\ recommendations r
       = firstn (List.length (rows d) - 1 - Z.to_nat (- k))
                (recommendations full)
    /\ List.length (recommendations r)
       = (List.length (rows d) - 1 - Z.to_nat (- k))%nat.
Proof.
  intros Hok Hl Hd Hcells Hid Hk.
  set (N := List.length (rows d)).
  destruct (@get_recommendations_returns W csv_path d movie_id movie_title
              (Z.of_nat N) Hok Hl Hd Hcells Hid)
    as (full & _ & _ & Hfull & _ & _ & _ & _).
  destruct (init_loaded_frame W csv_path Hl)
    as (d' & m & Hd' & Hm & Hlab & _ & _ & Hlen).
  rewrite Hd in Hd'. injection Hd' as <-. specialize (Hlen Hok).
  destruct (@first_label_exists (id_is movie_id) d) as (idx & Hidx).
  { destruct Hid as (row0 & Hin0 & Hid0). exists row0. split; trivial.
    unfold id_is. rewrite Hid0. apply Z.eqb_refl. }
  destruct (@first_match_position _ _ _ Hlab (@first_label_Some _ _ _ Hidx))
    as (sel_row & Hsel & _).
  assert (Hlt : (idx < N)%nat).
  { apply nth_error_Some. unfold N. congruence. }
  assert (Hcall : forall k',
             get_recommendations W (init W csv_path) (Some movie_id)
                                 movie_title k'
             = recommend_at W d (Some m) idx k').
  { intros k'. unfold get_recommendations. now rewrite Hl, Hd, Hm, Hidx. }
  rewrite Hcall in Hfull.
  assert (Hcands : forall v, nth_error m idx = Some v ->
             List.length (filter (fun i => negb (i =? idx)%nat)
                            (rev (argsort W (cosine_similarity W v m))))
             = (N - 1)%nat).
  { intros v Hv. rewrite candidates_length; trivial;
      rewrite (@cosine_length _ Hok), Hlen; fold N; trivial. }
  assert (Hfull_len : List.length (recommendations full) = (N - 1)%nat).
  { apply recommend_at_inv in Hfull
      as (m' & sel_row' & sel' & v & recs & Hm' & _ & _ & Hv & -> & HF & _).
    injection Hm' as <-.
    cbn [recommendations]. rewrite <- (Forall2_length HF).
    unfold similar_indices. rewrite slice_to_all; [now apply Hcands|].
    rewrite (Hcands v Hv). lia. }
  exists (mkResult (selected_movie full)
            (firstn (N - 1 - Z.to_nat (- k)) (recommendations full)) None), full.
  rewrite !Hcall. split.
  { apply (@recommend_at_firstn W d (Some m) idx k (Z.of_nat N)); trivial.
    intros m' v [= <-] Hv. unfold similar_indices.
    rewrite (@slice_to_all _ (Z.of_nat N)) by (rewrite (Hcands v Hv); lia).
    unfold slice_to. destruct (0 <=? k)%Z eqn:E; [lia|].
    now rewrite (Hcands v Hv). }
  split; [exact Hfull|]. split; [exact Hfull_len|].
  cbn [selected_movie recommendations]. split; [reflexivity|].
  split; [reflexivity|].
  rewrite length_firstn, Hfull_len. lia.
Qed.

(* ------------------------------------------------------------------ *)
(** ** More on [load_data] *)

(** X13. When [tmdb_movies_processed.csv] exists it is the file that is
    read, whatever the [csv_path]: the frame is made of its rows (cleaned
    when the required columns are there), its failure to be read is the
    failure of the load, and neither another [csv_path] nor another file
    system that has the same processed file changes the outcome. *)
Theorem processed_file_comes_first (W : World) (self : MovieRecommender)
    (csv_path : string) :
  path_exists W "tmdb_movies_processed.csv" = true ->
  find (path_exists W) (files_to_try csv_path)
  = Some "tmdb_movies_processed.csv"
  /\ (forall cols rs,
         read_csv W "tmdb_movies_processed.csv" = inr (cols, rs) ->
         df (load_data W self csv_path)
         = Some (if forallb (Frame.has_col (Frame.of_csv cols rs)) required_cols
                 then prepare (Frame.of_csv cols rs)
                 else Frame.of_csv cols rs))
  /\ (forall e,
         read_csv W "tmdb_movies_processed.csv" = inl e ->
         load_data W self csv_path
         = set_error_message (handler_message e) self)
  /\ (forall W' csv_path',
         path_exists W' "tmdb_movies_processed.csv" = true ->
         read_csv W' "tmdb_movies_processed.csv"
         = read_csv W "tmdb_movies_processed.csv" ->
         (forall docs, fit_transform W' docs = fit_transform W docs) ->
         required_cols_repr W' = required_cols_repr W ->
         load_data W' self csv_path' = load_data W self csv_path).
Proof.
  intros H.
  assert (Hfind : forall W0 p,
             path_exists W0 "tmdb_movies_processed.csv" = true ->
             find (path_exists W0) (files_to_try p)
             = Some "tmdb_movies_processed.csv").
  { intros W0 p H0. unfold files_to_try. cbn [find]. now rewrite H0. }
  split; [now apply Hfind|]. split; [|split].
  - intros cols rs Hread. unfold load_data, load_data_try.
    rewrite (Hfind W csv_path H), Hread.
    destruct (forallb _ required_cols); cbn [negb]; [|reflexivity].
    destruct (fit_transform W _) as [e|m]; [destruct e|]; reflexivity.
  - intros e Hread. unfold load_data, load_data_try.
    rewrite (Hfind W csv_path H), Hread. destruct e; reflexivity.
  - intros W' csv_path' H' Hread Hfit Hrepr. unfold load_data, load_data_try.
    rewrite (Hfind W csv_path H), (Hfind W' csv_path' H'), Hread, Hrepr.
    destruct (read_csv W "tmdb_movies_processed.csv") as [e|[cols rs]];
      [reflexivity|].
    destruct (negb _); [reflexivity|]. now rewrite Hfit.
Qed.

(** X14. When none of the five files exists, the recommender is not loaded,
    has no frame, and its message is [No movie dataset found]. *)
Theorem no_dataset_found (W : World) (csv_path : string) :
  (forall file, In file (files_to_try csv_path) -> path_exists W file = false) ->
  init W csv_path
  = mkRecommender None None false (Some "No movie dataset found").
Proof.
  intros H. unfold init, load_data, load_data_try.
  destruct (find _ _) as [file|] eqn:Hf; [|reflexivity].
  apply find_some in Hf as [Hin Hex]. rewrite (H file Hin) in Hex.
  discriminate.
Qed.

(** X15. When the file that is read lacks one of [movieId], [title], [genres],
    the recommender is not loaded; it keeps the frame as read, not
    cleaned, and the message names the required columns. *)
Theorem missing_required_column (W : World) (csv_path file : string)
    (cols : list string) (rs : list Row) :
  find (path_exists W) (files_to_try csv_path) = Some file ->
  read_csv W file = inr (cols, rs) ->
  (exists c, In c required_cols /\ ~ In c cols) ->
  init W csv_path
  = mkRecommender (Some (Frame.of_csv cols rs)) None false
      (Some ("Error loading data: CSV must contain columns: "
               ++ required_cols_repr W)%string).
Proof.
  intros Hf Hr (c & Hc & Hn). unfold init, load_data, load_data_try.
  rewrite Hf, Hr.
  destruct (forallb _ required_cols) eqn:Hall; [|reflexivity].
  exfalso. rewrite forallb_forall in Hall. specialize (Hall c Hc).
  apply has_col_In in Hall. now apply Hn.
Qed.

Lemma has_col_assign_here c f d : Frame.has_col (Frame.assign c f d) c = true.
Proof. now rewrite has_col_assign, String.eqb_refl, orb_true_r. Qed.

Lemma has_col_assign_keep c f d c' :
  Frame.has_col d c' = true -> Frame.has_col (Frame.assign c f d) c' = true.
Proof. intros H. now rewrite has_col_assign, H. Qed.

Lemma ensure_columns_display (d : DataFrame) :
  Forall (fun c => Frame.has_col (_ensure_columns d) c = true)
         ["year"; "clean_title"; "rating"; "vote_count"; "popularity"; "overview"].
Proof.
  unfold _ensure_columns. cbv zeta.
  repeat constructor;
    repeat first [ apply has_col_step_here | apply has_col_step_keep ].
Qed.

Lemma init_loaded_required (W : World) (csv_path : string) :
  is_loaded (init W csv_path) = true ->
  exists cols rs,
    forallb (Frame.has_col (Frame.of_csv cols rs)) required_cols = true
    /\ df (init W csv_path) = Some (prepare (Frame.of_csv cols rs)).
Proof.
  unfold init, load_data, load_data_try.
  destruct (find _ _) as [file|]; [|discriminate].
  destruct (read_csv W file) as [e|[cols rs]].
  { destruct e; discriminate. }
  destruct (forallb _ required_cols) eqn:Hreq; cbn [negb]; [|discriminate].
  destruct (fit_transform W _) as [e|m].
  { destruct e; discriminate. }
  intros _. exists cols, rs. auto.
Qed.

(** X16. After a load the frame has every column the dictionaries are made
    from, so [row.get(column, default)] always finds the cell of the row. *)
Theorem loaded_frame_has_all_columns (W : World) (csv_path : string)
    (d : DataFrame) :
  is_loaded (init W csv_path) = true ->
  df (init W csv_path) = Some d ->
  Forall (fun c => Frame.has_col d c = true) loaded_columns
  /\ forall A c (cell default : A),
       In c loaded_columns -> row_get d c cell default = cell.
Proof.
  intros Hl Hd.
  assert (Hcols : Forall (fun c => Frame.has_col d c = true) loaded_columns).
  { destruct (init_loaded_required W csv_path Hl) as (cols & rs & Hreq & Hd').
    rewrite Hd in Hd'. injection Hd' as ->.
    rewrite forallb_forall in Hreq.
    pose proof (ensure_columns_display (clean_data (Frame.of_csv cols rs))) as He.
    rewrite Forall_forall in He.
    assert (Hraw : forall c, In c required_cols ->
                Frame.has_col (_ensure_columns (clean_data (Frame.of_csv cols rs))) c
                = true).
    { intros c Hc. apply ensure_columns_has_col.
      rewrite has_col_clean_data. now apply Hreq. }
    unfold prepare, loaded_columns.
    repeat constructor;
      first [ apply has_col_assign_here
            | apply has_col_assign_keep; apply has_col_assign_here
            | do 2 apply has_col_assign_keep;
              first [ apply Hraw; simpl; tauto | apply He; simpl; tauto ] ]. }
  split; trivial.
  intros A c cell default Hc. unfold row_get.
  rewrite Forall_forall in Hcols. now rewrite (Hcols c Hc).
Qed.

(** X17. The derived cells of a loaded record: the genre list and the document
    for TF-IDF come from its genre string; the clean title, the year and
    the overview are computed from the title, or set to the default, when
    the file has no such column. *)
Theorem loaded_cells_are_derived (W : World) (csv_path : string) :
  is_loaded (init W csv_path) = true ->
  exists file cols rs d,
    find (path_exists W) (files_to_try csv_path) = Some file
    /\ read_csv W file = inr (cols, rs)
    /\ df (init W csv_path) = Some d
    /\ forall r, In r (map snd (rows d)) ->
         (exists t g, title r = Some t /\ genres r = Some g
                      /\ genre_list r = genre_list_of g
                      /\ genres_processed r = Some (genres_processed_of g)
                      /\ (~ In "clean_title" cols ->
                          clean_title r = Some (_clean_title t))
                      /\ (~ In "year" cols -> year r = _extract_year t))
         /\ (~ In "overview" cols ->
             overview r = Some "A great movie to watch!").
Proof.
  intros Hl.
  destruct (init_loaded W csv_path Hl) as (file & cols & rs & m & Hf & Hr & _ & Hi).
  set (raw := Frame.of_csv cols rs) in *.
  exists file, cols, rs, (prepare raw). rewrite Hi. cbn [df].
  do 3 (split; [trivial|]).
  intros r Hin. rewrite prepare_rows, map_map in Hin. simpl in Hin.
  apply in_map_iff in Hin as ([i r1] & <- & Hin). simpl.
  assert (Hp : present r1 = true).
  { assert (H : In r1 (map snd (survivors raw))).
    { rewrite <- clean_data_snd. apply in_map_iff. now exists (i, r1). }
    apply in_map_iff in H as (ir & <- & H).
    pose proof (survivors_present raw) as Hs. rewrite Forall_forall in Hs.
    now apply Hs. }
  unfold present in Hp. apply andb_true_iff in Hp as [Ht Hg].
  destruct (title r1) as [t|] eqn:Et; [|discriminate].
  destruct (genres r1) as [g|] eqn:Eg; [|discriminate].
  split.
  - exists t, g. unfold prepare_row, ensure_row, set_genre_list,
      set_genres_processed.
    cbn [title genres genre_list genres_processed clean_title year].
    rewrite ?Et, ?Eg. cbn [py_str option_map].
    do 4 (split; [reflexivity|]). split.
    + intros Hc. apply (has_col_false_iff raw) in Hc. now rewrite Hc.
    + intros Hc. apply (has_col_false_iff raw) in Hc. now rewrite Hc.
  - intros Hc. apply (has_col_false_iff raw) in Hc.
    unfold prepare_row, ensure_row, set_genre_list, set_genres_processed.
    cbn [overview]. now rewrite Hc.
Qed.

(* ------------------------------------------------------------------ *)
(** ** Years and clean titles *)

Lemma year_at_eq (s : string) :
  year_at s
  = match s with
    | String c0 (String a (String b (String c (String d (String c5 _))))) =>
        if Ascii.eqb c0 "(" && Ascii.eqb c5 ")" && year_digits a b c d
        then Some (year_value a b c d) else None
    | _ => None
    end.
Proof.
  destruct s as [|c0 s]; [reflexivity|].
  destruct c0 as [[] [] [] [] [] [] [] []]; try reflexivity.
  all: destruct s as [|a [|b [|c [|d [|c5 s]]]]]; try reflexivity.
  all: destruct c5 as [[] [] [] [] [] [] [] []]; reflexivity.
Qed.

Lemma year_at_inv (s : string) (y : Z) :
  year_at s = Some y ->
  exists a b c d rest,
    s = (year_group a b c d ++ rest)%string
    /\ year_digits a b c d = true /\ y = year_value a b c d.
Proof.
  rewrite year_at_eq.
  destruct s as [|c0 [|a [|b [|c [|d [|c5 rest]]]]]]; try discriminate.
  destruct (Ascii.eqb c0 "(") eqn:E0; [|discriminate].
  destruct (Ascii.eqb c5 ")") eqn:E5; [|discriminate].
  destruct (year_digits a b c d) eqn:Ed; [|discriminate].
  intros [= <-]. apply Ascii.eqb_eq in E0, E5. subst.
  exists a, b, c, d, rest. auto.
Qed.

Lemma year_at_group (a b c d : ascii) (rest : string) :
  year_digits a b c d = true ->
  year_at (year_group a b c d ++ rest) = Some (year_value a b c d).
Proof. intros H. rewrite year_at_eq. simpl. now rewrite H. Qed.

Lemma digit_value_range (c : ascii) :
  PyStr.is_digit c = true -> (0 <= PyStr.digit_value c <= 9)%Z.
Proof.
  unfold PyStr.is_digit, PyStr.digit_value. intros H.
  apply andb_true_iff in H as [H1 H2].
  apply Nat.leb_le in H1, H2. lia.
Qed.

Lemma year_value_range (a b c d : ascii) :
  year_digits a b c d = true -> (0 <= year_value a b c d <= 9999)%Z.
Proof.
  unfold year_digits, year_value. intros H.
  apply andb_true_iff in H as [H Hd]. apply andb_true_iff in H as [H Hc].
  apply andb_true_iff in H as [Ha Hb].
  apply digit_value_range in Ha, Hb, Hc, Hd. lia.
Qed.

Lemma extract_year_unfold (s : string) :
  _extract_year s
  = match year_at s with
    | Some y => Some y
    | None => match s with
              | EmptyString => None
              | String _ rest => _extract_year rest
              end
    end.
Proof. destruct s; reflexivity. Qed.

(** X18. The year [_extract_year] reads is written by a group [(dddd)] of the
    title, so it lies between 0 and 9999. *)
Theorem extract_year_is_a_group (title : string) (y : Z) :
  _extract_year title = Some y ->
  (0 <= y <= 9999)%Z
  /\ exists before a b c d rest,
       title = (before ++ year_group a b c d ++ rest)%string
       /\ year_digits a b c d = true /\ y = year_value a b c d.
Proof.
  induction title as [|c0 title IH]; rewrite extract_year_unfold.
  - destruct (year_at "") eqn:E; [|discriminate].
    apply year_at_inv in E as (a & b & c & d & rest & H & _). discriminate H.
  - destruct (year_at (String c0 title)) as [y'|] eqn:E.
    + intros [= ->]. apply year_at_inv in E as (a & b & c & d & rest & H & Hd & ->).
      split; [now apply year_value_range|].
      exists "", a, b, c, d, rest. auto.
    + intros H. destruct (IH H) as (Hr & before & a & b & c & d & rest & -> & Hd & ->).
      split; trivial. exists (String c0 before), a, b, c, d, rest. auto.
Qed.

Lemma extract_year_finds_group (before : string) (a b c d : ascii) (rest : string) :
  year_digits a b c d = true ->
  _extract_year (before ++ year_group a b c d ++ rest) <> None.
Proof.
  intros Hd. induction before as [|c0 before IH]; rewrite extract_year_unfold.
  - change (("" ++ (year_group a b c d ++ rest))%string)
      with ((year_group a b c d ++ rest)%string).
    rewrite (@year_at_group a b c d rest Hd). discriminate.
  - destruct (year_at _); [discriminate|]. exact IH.
Qed.

(** *** Trimming *)


Lemma strip_chars_eq (l : list ascii) :
  PyStr.strip_chars l = rstrip (lstrip l).
Proof. reflexivity. Qed.

Lemma drop_spaces_app_nonspace (l : list ascii) (c : ascii) (m : list ascii) :
  PyStr.is_space c = false ->
  PyStr.drop_spaces (l ++ c :: m) = PyStr.drop_spaces l ++ c :: m.
Proof.
  intros Hc. induction l as [|x l IH]; simpl.
  - now rewrite Hc.
  - destruct (PyStr.is_space x); [exact IH|reflexivity].
Qed.

Lemma drop_spaces_app_space (l : list ascii) (c : ascii) :
  PyStr.is_space c = true ->
  PyStr.drop_spaces (l ++ [c])
  = match PyStr.drop_spaces l with
    | [] => []
    | r => r ++ [c]
    end.
Proof.
  intros Hc. induction l as [|x l IH]; simpl.
  - now rewrite Hc.
  - destruct (PyStr.is_space x); [exact IH|reflexivity].
Qed.

Lemma drop_spaces_idem (l : list ascii) :
  PyStr.drop_spaces (PyStr.drop_spaces l) = PyStr.drop_spaces l.
Proof.
  induction l as [|x l IH]; simpl; trivial.
  destruct (PyStr.is_space x) eqn:E; trivial. simpl. now rewrite E.
Qed.

Lemma rstrip_cons_nonspace (c : ascii) (l : list ascii) :
  PyStr.is_space c = false -> rstrip (c :: l) = c :: rstrip l.
Proof.
  intros Hc. unfold rstrip. simpl.
  rewrite drop_spaces_app_nonspace by trivial. now rewrite rev_app_distr.
Qed.

Lemma rstrip_cons_space (c : ascii) (l : list ascii) :
  PyStr.is_space c = true ->
  rstrip (c :: l) = match rstrip l with [] => [] | r => c :: r end.
Proof.
  intros Hc. unfold rstrip. simpl.
  rewrite drop_spaces_app_space by trivial.
  destruct (PyStr.drop_spaces (rev l)) as [|x r] eqn:E; [reflexivity|].
  rewrite rev_app_distr. simpl.
  destruct (rev r ++ [x]) eqn:E'; [now destruct (rev r)|reflexivity].
Qed.

Lemma rstrip_idem (l : list ascii) : rstrip (rstrip l) = rstrip l.
Proof. unfold rstrip. now rewrite rev_involutive, drop_spaces_idem. Qed.

Lemma lstrip_rstrip (l : list ascii) : lstrip (rstrip l) = rstrip (lstrip l).
Proof.
  unfold lstrip. induction l as [|x l IH]; [reflexivity|].
  simpl PyStr.drop_spaces at 2. destruct (PyStr.is_space x) eqn:E.
  - rewrite rstrip_cons_space by trivial.
    destruct (rstrip l) as [|y r] eqn:Er.
    + rewrite <- IH. reflexivity.
    + rewrite <- IH. simpl. now rewrite E.
  - rewrite rstrip_cons_nonspace by trivial. simpl. now rewrite E.
Qed.

Lemma strip_chars_rstrip (l : list ascii) :
  PyStr.strip_chars (rstrip l) = PyStr.strip_chars l.
Proof.
  rewrite !strip_chars_eq, lstrip_rstrip. apply rstrip_idem.
Qed.

Lemma strip_chars_idem (l : list ascii) :
  PyStr.strip_chars (PyStr.strip_chars l) = PyStr.strip_chars l.
Proof.
  rewrite !strip_chars_eq, lstrip_rstrip. unfold lstrip.
  rewrite drop_spaces_idem. apply rstrip_idem.
Qed.

Lemma drop_spaces_head (l : list ascii) :
  match PyStr.drop_spaces l with
  | [] => True
  | c :: _ => PyStr.is_space c = false
  end.
Proof.
  induction l as [|x l IH]; simpl; trivial.
  destruct (PyStr.is_space x) eqn:E; trivial.
Qed.

Lemma strip_chars_trimmed (l : list ascii) :
  match PyStr.strip_chars l with
  | [] => True
  | c :: m => PyStr.is_space c = false
              /\ PyStr.is_space (last (c :: m) c) = false
  end.
Proof.
  destruct (PyStr.strip_chars l) as [|c m] eqn:E; trivial.
  split.
  - pose proof (drop_spaces_head (PyStr.strip_chars l)) as H.
    assert (Hl : PyStr.drop_spaces (PyStr.strip_chars l) = PyStr.strip_chars l).
    { rewrite strip_chars_eq.
      change (lstrip (rstrip (lstrip l)) = rstrip (lstrip l)).
      rewrite lstrip_rstrip. unfold lstrip. now rewrite drop_spaces_idem. }
    rewrite Hl, E in H. exact H.
  - unfold PyStr.strip_chars in E.
    pose proof (drop_spaces_head (rev (PyStr.drop_spaces l))) as H.
    destruct (PyStr.drop_spaces (rev (PyStr.drop_spaces l))) as [|x r] eqn:Ex.
    + discriminate E.
    + simpl in E. rewrite <- E. rewrite last_last. exact H.
Qed.

(** X19. A clean title has no white space at either end. *)
Theorem clean_title_trimmed (title : string) : trimmed (_clean_title title).
Proof.
  unfold trimmed, chars, _clean_title.
  rewrite list_ascii_of_string_of_list_ascii.
  pose proof (strip_chars_trimmed (drop_year_suffix (list_ascii_of_string title)))
    as H.
  destruct (PyStr.strip_chars _); exact H.
Qed.

Lemma drop_year_suffix_eq (l : list ascii) :
  drop_year_suffix l
  = match PyStr.drop_spaces (rev l) with
    | c5 :: d :: c :: b :: a :: c0 :: before =>
        if Ascii.eqb c5 ")" && Ascii.eqb c0 "(" && year_digits a b c d
        then rev (PyStr.drop_spaces before) else l
    | _ => l
    end.
Proof.
  unfold drop_year_suffix.
  destruct (PyStr.drop_spaces (rev l)) as [|c5 r]; [reflexivity|].
  destruct c5 as [[] [] [] [] [] [] [] []]; try reflexivity.
  all: destruct r as [|d [|c [|b [|a [|c0 before]]]]]; try reflexivity.
  all: destruct c0 as [[] [] [] [] [] [] [] []]; reflexivity.
Qed.

Lemma chars_app (s1 s2 : string) : chars (s1 ++ s2) = chars s1 ++ chars s2.
Proof. unfold chars. induction s1 as [|c s1 IH]; simpl; congruence. Qed.

Lemma string_of_chars (s : string) : string_of_list_ascii (chars s) = s.
Proof. apply string_of_list_ascii_of_string. Qed.

Lemma string_of_list_ascii_app (l1 l2 : list ascii) :
  string_of_list_ascii (l1 ++ l2)
  = (string_of_list_ascii l1 ++ string_of_list_ascii l2)%string.
Proof. induction l1 as [|c l1 IH]; simpl; congruence. Qed.

Lemma drop_spaces_split (l : list ascii) :
  exists blanks, l = blanks ++ PyStr.drop_spaces l.
Proof.
  induction l as [|x l (blanks & IH)]; simpl.
  - now exists [].
  - destruct (PyStr.is_space x).
    + exists (x :: blanks). simpl. now rewrite <- IH.
    + now exists [].
Qed.

(** X20. A title in which [_extract_year] finds no year is only trimmed by
    [_clean_title]: nothing else is taken away. *)
Theorem clean_title_without_year (title : string) :
  _extract_year title = None ->
  _clean_title title = PyStr.strip title.
Proof.
  intros Hy. unfold _clean_title, PyStr.strip. f_equal. f_equal.
  fold (chars title). rewrite drop_year_suffix_eq.
  destruct (PyStr.drop_spaces (rev (chars title)))
    as [|c5 [|d [|c [|b [|a [|c0 before]]]]]] eqn:E; trivial.
  destruct (Ascii.eqb c5 ")") eqn:E5; trivial.
  destruct (Ascii.eqb c0 "(") eqn:E0; trivial.
  destruct (year_digits a b c d) eqn:Ed; trivial. simpl.
  exfalso. apply Ascii.eqb_eq in E5, E0. subst c5 c0.
  destruct (drop_spaces_split (rev (chars title))) as (blanks & Hsplit).
  rewrite E in Hsplit. apply (f_equal (@rev ascii)) in Hsplit.
  rewrite rev_involutive, rev_app_distr in Hsplit. simpl in Hsplit.
  rewrite <- !app_assoc in Hsplit. simpl in Hsplit.
  apply (f_equal string_of_list_ascii) in Hsplit.
  rewrite string_of_chars, string_of_list_ascii_app in Hsplit.
  simpl in Hsplit.
  apply (@extract_year_finds_group (string_of_list_ascii (rev before))
           a b c d (string_of_list_ascii (rev blanks)) Ed).
  unfold year_group. simpl. rewrite <- Hsplit. exact Hy.
Qed.

Lemma append_empty_r (s : string) : (s ++ "")%string = s.
Proof. induction s as [|c s IH]; simpl; congruence. Qed.

Lemma year_at_before_suffix (t : string) (a b c d : ascii) (y : Z) :
  year_at (t ++ String " " (year_group a b c d)) = Some y ->
  year_at t = Some y.
Proof.
  rewrite !year_at_eq.
  destruct t as [|c0 [|a' [|b' [|c' [|d' [|c5 t]]]]]];
    cbn [String.append year_group]; unfold year_digits;
    repeat match goal with
           | |- context [Ascii.eqb ?x ?y] =>
               is_var x; destruct (Ascii.eqb x y)
           | |- context [PyStr.is_digit ?x] =>
               is_var x; destruct (PyStr.is_digit x)
           end;
    simpl; intros H; solve [discriminate H | exact H].
Qed.

(** X21. A title written as [f"{title} ({year})"] with a year of four digits
    is taken apart again: [_clean_title] gives back the title, trimmed,
    and [_extract_year] gives back the year when the title itself holds no
    group [(dddd)]. *)
Theorem title_with_year_round_trip (t : string) (a b c d : ascii) :
  year_digits a b c d = true ->
  _clean_title (t ++ String " " (year_group a b c d)) = PyStr.strip t
  /\ (_extract_year t = None ->
      _extract_year (t ++ String " " (year_group a b c d))
      = Some (year_value a b c d)).
Proof.
  intros Hd. split.
  - unfold _clean_title, PyStr.strip. f_equal.
    fold (chars (t ++ String " " (year_group a b c d))) (chars t).
    rewrite drop_year_suffix_eq, chars_app.
    change (chars (String " " (year_group a b c d)))
      with ([" "; "("; a; b; c; d; ")"]%char).
    rewrite rev_app_distr.
    change (rev [" "; "("; a; b; c; d; ")"]%char ++ rev (chars t))
      with (")" :: d :: c :: b :: a :: "(" :: " " :: rev (chars t))%char.
    change (PyStr.drop_spaces
              (")" :: d :: c :: b :: a :: "(" :: " " :: rev (chars t))%char)
      with (")" :: d :: c :: b :: a :: "(" :: " " :: rev (chars t))%char.
    cbv iota beta. rewrite Hd.
    change (Ascii.eqb ")" ")" && Ascii.eqb "(" "(" && true) with true.
    cbv iota.
    change (PyStr.drop_spaces (" "%char :: rev (chars t)))
      with (PyStr.drop_spaces (rev (chars t))).
    apply strip_chars_rstrip.
  - induction t as [|c0 t IH]; intros Hnone.
    + change (_extract_year (String " " (year_group a b c d))
              = Some (year_value a b c d)).
      rewrite extract_year_unfold.
      change (year_at (String " " (year_group a b c d))) with (@None Z).
      cbv iota. rewrite extract_year_unfold.
      pose proof (@year_at_group a b c d "" Hd) as Hg.
      rewrite append_empty_r in Hg. now rewrite Hg.
    + rewrite extract_year_unfold in Hnone.
      destruct (year_at (String c0 t)) eqn:E; [discriminate|].
      rewrite extract_year_unfold.
      destruct (year_at (String c0 t ++ String " " (year_group a b c d))) eqn:E'.
      * apply year_at_before_suffix in E'. congruence.
      * simpl. now apply IH.
Qed.

(* ------------------------------------------------------------------ *)
(** ** Replacing, and the documents for TF-IDF *)

Lemma chars_cons (c : ascii) (s : string) : chars (String c s) = c :: chars s.
Proof. reflexivity. Qed.

Lemma replace_from_chars (old new : string) (s : string) :
  forall skip x,
    In x (chars (PyStr.replace_from old new skip s)) ->
    In x (chars s) \/ In x (chars new).
Proof.
  induction s as [|c s IH]; intros skip x; cbn [PyStr.replace_from]; [tauto|].
  rewrite chars_cons. destruct skip as [|n].
  - destruct (prefix old (String c s)).
    + rewrite chars_app. intros H. apply in_app_or in H as [H | H]; [tauto|].
      apply IH in H. simpl. tauto.
    + rewrite chars_cons. intros [-> | H]; [simpl; tauto|].
      apply IH in H. simpl. tauto.
  - intros H. apply IH in H. simpl. tauto.
Qed.

(** Replacing a character takes every occurrence of it away. *)
Lemma replace_char_gone (c : ascii) (new s : string) :
  ~ In c (chars new) ->
  ~ In c (chars (PyStr.replace (String c "") new s)).
Proof.
  intros Hnew. unfold PyStr.replace.
  induction s as [|x s IH]; [simpl; tauto|].
  cbn [PyStr.replace_from prefix String.length Nat.sub].
  destruct (ascii_dec c x) as [<- | Hne].
  - replace (prefix "" s) with true by (now destruct s).
    rewrite chars_app. intros H. apply in_app_or in H as [H | H]; auto.
  - rewrite chars_cons. intros [H | H]; [now elim Hne|auto].
Qed.

(** X22. The document made of a genre string for TF-IDF holds no [|]. *)
Theorem genres_processed_has_no_pipe (x : string) :
  ~ In "|"%char (chars (genres_processed_of x)).
Proof.
  unfold genres_processed_of, PyStr.replace at 1. intros H.
  apply replace_from_chars in H as [H | H]; [|exact H].
  revert H. apply replace_char_gone. simpl. intros [H | []]. discriminate H.
Qed.

(* ------------------------------------------------------------------ *)
(** ** [get_all_genres] *)

Lemma insert_sorted_perm (x : string) (l : list string) :
  Permutation (insert_sorted x l) (x :: l).
Proof.
  induction l as [|y l IH]; simpl; [reflexivity|].
  destruct (String.leb x y); [reflexivity|].
  rewrite IH. apply perm_swap.
Qed.

Lemma insert_sorted_Sorted (x : string) (l : list string) :
  Sorted (fun a b => String.leb a b = true) l ->
  Sorted (fun a b => String.leb a b = true) (insert_sorted x l).
Proof.
  induction 1 as [|y l Hs IH Hy]; simpl; [repeat constructor|].
  destruct (String.leb x y) eqn:E.
  - repeat constructor; trivial.
  - assert (Hyx : String.leb y x = true).
    { destruct (String.leb_total x y); congruence. }
    constructor; trivial.
    destruct l as [|z l]; simpl; [now constructor|].
    destruct (String.leb x z); constructor; trivial.
    now apply HdRel_inv in Hy.
Qed.

Lemma py_sorted_perm (l : list string) : Permutation (py_sorted l) l.
Proof.
  induction l as [|x l IH]; simpl; [reflexivity|].
  rewrite insert_sorted_perm. now constructor.
Qed.

Lemma py_sorted_Sorted (l : list string) :
  Sorted (fun a b => String.leb a b = true) (py_sorted l).
Proof.
  induction l as [|x l IH]; simpl; [constructor|].
  now apply insert_sorted_Sorted.
Qed.

Lemma leb_neq_ltb (a b : string) :
  String.leb a b = true -> a <> b -> String.ltb a b = true.
Proof.
  unfold String.leb, String.ltb. intros H Hne.
  destruct (String.compare a b) eqn:E; trivial; try discriminate.
  apply String.compare_eq_iff in E. now elim Hne.
Qed.

Lemma Sorted_strict (l : list string) :
  NoDup l ->
  Sorted (fun a b => String.leb a b = true) l ->
  Sorted (fun a b => String.ltb a b = true) l.
Proof.
  intros Hnd Hs. induction l as [|a l IH]; [constructor|].
  apply NoDup_cons_iff in Hnd as [Hnot Hnd].
  apply Sorted_inv in Hs as [Hs Ha]. constructor; [auto|].
  destruct Ha as [|b l Hab]; constructor.
  apply leb_neq_ltb; trivial. intros ->. apply Hnot. now left.
Qed.

(** X23. On a loaded catalog [get_all_genres] returns the genres of the
    records, each once, in strictly ascending order. *)
Theorem all_genres_sorted (self : MovieRecommender) (d : DataFrame) :
  is_loaded self = true ->
  df self = Some d ->
  Frame.has_col d "genre_list" = true ->
  exists gs,
    get_all_genres self = inr gs
    /\ Sorted (fun a b => String.ltb a b = true) gs
    /\ forall g, In g gs <->
                 exists row, In row (map snd (rows d)) /\ In g (genre_list row).
Proof.
  intros Hl Hd Hc. unfold get_all_genres. rewrite Hl, Hd, Hc. simpl.
  set (all := List.concat (map (fun ir => genre_list (snd ir)) (rows d))).
  exists (py_sorted (nodup string_dec all)). split; trivial. split.
  - apply Sorted_strict; [|apply py_sorted_Sorted].
    apply (Permutation_NoDup (Permutation_sym (py_sorted_perm _))).
    apply NoDup_nodup.
  - intros g. split.
    + intros H. apply (Permutation_in _ (py_sorted_perm _)), nodup_In in H.
      apply in_concat in H as (gl & Hgl & Hg).
      apply in_map_iff in Hgl as (ir & <- & Hir).
      exists (snd ir). split; trivial. now apply in_map.
    + intros (row & Hrow & Hg).
      apply (Permutation_in _ (Permutation_sym (py_sorted_perm _))), nodup_In.
      apply in_concat. exists (genre_list row). split; trivial.
      apply in_map_iff in Hrow as (ir & <- & Hir).
      apply in_map_iff. now exists ir.
Qed.

(* ------------------------------------------------------------------ *)
(** ** Posters *)

Lemma mod_colors (movie_id : Z) :
  (Z.to_nat (movie_id mod Z.of_nat (List.length Poster.colors))
   < List.length Poster.colors)%nat.
Proof.
  change (List.length Poster.colors) with 10%nat.
  pose proof (Z.mod_pos_bound movie_id (Z.of_nat 10)). lia.
Qed.

(** X24. The placeholder has one of the ten colours, whatever the id, also a
    negative one; its text holds no blank and no [&]. *)
Theorem placeholder_colour_and_text (movie_id : Z) (title : string) :
  exists colour,
    In colour Poster.colors
    /\ Poster.placeholder movie_id title
       = ("https://via.placeholder.com/300x450/" ++ colour
            ++ "/ffffff?text=" ++ Poster.encoded_title title)%string
    /\ ~ In " "%char (chars (Poster.encoded_title title))
    /\ ~ In "&"%char (chars (Poster.encoded_title title)).
Proof.
  exists (nth (Z.to_nat (movie_id mod Z.of_nat (List.length Poster.colors)))
              Poster.colors "").
  split; [apply nth_In, mod_colors|]. split; [reflexivity|].
  unfold Poster.encoded_title. split.
  - unfold PyStr.replace at 1. intros H.
    apply replace_from_chars in H as [H | H].
    + revert H. apply replace_char_gone. simpl. intros [H | []]. discriminate H.
    + simpl in H. repeat (destruct H as [H | H]; [discriminate H|]). exact H.
  - apply replace_char_gone. simpl.
    intros H. repeat (destruct H as [H | H]; [discriminate H|]). exact H.
Qed.

Lemma fetch_omdb_poster_valid (http : Poster.Http) title year p :
  Poster._fetch_omdb_poster http title year = Some p ->
  p <> "" /\ p <> "N/A".
Proof.
  unfold Poster._fetch_omdb_poster.
  destruct (http title _) as [e|response]; [discriminate|].
  destruct (Poster.status_code response =? 200)%Z; [|discriminate].
  destruct (Poster.json response) as [e|[answer poster]]; [discriminate|].
  destruct (Frame.option_string_eqb answer (Some "True")); [|discriminate].
  destruct poster as [q|]; [|discriminate].
  destruct (PyStr.truthy q && negb (String.eqb q "N/A")) eqn:E; [|discriminate].
  intros [= <-]. apply andb_true_iff in E as [Ht Hn]. split.
  - intros ->. discriminate Ht.
  - intros ->. discriminate Hn.
Qed.

(** X25. [_get_poster_url] never returns the empty string nor [N/A]: it
    returns a dataset URL that starts with [http], a poster of OMDb that
    is neither, or the placeholder. *)
Theorem poster_url_is_never_empty (http : Poster.Http) (movie_id : Z)
    (title : string) (cell : option string) :
  Poster._get_poster_url http movie_id title cell <> ""
  /\ Poster._get_poster_url http movie_id title cell <> "N/A".
Proof.
  assert (Hp : Poster.placeholder movie_id title <> ""
               /\ Poster.placeholder movie_id title <> "N/A").
  { unfold Poster.placeholder. split; discriminate. }
  unfold Poster._get_poster_url.
  destruct (Poster.dataset_poster cell) as [url|] eqn:Hd.
  - unfold Poster.dataset_poster in Hd. destruct cell as [u|]; [|discriminate].
    destruct (PyStr.truthy u && prefix "http" u) eqn:E; [|discriminate].
    apply andb_true_iff in E as [Ht Hh].
    assert (url = u).
    { destruct (PyStr.contains "image.tmdb.org" u).
      - destruct (negb _); congruence.
      - destruct (negb _); congruence. }
    subst url. split; intros ->; discriminate.
  - destruct (Poster._fetch_omdb_poster http _ _) as [p|] eqn:Hf; trivial.
    apply fetch_omdb_poster_valid in Hf.
    destruct (PyStr.truthy p); trivial.
Qed.

Lemma split_digits (ds : string) :
  forallb PyStr.is_digit (list_ascii_of_string ds) = true ->
  PyStr.split "/" ds = [ds].
Proof.
  induction ds as [|c ds IH]; simpl; trivial.
  intros H. apply andb_true_iff in H as [Hc Hds].
  destruct (Ascii.eqb c "/") eqn:E.
  - apply Ascii.eqb_eq in E. subst c. discriminate Hc.
  - now rewrite (IH Hds).
Qed.

(** X26. A dataset URL on [image.tmdb.org] whose last path segment is a number,
    as [process_tmdb_dataset.py] writes them from the movie id, is not
    used as a poster. *)
Theorem numeric_tmdb_path_is_not_used (ds : string) :
  Poster.isdigit ds = true ->
  Poster.dataset_poster (Some ("https://image.tmdb.org/t/p/w500/" ++ ds)%string)
  = None.
Proof.
  intros Hd. pose proof Hd as Hd'. unfold Poster.isdigit in Hd'.
  apply andb_true_iff in Hd' as [_ Hall].
  unfold Poster.dataset_poster.
  assert (Hlast : Poster.last_piece "/" ("https://image.tmdb.org/t/p/w500/" ++ ds)
                  = ds).
  { unfold Poster.last_piece. simpl. now rewrite (split_digits _ Hall). }
  rewrite Hlast, Hd. reflexivity.
Qed.

(* ------------------------------------------------------------------ *)
(** ** The further properties at work *)

Lemma search_movies_short_query_witness :
  (is_loaded Demo.catalog = false \/ (String.length (normalised " H ") < 2)%nat)
  /\ search_movies Demo.catalog " H " 8 = inr [].
Proof.
  assert (H : is_loaded Demo.catalog = false
              \/ (String.length (normalised " H ") < 2)%nat).
  { right. vm_compute. lia. }
  split; [exact H|].
  exact (@search_movies_short_query Demo.catalog " H " 8%Z H).
Defined.

Lemma Examples_search_he :
  search_movies Demo.catalog "he" 8 = inr Examples.search_he.
Proof. vm_compute. reflexivity. Qed.

Lemma search_movies_first_matches_witness :
  is_loaded Demo.catalog = true
  /\ df Demo.catalog = Some Demo.frame
  /\ (2 <= String.length (normalised "he"))%nat
  /\ (0 <= 8)%Z
  /\ search_movies Demo.catalog "he" 8 = inr Examples.search_he
  /\ exists found rest,
       filter (fun ir => clean_title_contains (normalised "he") (snd ir))
              (rows Demo.frame)
       = found ++ rest
       /\ List.length found
          = Nat.min (Z.to_nat 8) (List.length (found ++ rest))
       /\ Forall2 (fun ir m => md_title m = title (snd ir)
                               /\ movieId (snd ir) = Some (md_id m)
                               /\ md_rank m = None
                               /\ md_similarity_score m = None)
                  found Examples.search_he.
Proof.
  assert (Hq : (2 <= String.length (normalised "he"))%nat) by (vm_compute; lia).
  assert (Hk : (0 <= 8)%Z) by discriminate.
  split; [exact Demo_catalog_loaded|]. split; [exact Demo_catalog_frame|].
  split; [exact Hq|]. split; [exact Hk|]. split; [exact Examples_search_he|].
  exact (@search_movies_first_matches Demo.catalog Demo.frame "he" 8%Z
           Examples.search_he Demo_catalog_loaded Demo_catalog_frame Hq Hk
           Examples_search_he).
Defined.

Lemma search_movies_empty_when_not_found_witness :
  is_loaded Demo.catalog = true
  /\ find_movie Demo.catalog "zorro" = inr None
  /\ search_movies Demo.catalog "zorro" 8 = inr [].
Proof.
  assert (Hf : find_movie Demo.catalog "zorro" = inr None)
    by (vm_compute; reflexivity).
  split; [exact Demo_catalog_loaded|]. split; [exact Hf|].
  exact (@search_movies_empty_when_not_found Demo.catalog "zorro" 8%Z
           Demo_catalog_loaded Hf).
Defined.

Lemma Demo_frame_convertible :
  Forall (fun ir => convertible Demo.frame (snd ir)) (rows Demo.frame).
Proof.
  vm_compute. repeat constructor; discriminate.
Qed.

Lemma search_movies_total_witness :
  is_loaded Demo.catalog = true
  /\ df Demo.catalog = Some Demo.frame
  /\ Forall (fun ir => convertible Demo.frame (snd ir)) (rows Demo.frame)
  /\ (0 <= 1)%Z
  /\ exists ms,
       search_movies Demo.catalog "to" 1 = inr ms
       /\ (List.length ms <= Z.to_nat 1)%nat.
Proof.
  assert (Hk : (0 <= 1)%Z) by discriminate.
  split; [exact Demo_catalog_loaded|]. split; [exact Demo_catalog_frame|].
  split; [exact Demo_frame_convertible|]. split; [exact Hk|].
  exact (@search_movies_total Demo.catalog Demo.frame "to" 1%Z
           Demo_catalog_loaded Demo_catalog_frame Demo_frame_convertible Hk).
Defined.

Lemma get_movie_by_id_found_witness :
  is_loaded Demo.catalog = true
  /\ df Demo.catalog = Some Demo.frame
  /\ (get_movie_by_id Demo.catalog 3 = inr None
      <-> forall row, In row (map snd (rows Demo.frame)) ->
                      movieId row <> Some 3%Z)
  /\ forall m,
       get_movie_by_id Demo.catalog 3 = inr (Some m) ->
       md_id m = 3%Z
       /\ exists i, first_match (id_is 3) Demo.frame i
                    /\ exists row, In (i, row) (rows Demo.frame)
                                   /\ md_title m = title row.
Proof.
  split; [exact Demo_catalog_loaded|]. split; [exact Demo_catalog_frame|].
  exact (@get_movie_by_id_found Demo.catalog Demo.frame 3%Z
           Demo_catalog_loaded Demo_catalog_frame).
Defined.

Lemma selected_is_get_movie_by_id_witness :
  is_loaded (init Demo.world "movies.csv") = true
  /\ get_recommendations Demo.world (init Demo.world "movies.csv")
                         (Some 1%Z) None 20 = inr Demo.toy_story_result
  /\ get_movie_by_id (init Demo.world "movies.csv") 1
     = inr (selected_movie Demo.toy_story_result).
Proof.
  split; [exact Demo_catalog_loaded|]. split; [exact Demo_toy_story_call|].
  exact (@selected_is_get_movie_by_id Demo.world "movies.csv" 1%Z None 20%Z
           Demo.toy_story_result Demo_catalog_loaded Demo_toy_story_call).
Defined.

Lemma get_recommendations_not_found_witness :
  is_loaded Demo.catalog = true
  /\ df Demo.catalog = Some Demo.frame
  /\ get_recommendations Demo.world Demo.catalog (Some 7%Z) None 20
     = inr (mkResult None [] (Some "Movie not found"))
  /\ get_recommendations Demo.world Demo.catalog None (Some "zorro") 20
     = inr (mkResult None []
              (Some ("Could not find movie: " ++ PyStr.dquote ++ "zorro"
                       ++ PyStr.dquote)%string)).
Proof.
  destruct (@get_recommendations_not_found Demo.world Demo.catalog Demo.frame
              20%Z Demo_catalog_loaded Demo_catalog_frame) as [Hid Htitle].
  split; [exact Demo_catalog_loaded|]. split; [exact Demo_catalog_frame|].
  split.
  - apply Hid. intros row Hin. vm_compute in Hin.
    destruct Hin as [<- | [<- | [<- | []]]]; discriminate.
  - apply Htitle; [discriminate | vm_compute; reflexivity].
Defined.

Lemma ranks_count_from_one_witness :
  get_recommendations Demo.world Demo.catalog (Some 1%Z) None 20
  = inr Demo.toy_story_result
  /\ map md_rank (recommendations Demo.toy_story_result)
     = map Some (seq 1 (List.length (recommendations Demo.toy_story_result))).
Proof.
  split; [exact Demo_toy_story_call|].
  exact (@ranks_count_from_one Demo.world Demo.catalog (Some 1%Z) None 20%Z
           Demo.toy_story_result Demo_toy_story_call).
Defined.

Lemma recommendations_distinct_witness :
  WorldOk Demo.world
  /\ is_loaded (init Demo.world "movies.csv") = true
  /\ get_recommendations Demo.world (init Demo.world "movies.csv")
                         (Some 1%Z) None 20 = inr Demo.toy_story_result
  /\ NoDup (map md_title (recommendations Demo.toy_story_result)).
Proof.
  split; [exact Demo_world_ok|]. split; [exact Demo_catalog_loaded|].
  split; [exact Demo_toy_story_call|].
  exact (@recommendations_distinct Demo.world "movies.csv" (Some 1%Z) None 20%Z
           Demo.toy_story_result Demo_world_ok Demo_catalog_loaded
           Demo_toy_story_call).
Defined.

Lemma recommendations_complete_witness :
  WorldOk Demo.world
  /\ is_loaded (init Demo.world "movies.csv") = true
  /\ df (init Demo.world "movies.csv") = Some Demo.frame
  /\ get_recommendations Demo.world (init Demo.world "movies.csv")
                         (Some 1%Z) None 20 = inr Demo.toy_story_result
  /\ selected_movie Demo.toy_story_result = Some Demo.toy_story
  /\ (Z.of_nat (List.length (rows Demo.frame)) - 1 <= 20)%Z
  /\ forall row, In row (map snd (rows Demo.frame)) ->
                 title row <> md_title Demo.toy_story ->
                 exists m, In m (recommendations Demo.toy_story_result)
                           /\ md_title m = title row.
Proof.
  assert (Hk : (Z.of_nat (List.length (rows Demo.frame)) - 1 <= 20)%Z)
    by (vm_compute; discriminate).
  split; [exact Demo_world_ok|]. split; [exact Demo_catalog_loaded|].
  split; [exact Demo_catalog_frame|]. split; [exact Demo_toy_story_call|].
  split; [exact Demo_toy_story_selected|]. split; [exact Hk|].
  exact (@recommendations_complete Demo.world "movies.csv" (Some 1%Z) None 20%Z
           Demo.toy_story_result Demo.frame Demo.toy_story Demo_world_ok
           Demo_catalog_loaded Demo_catalog_frame Demo_toy_story_call
           Demo_toy_story_selected Hk).
Defined.

Lemma negative_count_drops_the_last_witness :
  WorldOk Demo.world
  /\ is_loaded (init Demo.world "movies.csv") = true
  /\ df (init Demo.world "movies.csv") = Some Demo.frame
  /\ Forall (fun ir => movieId (snd ir) <> None /\ vote_count (snd ir) <> None)
            (rows Demo.frame)
  /\ (exists row, In row (map snd (rows Demo.frame)) /\ movieId row = Some 1%Z)
  /\ (-1 < 0)%Z
  /\ exists r full,
       get_recommendations Demo.world (init Demo.world "movies.csv")
                           (Some 1%Z) None (-1) = inr r
       /\ get_recommendations Demo.world (init Demo.world "movies.csv")
                              (Some 1%Z) None
                              (Z.of_nat (List.length (rows Demo.frame)))
          = inr full
       /\ List.length (recommendations full)
          = (List.length (rows Demo.frame) - 1)%nat
       /\ selected_movie r = selected_movie full
       /\ recommendations r
          = firstn (List.length (rows Demo.frame) - 1 - Z.to_nat (- -1))
                   (recommendations full)
       /\ List.length (recommendations r)
          = (List.length (rows Demo.frame) - 1 - Z.to_nat (- -1))%nat.
Proof.
  assert (Hk : (-1 < 0)%Z) by reflexivity.
  split; [exact Demo_world_ok|]. split; [exact Demo_catalog_loaded|].
  split; [exact Demo_catalog_frame|]. split; [exact Demo_frame_cells|].
  split; [exact Demo_frame_has_toy_story|]. split; [exact Hk|].
  exact (@negative_count_drops_the_last Demo.world "movies.csv" Demo.frame 1%Z
           None (-1)%Z Demo_world_ok Demo_catalog_loaded Demo_catalog_frame
           Demo_frame_cells Demo_frame_has_toy_story Hk).
Defined.

Lemma processed_file_comes_first_witness :
  path_exists Examples.processed_world "tmdb_movies_processed.csv" = true
  /\ find (path_exists Examples.processed_world) (files_to_try "movies.csv")
     = Some "tmdb_movies_processed.csv"
  /\ (forall cols rs,
         read_csv Examples.processed_world "tmdb_movies_processed.csv"
         = inr (cols, rs) ->
         df (load_data Examples.processed_world Examples.fresh "movies.csv")
         = Some (if forallb (Frame.has_col (Frame.of_csv cols rs)) required_cols
                 then prepare (Frame.of_csv cols rs)
                 else Frame.of_csv cols rs))
  /\ (forall e,
         read_csv Examples.processed_world "tmdb_movies_processed.csv" = inl e ->
         load_data Examples.processed_world Examples.fresh "movies.csv"
         = set_error_message (handler_message e) Examples.fresh)
  /\ (forall W' csv_path',
         path_exists W' "tmdb_movies_processed.csv" = true ->
         read_csv W' "tmdb_movies_processed.csv"
         = read_csv Examples.processed_world "tmdb_movies_processed.csv" ->
         (forall docs, fit_transform W' docs
                       = fit_transform Examples.processed_world docs) ->
         required_cols_repr W' = required_cols_repr Examples.processed_world ->
         load_data W' Examples.fresh csv_path'
         = load_data Examples.processed_world Examples.fresh "movies.csv").
Proof.
  split; [reflexivity|].
  exact (@processed_file_comes_first Examples.processed_world Examples.fresh
           "movies.csv" eq_refl).
Defined.

Lemma no_dataset_found_witness :
  (forall file, In file (files_to_try "movies.csv") ->
                path_exists Demo.empty_world file = false)
  /\ init Demo.empty_world "movies.csv"
     = mkRecommender None None false (Some "No movie dataset found").
Proof.
  assert (H : forall file, In file (files_to_try "movies.csv") ->
                           path_exists Demo.empty_world file = false)
    by reflexivity.
  split; [exact H|].
  exact (@no_dataset_found Demo.empty_world "movies.csv" H).
Defined.

Lemma missing_required_column_witness :
  find (path_exists Demo.world) (files_to_try "broken.csv") = Some "broken.csv"
  /\ read_csv Demo.world "broken.csv" = inr Demo.broken_csv
  /\ (exists c, In c required_cols /\ ~ In c (fst Demo.broken_csv))
  /\ init Demo.world "broken.csv"
     = mkRecommender
         (Some (Frame.of_csv (fst Demo.broken_csv) (snd Demo.broken_csv)))
         None false
         (Some ("Error loading data: CSV must contain columns: "
                  ++ required_cols_repr Demo.world)%string).
Proof.
  assert (Hc : exists c, In c required_cols /\ ~ In c (fst Demo.broken_csv)).
  { exists "genres". split; [simpl; tauto|].
    simpl. intros [H | [H | []]]; discriminate H. }
  split; [reflexivity|]. split; [reflexivity|]. split; [exact Hc|].
  exact (@missing_required_column Demo.world "broken.csv" "broken.csv"
           (fst Demo.broken_csv) (snd Demo.broken_csv) eq_refl eq_refl Hc).
Defined.

Lemma loaded_frame_has_all_columns_witness :
  is_loaded (init Demo.world "movies.csv") = true
  /\ df (init Demo.world "movies.csv") = Some Demo.frame
  /\ Forall (fun c => Frame.has_col Demo.frame c = true) loaded_columns
  /\ forall A c (cell default : A),
       In c loaded_columns -> row_get Demo.frame c cell default = cell.
Proof.
  split; [exact Demo_catalog_loaded|]. split; [exact Demo_catalog_frame|].
  exact (@loaded_frame_has_all_columns Demo.world "movies.csv" Demo.frame
           Demo_catalog_loaded Demo_catalog_frame).
Defined.

Lemma loaded_cells_are_derived_witness :
  is_loaded (init Demo.world "movies.csv") = true
  /\ exists file cols rs d,
       find (path_exists Demo.world) (files_to_try "movies.csv") = Some file
       /\ read_csv Demo.world file = inr (cols, rs)
       /\ df (init Demo.world "movies.csv") = Some d
       /\ forall r, In r (map snd (rows d)) ->
            (exists t g, title r = Some t /\ genres r = Some g
                         /\ genre_list r = genre_list_of g
                         /\ genres_processed r = Some (genres_processed_of g)
                         /\ (~ In "clean_title" cols ->
                             clean_title r = Some (_clean_title t))
                         /\ (~ In "year" cols -> year r = _extract_year t))
            /\ (~ In "overview" cols ->
                overview r = Some "A great movie to watch!").
Proof.
  split; [exact Demo_catalog_loaded|].
  exact (@loaded_cells_are_derived Demo.world "movies.csv" Demo_catalog_loaded).
Defined.

Lemma extract_year_is_a_group_witness :
  _extract_year "Toy Story (1995)" = Some 1995%Z
  /\ (0 <= 1995 <= 9999)%Z
  /\ exists before a b c d rest,
       "Toy Story (1995)" = (before ++ year_group a b c d ++ rest)%string
       /\ year_digits a b c d = true /\ 1995%Z = year_value a b c d.
Proof.
  split; [reflexivity|].
  exact (@extract_year_is_a_group "Toy Story (1995)" 1995%Z eq_refl).
Defined.

Lemma clean_title_without_year_witness :
  _extract_year "  Heat (director's cut) " = None
  /\ _clean_title "  Heat (director's cut) "
     = PyStr.strip "  Heat (director's cut) ".
Proof.
  split; [reflexivity|].
  exact (@clean_title_without_year "  Heat (director's cut) " eq_refl).
Defined.

Lemma title_with_year_round_trip_witness :
  year_digits "1" "9" "9" "5" = true
  /\ _clean_title ("Heat" ++ String " " (year_group "1" "9" "9" "5"))
     = PyStr.strip "Heat"
  /\ (_extract_year "Heat" = None ->
      _extract_year ("Heat" ++ String " " (year_group "1" "9" "9" "5"))
      = Some (year_value "1" "9" "9" "5")).
Proof.
  split; [reflexivity|].
  exact (@title_with_year_round_trip "Heat" "1" "9" "9" "5" eq_refl).
Defined.

Lemma Demo_frame_has_genre_list : Frame.has_col Demo.frame "genre_list" = true.
Proof. vm_compute. reflexivity. Qed.

Lemma all_genres_sorted_witness :
  is_loaded Demo.catalog = true
  /\ df Demo.catalog = Some Demo.frame
  /\ Frame.has_col Demo.frame "genre_list" = true
  /\ exists gs,
       get_all_genres Demo.catalog = inr gs
       /\ Sorted (fun a b => String.ltb a b = true) gs
       /\ forall g, In g gs <->
                    exists row, In row (map snd (rows Demo.frame))
                                /\ In g (genre_list row).
Proof.
  split; [exact Demo_catalog_loaded|]. split; [exact Demo_catalog_frame|].
  split; [exact Demo_frame_has_genre_list|].
  exact (@all_genres_sorted Demo.catalog Demo.frame Demo_catalog_loaded
           Demo_catalog_frame Demo_frame_has_genre_list).
Defined.

Lemma numeric_tmdb_path_is_not_used_witness :
  Poster.isdigit "862" = true
  /\ Poster.dataset_poster (Some ("https://image.tmdb.org/t/p/w500/" ++ "862")%string)
     = None.
Proof.
  split; [reflexivity|].
  exact (@numeric_tmdb_path_is_not_used "862" eq_refl).
Defined.

(* ------------------------------------------------------------------ *)
(** ** A query of blanks *)

Lemma lower_empty (s : string) : PyStr.lower s = "" -> s = "".
Proof. destruct s; [reflexivity|discriminate]. Qed.

Lemma contains_empty (s : string) : PyStr.contains "" s = true.
Proof. destruct s; reflexivity. Qed.

Lemma find_ext {A} (f g : A -> bool) (l : list A) :
  (forall x, In x l -> f x = g x) -> find f l = find g l.
Proof.
  induction l as [|a l IH]; simpl; intros H; trivial.
  rewrite (H a) by auto. destruct (g a); auto.
Qed.

(** X27. A query that is empty once trimmed is a substring of every clean
    title: when no title and no clean title of the catalog is the empty
    string, [find_movie] resolves it to the first record that has a clean
    title, and not to [None]. *)
Theorem blank_query_finds_first_record (self : MovieRecommender)
    (d : DataFrame) (query : string) :
  is_loaded self = true ->
  df self = Some d ->
  normalised query = "" ->
  (forall row, In row (map snd (rows d)) ->
               title row <> Some "" /\ clean_title row <> Some "") ->
  find_movie self query
  = inr (Frame.first_label (fun row => Frame.is_some (clean_title row)) d).
Proof.
  intros Hl Hd Hq Hne. unfold find_movie. rewrite Hl, Hd. simpl.
  fold (normalised query). rewrite Hq.
  assert (Hno : forall (cell : Row -> option string),
            (forall row, In row (map snd (rows d)) -> cell row <> Some "") ->
            Frame.first_label (fun r => cell_lower_is "" (cell r)) d = None).
  { intros cell Hcell. unfold Frame.first_label.
    destruct (find _ (rows d)) as [[i row]|] eqn:Hf; trivial.
    apply find_some in Hf as [Hin Hp]. simpl in Hp. exfalso.
    apply (Hcell row); [apply in_map_iff; now exists (i, row)|].
    unfold cell_lower_is in Hp. destruct (cell row) as [t|]; [|discriminate].
    apply String.eqb_eq, lower_empty in Hp. now subst. }
  rewrite (Hno title) by (intros row Hin; now apply Hne).
  rewrite (Hno clean_title) by (intros row Hin; now apply Hne).
  f_equal. unfold Frame.first_label. f_equal. apply find_ext.
  intros [i row] _. simpl. unfold cell_lower_contains.
  destruct (clean_title row); [apply contains_empty|reflexivity].
Qed.

Lemma blank_query_finds_first_record_witness :
  is_loaded Demo.catalog = true
  /\ df Demo.catalog = Some Demo.frame
  /\ normalised "   " = ""
  /\ (forall row, In row (map snd (rows Demo.frame)) ->
                  title row <> Some "" /\ clean_title row <> Some "")
  /\ find_movie Demo.catalog "   "
     = inr (Frame.first_label (fun row => Frame.is_some (clean_title row))
                              Demo.frame).
Proof.
  assert (Hne : forall row, In row (map snd (rows Demo.frame)) ->
                            title row <> Some "" /\ clean_title row <> Some "").
  { intros row Hin. vm_compute in Hin.
    destruct Hin as [<- | [<- | [<- | []]]]; split; discriminate. }
  split; [exact Demo_catalog_loaded|]. split; [exact Demo_catalog_frame|].
  split; [reflexivity|]. split; [exact Hne|].
  exact (@blank_query_finds_first_record Demo.catalog Demo.frame "   "
           Demo_catalog_loaded Demo_catalog_frame eq_refl Hne).
Defined.
